(** * BeeLive alert engine: a shallow embedding of [AlertEngineService]

    Source: [src/alerts/alert-engine.service.ts], with the constants of
    [src/alerts/alerts.constants.ts] and [src/api/api.constants.ts]; then
    the gateway that relays the engine's events to the dashboards,
    [src/gateway/telemetry.gateway.ts], and the serializer of the API's
    responses, [BigIntSerializerInterceptor].

    Modelling choices.
    - A JavaScript [number] is an IEEE 754 binary64 value: Rocq's primitive
      [float], whose operations round exactly like JavaScript's.
    - A [Date] is its time value, an integer count of milliseconds ([Z]);
      the dates met are valid ones.  In the gateway, which compares dates
      as objects, a date has an identity as well.
    - The service instance, the database, the event emitter, the logger and
      the wall clock form one [World]; the methods are computations in a
      state-and-exception monad over it.  What the outside does (the clock's
      readings, whether a database call rejects, what a select returns) is
      given by an [Env] of oracles indexed by the rank of the call.  The
      logger and the listeners of the emitter do not throw.
    - [async] methods are run to completion one after the other, in program
      order: a call of the handler ends before the next begins, and
      [Promise.all] runs its eight checks in array order.  Every check
      touches only the alert states of its own kinds, so the states and the
      transitions of a kind do not depend on how the checks interleave.

    The model comes first, then the vocabulary in which the properties are
    stated and the closed forms of what the methods compute, then the
    lemmas that run the methods, then the properties themselves. *)

From Stdlib Require Import ZArith List Floats Lia.
From stdpp Require Import base tactics option list countable gmap strings pretty.

Set Warnings "-inexact-float".

(* ------------------------------------------------------------------ *)
(** * JavaScript numbers *)

Module Js.

(** [a < b], [a > b], [a <= b], [a >= b] on numbers; all four are false
    when an operand is NaN. *)
Definition lt (a b : float) : bool := PrimFloat.ltb a b.
Definition gt (a b : float) : bool := PrimFloat.ltb b a.
Definition le (a b : float) : bool := PrimFloat.leb a b.
Definition ge (a b : float) : bool := PrimFloat.leb b a.

(** The number denoted by an integer of magnitude below [2^63], rounded to
    nearest-even as the arithmetic on numbers rounds.  Differences of
    [Date] time values are in that range. *)
Definition of_Z (z : Z) : float :=
  if (z <? 0)%Z
  then PrimFloat.opp (PrimFloat.of_uint63 (Uint63.of_Z (- z)))
  else PrimFloat.of_uint63 (Uint63.of_Z z).

(** [Math.round(z / 1000)] for an integer [z]: halves round up. *)
Definition round_div_1000 (z : Z) : Z := ((z + 500) / 1000)%Z.

(** A value that may be [null] or [undefined]. *)
Inductive nullable (A : Type) : Type :=
| Null
| Undefined
| Val (a : A).
Arguments Null {A}.
Arguments Undefined {A}.
Arguments Val {A} a.

(** What a running method can throw. *)
Inductive error : Type :=
| TypeError        (* a property read on [null] or [undefined] *)
| DbError.         (* a rejected database promise *)

End Js.

(* ------------------------------------------------------------------ *)
(** * Constants ([alerts.constants.ts], [api.constants.ts]) *)

Definition ALERT_DEBOUNCE_MS : Z := 5 * 60 * 1000.
Definition ALERT_HYSTERESIS_PERCENT : float := 0.05%float.
Definition HIVE_ID : string := "BERLIN-ROOFTOP-01".

(* ------------------------------------------------------------------ *)
(** * Data model *)

Inductive AlertType : Type :=
| TEMP_HIGH
| TEMP_LOW
| HUMIDITY_HIGH
| HUMIDITY_LOW
| WEIGHT_DROP
| SOUND_ANOMALY
| CO2_HIGH
| SWARM_RISK
| BATTERY_LOW
| HONEY_GAIN_LOW.

(** The enum's string values. *)
Definition AlertType_value (t : AlertType) : string :=
  match t with
  | TEMP_HIGH => "TEMP_HIGH"
  | TEMP_LOW => "TEMP_LOW"
  | HUMIDITY_HIGH => "HUMIDITY_HIGH"
  | HUMIDITY_LOW => "HUMIDITY_LOW"
  | WEIGHT_DROP => "WEIGHT_DROP"
  | SOUND_ANOMALY => "SOUND_ANOMALY"
  | CO2_HIGH => "CO2_HIGH"
  | SWARM_RISK => "SWARM_RISK"
  | BATTERY_LOW => "BATTERY_LOW"
  | HONEY_GAIN_LOW => "HONEY_GAIN_LOW"
  end.

(** [Object.values(AlertType)], in declaration order. *)
Definition AlertType_values : list AlertType :=
  [TEMP_HIGH; TEMP_LOW; HUMIDITY_HIGH; HUMIDITY_LOW; WEIGHT_DROP;
   SOUND_ANOMALY; CO2_HIGH; SWARM_RISK; BATTERY_LOW; HONEY_GAIN_LOW].

Global Instance AlertType_eq_dec : EqDecision AlertType.
Proof. solve_decision. Defined.

Definition AlertType_index (t : AlertType) : nat :=
  match t with
  | TEMP_HIGH => 0 | TEMP_LOW => 1 | HUMIDITY_HIGH => 2 | HUMIDITY_LOW => 3
  | WEIGHT_DROP => 4 | SOUND_ANOMALY => 5 | CO2_HIGH => 6 | SWARM_RISK => 7
  | BATTERY_LOW => 8 | HONEY_GAIN_LOW => 9
  end.

Global Instance AlertType_countable : Countable AlertType.
Proof.
  refine (inj_countable' AlertType_index
            (fun n => nth n AlertType_values TEMP_HIGH) _).
  intros []; reflexivity.
Defined.

(** [interface AlertState]. *)
Record AlertState : Type := mkAlertState {
  isActive : bool;
  lastTriggeredAt : option Z;
  lastClearedAt : option Z;
  debounceTimer : option nat;
  lastValue : option float;
}.

(** A row of the [thresholds] table. *)
Record Thresholds : Type := mkThresholds {
  tempMin : float;
  tempMax : float;
  humidityMin : float;
  humidityMax : float;
  maxWeightDropPerHourKg : float;
  soundMin : float;
  soundMax : float;
  co2Max : float;
  minDailyHoneyGainG : float;
  swarmRiskMax : float;
  batteryMin : float;
}.

(** The payload of a ['telemetry.inserted'] event; [recordedAt] is the
    time value of the date that the weight check makes of the field. *)
Record Telemetry : Type := mkTelemetry {
  recordedAt : Z;
  temperature : float;
  humidity : float;
  weightKg : float;
  soundDb : float;
  co2Ppm : float;
  dailyHoneyGainG : Js.nullable float;
  swarmRisk : float;
  batteryPercent : float;
}.

(** A template literal: its literal chunks and its interpolated values. *)
Inductive Part : Type :=
| Str (s : string)
| Num (x : float)             (* [${x}] *)
| Fixed3 (x : float)          (* [${x.toFixed(3)}] *)
| Int (z : Z)                 (* [${z}] for an integer *)
| Ty (t : AlertType)          (* [${type}] *)
| Thrown (e : Js.error).      (* a caught value handed to the logger *)

Definition Text : Type := list Part.

(** The values given to [insert(eventLogs)]. *)
Record EventLogRow : Type := mkEventLogRow {
  row_hiveId : string;
  row_type : string;
  row_message : Text;
}.

(** The payload of ['alert.triggered'] and ['alert.cleared']. *)
Record AlertEvent : Type := mkAlertEvent {
  ev_type : AlertType;
  ev_message : Text;
  ev_value : float;
  ev_hiveId : string;
  ev_timestamp : Z;
}.

Inductive LogLevel : Type := LDebug | LLog | LWarn | LError.

Global Instance LogLevel_eq_dec : EqDecision LogLevel.
Proof. solve_decision. Defined.

(** What [select().from(thresholds).where(...)] resolves to. *)
Inductive SelectResult : Type :=
| SelectRow (row : Thresholds)     (* a first row *)
| SelectEmpty                      (* no row *)
| SelectRejected.                  (* the promise rejects *)

(** What the engine does to the outside, in the order it does it. *)
Inductive Effect : Type :=
| DbSelectThresholds (r : SelectResult)
| DbInsertEventLog (row : EventLogRow) (ok : bool)
| Emit (name : string) (payload : AlertEvent)
| ClearTimeout (timer : nat)
| Logger (level : LogLevel) (text : Text).

(** The outside: the clock's successive readings, and the outcome of the
    successive database calls. *)
Record Env : Type := mkEnv {
  clock : nat -> Z;
  insert_rejects : nat -> bool;
  select_result : nat -> SelectResult;
}.

(** The service instance's fields, the effects so far, and how many times
    each oracle of the environment was consulted. *)
Record World : Type := mkWorld {
  alertStates : gmap AlertType AlertState;
  thresholds : option Thresholds;
  lastWeight : option float;
  lastWeightTime : option Z;
  trace : list Effect;
  clock_reads : nat;
  inserts : nat;
  selects : nat;
}.

(* ------------------------------------------------------------------ *)
(** * The monad of the methods *)

Inductive Outcome (A : Type) : Type :=
| Ret (a : A)
| Throw (e : Js.error).
Arguments Ret {A} a.
Arguments Throw {A} e.

Definition M (A : Type) : Type := Env -> World -> Outcome A * World.

Definition ret {A} (a : A) : M A := fun _ w => (Ret a, w).

Definition bind {A B} (m : M A) (k : A -> M B) : M B :=
  fun env w =>
    match m env w with
    | (Ret a, w') => k a env w'
    | (Throw e, w') => (Throw e, w')
    end.

(** [try { body } catch (error) { handler }]. *)
Definition try_catch (body : M unit) (handler : Js.error -> M unit) : M unit :=
  fun env w =>
    match body env w with
    | (Ret tt, w') => (Ret tt, w')
    | (Throw e, w') => handler e env w'
    end.

Declare Scope engine_scope.
Delimit Scope engine_scope with engine.
Notation "x <- m ;; k" := (bind m (fun x => k))
  (at level 100, m at next level, right associativity,
   format "'[v' x  <-  m  ;; '/' k ']'") : engine_scope.
Notation "m ;;; k" := (bind m (fun _ : unit => k))
  (at level 100, right associativity,
   format "'[v' m  ;;; '/' k ']'") : engine_scope.
Local Open Scope engine_scope.

(** [await Promise.all(ps)] on promises that are each run to completion in
    array order: every one of them runs, whatever the others do, and the
    first rejection, if any, is the rejection of the whole. *)
Fixpoint promise_all (ps : list (M unit)) : M unit :=
  match ps with
  | [] => ret tt
  | p :: ps' =>
      fun env w =>
        match p env w with
        | (Ret tt, w') => promise_all ps' env w'
        | (Throw e, w') => (Throw e, snd (promise_all ps' env w'))
        end
  end.

(** ** Field updates *)

Definition with_alertStates (f : gmap AlertType AlertState -> gmap AlertType AlertState)
    (w : World) : World :=
  mkWorld (f (alertStates w)) (thresholds w) (lastWeight w) (lastWeightTime w)
          (trace w) (clock_reads w) (inserts w) (selects w).

Definition with_thresholds (t : option Thresholds) (w : World) : World :=
  mkWorld (alertStates w) t (lastWeight w) (lastWeightTime w)
          (trace w) (clock_reads w) (inserts w) (selects w).

Definition with_lastWeight (x : option float) (w : World) : World :=
  mkWorld (alertStates w) (thresholds w) x (lastWeightTime w)
          (trace w) (clock_reads w) (inserts w) (selects w).

Definition with_lastWeightTime (t : option Z) (w : World) : World :=
  mkWorld (alertStates w) (thresholds w) (lastWeight w) t
          (trace w) (clock_reads w) (inserts w) (selects w).

Definition with_effect (e : Effect) (w : World) : World :=
  mkWorld (alertStates w) (thresholds w) (lastWeight w) (lastWeightTime w)
          (trace w ++ [e]) (clock_reads w) (inserts w) (selects w).

Definition with_clock_read (w : World) : World :=
  mkWorld (alertStates w) (thresholds w) (lastWeight w) (lastWeightTime w)
          (trace w) (S (clock_reads w)) (inserts w) (selects w).

Definition with_insert (w : World) : World :=
  mkWorld (alertStates w) (thresholds w) (lastWeight w) (lastWeightTime w)
          (trace w) (clock_reads w) (S (inserts w)) (selects w).

Definition with_select (w : World) : World :=
  mkWorld (alertStates w) (thresholds w) (lastWeight w) (lastWeightTime w)
          (trace w) (clock_reads w) (inserts w) (S (selects w)).

Definition set_isActive (b : bool) (s : AlertState) : AlertState :=
  mkAlertState b (lastTriggeredAt s) (lastClearedAt s) (debounceTimer s) (lastValue s).

Definition set_lastTriggeredAt (t : option Z) (s : AlertState) : AlertState :=
  mkAlertState (isActive s) t (lastClearedAt s) (debounceTimer s) (lastValue s).

Definition set_lastClearedAt (t : option Z) (s : AlertState) : AlertState :=
  mkAlertState (isActive s) (lastTriggeredAt s) t (debounceTimer s) (lastValue s).

Definition set_debounceTimer (t : option nat) (s : AlertState) : AlertState :=
  mkAlertState (isActive s) (lastTriggeredAt s) (lastClearedAt s) t (lastValue s).

Definition set_lastValue (v : option float) (s : AlertState) : AlertState :=
  mkAlertState (isActive s) (lastTriggeredAt s) (lastClearedAt s) (debounceTimer s) v.

(** ** Primitive computations *)

(** [Date.now()], and the time value of [new Date()]. *)
Definition Date_now : M Z :=
  fun env w => (Ret (clock env (clock_reads w)), with_clock_read w).

(** [this.logger.debug], [.log], [.warn], [.error]. *)
Definition logger (level : LogLevel) (text : Text) : M unit :=
  fun _ w => (Ret tt, with_effect (Logger level text) w).

(** [this.eventEmitter.emit(name, payload)]. *)
Definition emit (name : string) (payload : AlertEvent) : M unit :=
  fun _ w => (Ret tt, with_effect (Emit name payload) w).

Definition clearTimeout (timer : nat) : M unit :=
  fun _ w => (Ret tt, with_effect (ClearTimeout timer) w).

(** [await this.db.db.insert(eventLogs).values(row)]. *)
Definition db_insert_eventLogs (row : EventLogRow) : M unit :=
  fun env w =>
    let rejected := insert_rejects env (inserts w) in
    let w' := with_insert (with_effect (DbInsertEventLog row (negb rejected)) w) in
    if rejected then (Throw Js.DbError, w') else (Ret tt, w').

(** [const [result] = await this.db.db.select().from(thresholds).where(...)]:
    the first row, or [undefined]. *)
Definition db_select_thresholds : M (option Thresholds) :=
  fun env w =>
    let r := select_result env (selects w) in
    let w' := with_select (with_effect (DbSelectThresholds r) w) in
    match r with
    | SelectRow row => (Ret (Some row), w')
    | SelectEmpty => (Ret None, w')
    | SelectRejected => (Throw Js.DbError, w')
    end.

(** [this.thresholds], [this.lastWeight], [this.lastWeightTime]. *)
Definition this_thresholds : M (option Thresholds) :=
  fun _ w => (Ret (thresholds w), w).
Definition this_lastWeight : M (option float) :=
  fun _ w => (Ret (lastWeight w), w).
Definition this_lastWeightTime : M (option Z) :=
  fun _ w => (Ret (lastWeightTime w), w).

Definition assign_thresholds (t : Thresholds) : M unit :=
  fun _ w => (Ret tt, with_thresholds (Some t) w).
Definition assign_lastWeight (x : float) : M unit :=
  fun _ w => (Ret tt, with_lastWeight (Some x) w).
Definition assign_lastWeightTime (t : Z) : M unit :=
  fun _ w => (Ret tt, with_lastWeightTime (Some t) w).

(** [this.thresholds.field]: a property read, a [TypeError] on [null]. *)
Definition thresholds_field {A} (field : Thresholds -> A) : M A :=
  fun _ w =>
    match thresholds w with
    | Some t => (Ret (field t), w)
    | None => (Throw Js.TypeError, w)
    end.

(** An [AlertState] object is shared between the map and whoever holds
    it: a reference to it is the key it is stored under, and
    [this.alertStates.get(type)] is that reference, or [undefined]. *)
Definition StateRef : Type := option AlertType.

Definition alertStates_get (type : AlertType) : M StateRef :=
  fun _ w =>
    match alertStates w !! type with
    | Some _ => (Ret (Some type), w)
    | None => (Ret None, w)
    end.

(** [state.field]. *)
Definition state_field {A} (state : StateRef) (field : AlertState -> A) : M A :=
  fun _ w =>
    match state ≫= (fun k => alertStates w !! k) with
    | Some s => (Ret (field s), w)
    | None => (Throw Js.TypeError, w)
    end.

(** [state.field = value], as the update [set] of the stored object. *)
Definition state_assign (state : StateRef) (set : AlertState -> AlertState) : M unit :=
  fun _ w =>
    match state ≫= (fun k => (fun s => (k, s)) <$> alertStates w !! k) with
    | Some (k, s) => (Ret tt, with_alertStates <[k := set s]> w)
    | None => (Throw Js.TypeError, w)
    end.

(** [a && b], where [b] is only evaluated when [a] holds. *)
Definition and_then (a : bool) (b : M bool) : M bool :=
  if a then b else ret false.

(** [!b]. *)
Definition not_ (b : M bool) : M bool := x <- b ;; ret (negb x).

(* ------------------------------------------------------------------ *)
(** * [class AlertEngineService] *)

Definition DEBOUNCE_MS : Z := ALERT_DEBOUNCE_MS.
Definition HYSTERESIS_PERCENT : float := ALERT_HYSTERESIS_PERCENT.

(** The state every alert type starts in. *)
Definition initial_AlertState : AlertState :=
  {| isActive := false;
     lastTriggeredAt := None;
     lastClearedAt := None;
     debounceTimer := None;
     lastValue := None |}.

(** The instance as the constructor leaves it, in an outside where nothing
    has happened yet. *)
Definition constructor : World :=
  {| alertStates :=
       foldl (fun m type => <[type := initial_AlertState]> m) ∅ AlertType_values;
     thresholds := None;
     lastWeight := None;
     lastWeightTime := None;
     trace := [];
     clock_reads := 0;
     inserts := 0;
     selects := 0 |}.

Definition loadThresholds : M unit :=
  try_catch
    (result <- db_select_thresholds ;;
     match result with
     | Some row =>
         assign_thresholds row ;;;
         logger LDebug [Str "Thresholds loaded successfully"]
     | None =>
         logger LWarn [Str "No thresholds found, alerts will not trigger"]
     end)
    (fun error => logger LError [Str "Failed to load thresholds"; Thrown error]).

Definition onModuleInit : M unit :=
  loadThresholds ;;;
  logger LLog [Str "🚨 Alert engine initialized"].

Definition triggerAlert (type : AlertType) (message : Text) (value : float) : M unit :=
  state <- alertStates_get type ;;
  (* Check debounce: prevent triggering if last trigger was within debounce period *)
  lastTriggered <- state_field state lastTriggeredAt ;;
  debounced <-
    match lastTriggered with
    | Some t =>
        now <- Date_now ;;
        let timeSinceLastTrigger := (now - t)%Z in
        if (timeSinceLastTrigger <? DEBOUNCE_MS)%Z then
          logger LDebug
            [Str "Alert "; Ty type; Str " debounced (";
             Int (Js.round_div_1000 timeSinceLastTrigger);
             Str "s since last trigger)"] ;;;
          ret true
        else ret false
    | None => ret false
    end ;;
  if debounced : bool then ret tt
  else
    (* Clear any pending debounce timer *)
    timer <- state_field state debounceTimer ;;
    match timer with
    | Some id =>
        clearTimeout id ;;;
        state_assign state (set_debounceTimer None)
    | None => ret tt
    end ;;;
    (* Update state *)
    state_assign state (set_isActive true) ;;;
    at_ <- Date_now ;;
    state_assign state (set_lastTriggeredAt (Some at_)) ;;;
    state_assign state (set_lastValue (Some value)) ;;;
    (* Write to event_logs (state change: enter alert) *)
    try_catch
      (db_insert_eventLogs
         {| row_hiveId := HIVE_ID;
            row_type := AlertType_value type;
            row_message := message |} ;;;
       (* Emit event for other services *)
       timestamp <- Date_now ;;
       emit "alert.triggered"
         {| ev_type := type;
            ev_message := message;
            ev_value := value;
            ev_hiveId := HIVE_ID;
            ev_timestamp := timestamp |} ;;;
       logger LWarn ([Str "🚨 Alert triggered: "; Ty type; Str " - "] ++ message))
      (fun error => logger LError [Str "Failed to log alert "; Ty type; Thrown error]).

Definition clearAlert (type : AlertType) (message : Text) (value : float) : M unit :=
  state <- alertStates_get type ;;
  active <- state_field state isActive ;;
  if negb active then ret tt
  else
    (* Check debounce: prevent clearing if last clear was within debounce period *)
    lastCleared <- state_field state lastClearedAt ;;
    debounced <-
      match lastCleared with
      | Some t =>
          now <- Date_now ;;
          let timeSinceLastClear := (now - t)%Z in
          if (timeSinceLastClear <? DEBOUNCE_MS)%Z then
            logger LDebug
              [Str "Alert "; Ty type; Str " clear debounced (";
               Int (Js.round_div_1000 timeSinceLastClear);
               Str "s since last clear)"] ;;;
            ret true
          else ret false
      | None => ret false
      end ;;
    if debounced : bool then ret tt
    else
      (* Update state *)
      state_assign state (set_isActive false) ;;;
      at_ <- Date_now ;;
      state_assign state (set_lastClearedAt (Some at_)) ;;;
      state_assign state (set_lastValue (Some value)) ;;;
      (* Write to event_logs (state change: exit alert) *)
      try_catch
        (db_insert_eventLogs
           {| row_hiveId := HIVE_ID;
              row_type := String.append (AlertType_value type) "_CLEARED";
              row_message := message |} ;;;
         (* Emit event for other services *)
         timestamp <- Date_now ;;
         emit "alert.cleared"
           {| ev_type := type;
              ev_message := message;
              ev_value := value;
              ev_hiveId := HIVE_ID;
              ev_timestamp := timestamp |} ;;;
         logger LLog ([Str "✅ Alert cleared: "; Ty type; Str " - "] ++ message))
        (fun error => logger LError [Str "Failed to log alert clear "; Ty type; Thrown error]).

Definition checkTemperatureAlerts (data : Telemetry) : M unit :=
  let temp := temperature data in
  state <- alertStates_get TEMP_HIGH ;;
  stateLow <- alertStates_get TEMP_LOW ;;
  (* High temperature alert with hysteresis *)
  highThreshold <- thresholds_field tempMax ;;
  let highClearThreshold := (highThreshold * (1 - HYSTERESIS_PERCENT))%float in
  enter <- and_then (Js.gt temp highThreshold) (not_ (state_field state isActive)) ;;
  (if enter : bool then
     triggerAlert TEMP_HIGH
       [Str "Hive temperature critical: "; Num temp; Str "°C (threshold ";
        Num highThreshold; Str "°C)"]
       temp
   else
     leave <- and_then (Js.lt temp highClearThreshold) (state_field state isActive) ;;
     if leave : bool then
       clearAlert TEMP_HIGH [Str "Temperature normalized: "; Num temp; Str "°C"] temp
     else ret tt) ;;;
  (* Low temperature alert with hysteresis *)
  lowThreshold <- thresholds_field tempMin ;;
  let lowClearThreshold := (lowThreshold * (1 + HYSTERESIS_PERCENT))%float in
  enterLow <- and_then (Js.lt temp lowThreshold) (not_ (state_field stateLow isActive)) ;;
  if enterLow : bool then
    triggerAlert TEMP_LOW
      [Str "Hive temperature low: "; Num temp; Str "°C (threshold ";
       Num lowThreshold; Str "°C)"]
      temp
  else
    leaveLow <- and_then (Js.gt temp lowClearThreshold) (state_field stateLow isActive) ;;
    if leaveLow : bool then
      clearAlert TEMP_LOW [Str "Temperature normalized: "; Num temp; Str "°C"] temp
    else ret tt.

Definition checkHumidityAlerts (data : Telemetry) : M unit :=
  let humidity := humidity data in
  state <- alertStates_get HUMIDITY_HIGH ;;
  stateLow <- alertStates_get HUMIDITY_LOW ;;
  (* High humidity alert with hysteresis *)
  highThreshold <- thresholds_field humidityMax ;;
  let highClearThreshold := (highThreshold * (1 - HYSTERESIS_PERCENT))%float in
  enter <- and_then (Js.gt humidity highThreshold) (not_ (state_field state isActive)) ;;
  (if enter : bool then
     triggerAlert HUMIDITY_HIGH
       [Str "Humidity above threshold: "; Num humidity; Str "% (threshold ";
        Num highThreshold; Str "%)"]
       humidity
   else
     leave <- and_then (Js.lt humidity highClearThreshold) (state_field state isActive) ;;
     if leave : bool then
       clearAlert HUMIDITY_HIGH [Str "Humidity normalized: "; Num humidity; Str "%"] humidity
     else ret tt) ;;;
  (* Low humidity alert with hysteresis *)
  lowThreshold <- thresholds_field humidityMin ;;
  let lowClearThreshold := (lowThreshold * (1 + HYSTERESIS_PERCENT))%float in
  enterLow <- and_then (Js.lt humidity lowThreshold) (not_ (state_field stateLow isActive)) ;;
  if enterLow : bool then
    triggerAlert HUMIDITY_LOW
      [Str "Humidity below threshold: "; Num humidity; Str "% (threshold ";
       Num lowThreshold; Str "%)"]
      humidity
  else
    leaveLow <- and_then (Js.gt humidity lowClearThreshold) (state_field stateLow isActive) ;;
    if leaveLow : bool then
      clearAlert HUMIDITY_LOW [Str "Humidity normalized: "; Num humidity; Str "%"] humidity
    else ret tt.

Definition checkWeightAlerts (data : Telemetry) : M unit :=
  let currentWeight := weightKg data in
  let currentTime := recordedAt data in
  previousWeight <- this_lastWeight ;;
  previousTime <- this_lastWeightTime ;;
  match previousWeight, previousTime with
  | Some lastWeight, Some lastWeightTime =>
      let timeDiffMs := (currentTime - lastWeightTime)%Z in
      let timeDiffHours := (Js.of_Z timeDiffMs / (1000 * 60 * 60))%float in
      let weightDiff := (lastWeight - currentWeight)%float in
      (* Only check if time difference is within 1 hour and weight decreased *)
      if Js.gt timeDiffHours 0 && Js.le timeDiffHours 1 && Js.gt weightDiff 0 then
        let dropPerHour := (weightDiff / timeDiffHours)%float in
        state <- alertStates_get WEIGHT_DROP ;;
        threshold <- thresholds_field maxWeightDropPerHourKg ;;
        let clearThreshold := (threshold * (1 - HYSTERESIS_PERCENT))%float in
        enter <- and_then (Js.gt dropPerHour threshold) (not_ (state_field state isActive)) ;;
        if enter : bool then
          triggerAlert WEIGHT_DROP
            [Str "Sudden weight loss detected: "; Fixed3 dropPerHour;
             Str " kg/hour (threshold "; Num threshold;
             Str " kg/hour) - possible robbery or swarming"]
            dropPerHour
        else
          leave <- and_then (Js.le dropPerHour clearThreshold) (state_field state isActive) ;;
          if leave : bool then
            clearAlert WEIGHT_DROP
              [Str "Weight drop normalized: "; Fixed3 dropPerHour; Str " kg/hour"]
              dropPerHour
          else ret tt
      else ret tt
  | _, _ => ret tt
  end ;;;
  (* Update tracking variables *)
  assign_lastWeight currentWeight ;;;
  assign_lastWeightTime currentTime.

Definition checkSoundAlerts (data : Telemetry) : M unit :=
  let sound := soundDb data in
  state <- alertStates_get SOUND_ANOMALY ;;
  maxThreshold <- thresholds_field soundMax ;;
  minThreshold <- thresholds_field soundMin ;;
  let maxClearThreshold := (maxThreshold * (1 - HYSTERESIS_PERCENT))%float in
  let minClearThreshold := (minThreshold * (1 + HYSTERESIS_PERCENT))%float in
  let isAnomaly := Js.gt sound maxThreshold || Js.lt sound minThreshold in
  let isNormal := Js.le sound maxClearThreshold && Js.ge sound minClearThreshold in
  enter <- and_then isAnomaly (not_ (state_field state isActive)) ;;
  if enter : bool then
    let direction := if Js.gt sound maxThreshold then "high" else "low" in
    triggerAlert SOUND_ANOMALY
      [Str "Sound level "; Str direction; Str ": "; Num sound; Str " dB (range ";
       Num minThreshold; Str "-"; Num maxThreshold; Str " dB)"]
      sound
  else
    leave <- and_then isNormal (state_field state isActive) ;;
    if leave : bool then
      clearAlert SOUND_ANOMALY [Str "Sound level normalized: "; Num sound; Str " dB"] sound
    else ret tt.

Definition checkCo2Alerts (data : Telemetry) : M unit :=
  let co2 := co2Ppm data in
  state <- alertStates_get CO2_HIGH ;;
  threshold <- thresholds_field co2Max ;;
  let clearThreshold := (threshold * (1 - HYSTERESIS_PERCENT))%float in
  enter <- and_then (Js.gt co2 threshold) (not_ (state_field state isActive)) ;;
  if enter : bool then
    triggerAlert CO2_HIGH
      [Str "CO2 level high: "; Num co2; Str " ppm (threshold "; Num threshold; Str " ppm)"]
      co2
  else
    leave <- and_then (Js.lt co2 clearThreshold) (state_field state isActive) ;;
    if leave : bool then
      clearAlert CO2_HIGH [Str "CO2 level normalized: "; Num co2; Str " ppm"] co2
    else ret tt.

Definition checkSwarmRiskAlerts (data : Telemetry) : M unit :=
  let swarmRisk := swarmRisk data in
  state <- alertStates_get SWARM_RISK ;;
  threshold <- thresholds_field swarmRiskMax ;;
  let clearThreshold := (threshold * (1 - HYSTERESIS_PERCENT))%float in
  enter <- and_then (Js.gt swarmRisk threshold) (not_ (state_field state isActive)) ;;
  if enter : bool then
    triggerAlert SWARM_RISK
      [Str "Swarm risk very high: "; Num swarmRisk; Str "/100 (threshold ";
       Num threshold; Str ") – immediate inspection recommended"]
      swarmRisk
  else
    leave <- and_then (Js.lt swarmRisk clearThreshold) (state_field state isActive) ;;
    if leave : bool then
      clearAlert SWARM_RISK [Str "Swarm risk normalized: "; Num swarmRisk; Str "/100"] swarmRisk
    else ret tt.

Definition checkBatteryAlerts (data : Telemetry) : M unit :=
  let battery := batteryPercent data in
  state <- alertStates_get BATTERY_LOW ;;
  threshold <- thresholds_field batteryMin ;;
  let clearThreshold := (threshold * (1 + HYSTERESIS_PERCENT))%float in
  enter <- and_then (Js.lt battery threshold) (not_ (state_field state isActive)) ;;
  if enter : bool then
    triggerAlert BATTERY_LOW
      [Str "Battery level low: "; Num battery; Str "% (threshold "; Num threshold;
       Str "%) – please recharge device"]
      battery
  else
    leave <- and_then (Js.gt battery clearThreshold) (state_field state isActive) ;;
    if leave : bool then
      clearAlert BATTERY_LOW [Str "Battery level normalized: "; Num battery; Str "%"] battery
    else ret tt.

Definition checkHoneyGainAlerts (data : Telemetry) : M unit :=
  match dailyHoneyGainG data with
  | Js.Null | Js.Undefined => ret tt
  | Js.Val honeyGain =>
      state <- alertStates_get HONEY_GAIN_LOW ;;
      threshold <- thresholds_field minDailyHoneyGainG ;;
      let clearThreshold := (threshold * (1 + HYSTERESIS_PERCENT))%float in
      enter <- and_then (Js.lt honeyGain threshold) (not_ (state_field state isActive)) ;;
      if enter : bool then
        triggerAlert HONEY_GAIN_LOW
          [Str "Daily honey gain below threshold: "; Num honeyGain; Str " g (threshold ";
           Num threshold; Str " g)"]
          honeyGain
      else
        leave <- and_then (Js.gt honeyGain clearThreshold) (state_field state isActive) ;;
        if leave : bool then
          clearAlert HONEY_GAIN_LOW [Str "Honey gain normalized: "; Num honeyGain; Str " g"] honeyGain
        else ret tt
  end.

(** The handler of ['telemetry.inserted']. *)
Definition handleTelemetryInsert (telemetryData : Telemetry) : M unit :=
  cached <- this_thresholds ;;
  available <-
    match cached with
    | Some _ => ret true
    | None =>
        loadThresholds ;;;
        reloaded <- this_thresholds ;;
        match reloaded with
        | Some _ => ret true
        | None =>
            logger LWarn [Str "Cannot process alerts: thresholds not available"] ;;;
            ret false
        end
    end ;;
  if available : bool then
    (* Process all 8 sensor alerts *)
    promise_all
      [checkTemperatureAlerts telemetryData;
       checkHumidityAlerts telemetryData;
       checkWeightAlerts telemetryData;
       checkSoundAlerts telemetryData;
       checkCo2Alerts telemetryData;
       checkSwarmRiskAlerts telemetryData;
       checkBatteryAlerts telemetryData;
       checkHoneyGainAlerts telemetryData]
  else ret tt.

(** The engine fed a sequence of readings, one handler call after the
    other; a rejected call does not stop the next. *)
Fixpoint run (readings : list Telemetry) (env : Env) (w : World) : World :=
  match readings with
  | [] => w
  | r :: rest => run rest env (snd (handleTelemetryInsert r env w))
  end.

(* ------------------------------------------------------------------ *)
(** * Vocabulary of the properties *)

(** Every alert type has its state object in the map, as the constructor
    leaves it and as every method keeps it. *)
Definition wf (w : World) : Prop :=
  forall type, is_Some (alertStates w !! type).

(** The debounce test of [triggerAlert] and [clearAlert], on the time of
    the last transition of the same direction and the clock's reading. *)
Definition debounced (last : option Z) (now : Z) : bool :=
  match last with
  | Some t => (now - t <? DEBOUNCE_MS)%Z
  | None => false
  end.

Inductive Direction : Type := TRIGGERED | CLEARED.

Global Instance Direction_eq_dec : EqDecision Direction.
Proof. solve_decision. Defined.

(** The direction of the transition of kind [K] that an audit row records,
    if it records one: the row's type is the kind's name, with the marker
    ["_CLEARED"] appended for a clear. *)
Definition row_direction (K : AlertType) (row : EventLogRow) : option Direction :=
  if decide (row_type row = AlertType_value K) then Some TRIGGERED
  else if decide (row_type row = String.append (AlertType_value K) "_CLEARED")
       then Some CLEARED
       else None.

(** The transitions of kind [K] in a trace, oldest first.  A transition is
    handed to the audit log exactly once, whether the write succeeds or
    not, so the transitions are the attempted writes. *)
Definition transitions (K : AlertType) (tr : list Effect) : list Direction :=
  omap (fun e => match e with
                 | DbInsertEventLog row _ => row_direction K row
                 | _ => None
                 end) tr.

(** The audit rows that were durably written. *)
Definition event_logs (tr : list Effect) : list EventLogRow :=
  omap (fun e => match e with
                 | DbInsertEventLog row true => Some row
                 | _ => None
                 end) tr.

(** The events handed to the subscribers. *)
Definition published (tr : list Effect) : list (string * AlertEvent) :=
  omap (fun e => match e with
                 | Emit name payload => Some (name, payload)
                 | _ => None
                 end) tr.

(** The direction of an event of kind [K], by the event's name. *)
Definition event_direction (K : AlertType) (name : string) (payload : AlertEvent)
  : option Direction :=
  if decide (ev_type payload = K) then
    if decide (name = "alert.triggered") then Some TRIGGERED
    else if decide (name = "alert.cleared") then Some CLEARED
    else None
  else None.

(** The directions of the events of kind [K] handed to the subscribers,
    and of the audit rows of kind [K] durably written, oldest first. *)
Definition published_directions (K : AlertType) (tr : list Effect) : list Direction :=
  omap (fun e => match e with
                 | Emit name payload => event_direction K name payload
                 | _ => None
                 end) tr.

Definition written (K : AlertType) (tr : list Effect) : list Direction :=
  omap (fun e => match e with
                 | DbInsertEventLog row true => row_direction K row
                 | _ => None
                 end) tr.

(** In a stretch of trace, the events published are those of the
    transitions whose audit write succeeded, kind by kind. *)
Definition echoes (delta : list Effect) : Prop :=
  forall K, published_directions K delta = written K delta.

(** The lines the logger printed at a level. *)
Definition logged (level : LogLevel) (tr : list Effect) : list Text :=
  omap (fun e => match e with
                 | Logger l text => if decide (l = level) then Some text else None
                 | _ => None
                 end) tr.

(** Directions that alternate, from a state that is active or not to one
    that is: a trigger leaves an inactive state, a clear an active one. *)
Inductive alternating : bool -> list Direction -> bool -> Prop :=
| alternating_nil (a : bool) : alternating a [] a
| alternating_trigger (l : list Direction) (a : bool) :
    alternating true l a -> alternating false (TRIGGERED :: l) a
| alternating_clear (l : list Direction) (a : bool) :
    alternating false l a -> alternating true (CLEARED :: l) a.

(** No two neighbours of a list are equal. *)
Definition neighbours_differ (l : list Direction) : Prop :=
  forall i d1 d2, l !! i = Some d1 -> l !! S i = Some d2 -> d1 <> d2.

(** The direction of the transition, if any, that a check's test makes on
    a state [s] when the clock reads [now]. *)
Definition check_transition (enter leave : bool) (s : AlertState) (now : Z)
  : option Direction :=
  if enter && negb (isActive s) then
    if debounced (lastTriggeredAt s) now then None else Some TRIGGERED
  else if leave && isActive s then
    if debounced (lastClearedAt s) now then None else Some CLEARED
  else None.

(** Whether the alert is active after a transition, or after none. *)
Definition active_after (t : option Direction) (s : AlertState) : bool :=
  match t with
  | Some TRIGGERED => true
  | Some CLEARED => false
  | None => isActive s
  end.

(** The weight check's elapsed hours, weight loss, window test and rate,
    from the tracked previous weight and time and the reading. *)
Definition timeDiffHours (previousTime : Z) (data : Telemetry) : float :=
  (Js.of_Z (recordedAt data - previousTime) / (1000 * 60 * 60))%float.

Definition weightDiff (previousWeight : float) (data : Telemetry) : float :=
  (previousWeight - weightKg data)%float.

Definition drop_evaluated (previousWeight : float) (previousTime : Z)
    (data : Telemetry) : bool :=
  Js.gt (timeDiffHours previousTime data) 0
  && Js.le (timeDiffHours previousTime data) 1
  && Js.gt (weightDiff previousWeight data) 0.

Definition dropPerHour (previousWeight : float) (previousTime : Z)
    (data : Telemetry) : float :=
  (weightDiff previousWeight data / timeDiffHours previousTime data)%float.

(** ** What the methods compute, in closed form *)

Definition trigger_row (type : AlertType) (message : Text) : EventLogRow :=
  {| row_hiveId := HIVE_ID; row_type := AlertType_value type; row_message := message |}.

Definition clear_row (type : AlertType) (message : Text) : EventLogRow :=
  {| row_hiveId := HIVE_ID;
     row_type := String.append (AlertType_value type) "_CLEARED";
     row_message := message |}.

Definition alert_event (type : AlertType) (message : Text) (value : float) (at_ : Z)
  : AlertEvent :=
  {| ev_type := type; ev_message := message; ev_value := value;
     ev_hiveId := HIVE_ID; ev_timestamp := at_ |}.

(** The world after a trigger that was not suppressed, the clock having
    been read [n] times when the state is stamped. *)
Definition trigger_accepted (type : AlertType) (message : Text) (value : float)
    (env : Env) (w : World) (s : AlertState) (n : nat) : World :=
  let rejected := insert_rejects env (inserts w) in
  {| alertStates :=
       <[type := {| isActive := true;
                    lastTriggeredAt := Some (clock env n);
                    lastClearedAt := lastClearedAt s;
                    debounceTimer := None;
                    lastValue := Some value |}]> (alertStates w);
     thresholds := thresholds w;
     lastWeight := lastWeight w;
     lastWeightTime := lastWeightTime w;
     trace :=
       trace w
       ++ match debounceTimer s with Some id => [ClearTimeout id] | None => [] end
       ++ DbInsertEventLog (trigger_row type message) (negb rejected)
          :: (if rejected
              then [Logger LError [Str "Failed to log alert "; Ty type; Thrown Js.DbError]]
              else [Emit "alert.triggered" (alert_event type message value (clock env (S n)));
                    Logger LWarn ([Str "🚨 Alert triggered: "; Ty type; Str " - "] ++ message)]);
     clock_reads := if rejected then S n else S (S n);
     inserts := S (inserts w);
     selects := selects w |}.

Definition trigger_suppressed (type : AlertType) (w : World) (since : Z) : World :=
  with_effect
    (Logger LDebug [Str "Alert "; Ty type; Str " debounced (";
                    Int (Js.round_div_1000 since); Str "s since last trigger)"])
    (with_clock_read w).

(** The world after [triggerAlert] on a type whose state is [s]. *)
Definition after_trigger (type : AlertType) (message : Text) (value : float)
    (env : Env) (w : World) (s : AlertState) : World :=
  match lastTriggeredAt s with
  | Some t =>
      let since := (clock env (clock_reads w) - t)%Z in
      if (since <? DEBOUNCE_MS)%Z then trigger_suppressed type w since
      else trigger_accepted type message value env w s (S (clock_reads w))
  | None => trigger_accepted type message value env w s (clock_reads w)
  end.

Definition clear_accepted (type : AlertType) (message : Text) (value : float)
    (env : Env) (w : World) (s : AlertState) (n : nat) : World :=
  let rejected := insert_rejects env (inserts w) in
  {| alertStates :=
       <[type := {| isActive := false;
                    lastTriggeredAt := lastTriggeredAt s;
                    lastClearedAt := Some (clock env n);
                    debounceTimer := debounceTimer s;
                    lastValue := Some value |}]> (alertStates w);
     thresholds := thresholds w;
     lastWeight := lastWeight w;
     lastWeightTime := lastWeightTime w;
     trace :=
       trace w
       ++ DbInsertEventLog (clear_row type message) (negb rejected)
          :: (if rejected
              then [Logger LError [Str "Failed to log alert clear "; Ty type; Thrown Js.DbError]]
              else [Emit "alert.cleared" (alert_event type message value (clock env (S n)));
                    Logger LLog ([Str "✅ Alert cleared: "; Ty type; Str " - "] ++ message)]);
     clock_reads := if rejected then S n else S (S n);
     inserts := S (inserts w);
     selects := selects w |}.

Definition clear_suppressed (type : AlertType) (w : World) (since : Z) : World :=
  with_effect
    (Logger LDebug [Str "Alert "; Ty type; Str " clear debounced (";
                    Int (Js.round_div_1000 since); Str "s since last clear)"])
    (with_clock_read w).

(** The world after [clearAlert] on a type whose state is [s]. *)
Definition after_clear (type : AlertType) (message : Text) (value : float)
    (env : Env) (w : World) (s : AlertState) : World :=
  if isActive s then
    match lastClearedAt s with
    | Some t =>
        let since := (clock env (clock_reads w) - t)%Z in
        if (since <? DEBOUNCE_MS)%Z then clear_suppressed type w since
        else clear_accepted type message value env w s (S (clock_reads w))
    | None => clear_accepted type message value env w s (clock_reads w)
    end
  else w.

(** The world after the test that every check makes for one of its types:
    trigger when [enter] holds and the alert is not active, else clear when
    [leave] holds and it is. *)
Definition after_check (type : AlertType) (enter leave : bool)
    (onEnter onLeave : Text) (value : float) (env : Env) (w : World) : World :=
  match alertStates w !! type with
  | Some s =>
      if enter && negb (isActive s) then after_trigger type onEnter value env w s
      else if leave && isActive s then after_clear type onLeave value env w s
      else w
  | None => w
  end.

(** The world after the weight check's test, before the tracker is
    updated. *)
Definition after_weight_test (data : Telemetry) (th : Thresholds)
    (onEnter onLeave : float -> Text) (env : Env) (w : World) : World :=
  match lastWeight w, lastWeightTime w with
  | Some previousWeight, Some previousTime =>
      if drop_evaluated previousWeight previousTime data then
        after_check WEIGHT_DROP
          (Js.gt (dropPerHour previousWeight previousTime data) (maxWeightDropPerHourKg th))
          (Js.le (dropPerHour previousWeight previousTime data)
             (maxWeightDropPerHourKg th * (1 - HYSTERESIS_PERCENT))%float)
          (onEnter (dropPerHour previousWeight previousTime data))
          (onLeave (dropPerHour previousWeight previousTime data))
          (dropPerHour previousWeight previousTime data) env w
      else w
  | _, _ => w
  end.

(** The world after the honey-gain check. *)
Definition after_honey (data : Telemetry) (th : Thresholds)
    (onEnter onLeave : Text) (env : Env) (w : World) : World :=
  match dailyHoneyGainG data with
  | Js.Val honeyGain =>
      after_check HONEY_GAIN_LOW
        (Js.lt honeyGain (minDailyHoneyGainG th))
        (Js.gt honeyGain (minDailyHoneyGainG th * (1 + HYSTERESIS_PERCENT))%float)
        onEnter onLeave honeyGain env w
  | _ => w
  end.

(** [w'] differs from [w] at most in the state of [type], in the trace,
    which has grown by no transition of another kind, and in the counters
    of the clock and of the inserts. *)
Record touches_only (type : AlertType) (w w' : World) : Prop := {
  to_thresholds : thresholds w' = thresholds w;
  to_lastWeight : lastWeight w' = lastWeight w;
  to_lastWeightTime : lastWeightTime w' = lastWeightTime w;
  to_selects : selects w' = selects w;
  to_others : forall K, K <> type -> alertStates w' !! K = alertStates w !! K;
  to_transitions :
    forall K, K <> type -> transitions K (trace w') = transitions K (trace w);
  to_present : is_Some (alertStates w !! type) -> is_Some (alertStates w' !! type);
  to_trace : exists delta, trace w' = trace w ++ delta /\ echoes delta;
}.

(** Between [w] and [w'] the transitions of kind [K] alternate, from the
    state of [K] in [w] to its state in [w'], which is the same when there
    was no transition. *)
Definition kind_step (K : AlertType) (w w' : World) : Prop :=
  exists s s' dirs,
    alertStates w !! K = Some s
    /\ alertStates w' !! K = Some s'
    /\ transitions K (trace w') = transitions K (trace w) ++ dirs
    /\ alternating (isActive s) dirs (isActive s')
    /\ (dirs = [] -> s' = s).

(** Between [w] and [w'] nothing happened to kind [K]. *)
Definition quiet (K : AlertType) (w w' : World) : Prop :=
  alertStates w' !! K = alertStates w !! K
  /\ transitions K (trace w') = transitions K (trace w).

(** The world after [loadThresholds]. *)
Definition after_load (env : Env) (w : World) : World :=
  let r := select_result env (selects w) in
  let w' := with_select (with_effect (DbSelectThresholds r) w) in
  match r with
  | SelectRow row =>
      with_effect (Logger LDebug [Str "Thresholds loaded successfully"])
        (with_thresholds (Some row) w')
  | SelectEmpty =>
      with_effect (Logger LWarn [Str "No thresholds found, alerts will not trigger"]) w'
  | SelectRejected =>
      with_effect (Logger LError [Str "Failed to load thresholds"; Thrown Js.DbError]) w'
  end.

(** From [w] to [w'] the engine stayed well formed and kept its thresholds,
    every kind made alternating transitions, and the trace grew. *)
Record advance (w w' : World) : Prop := {
  adv_wf : wf w';
  adv_thresholds : thresholds w' = thresholds w;
  adv_selects : selects w' = selects w;
  adv_steps : forall K, kind_step K w w';
  adv_trace : exists delta, trace w' = trace w ++ delta /\ echoes delta;
}.

(** What the eight checks of a reading make of [w]. *)
Record checked (data : Telemetry) (w w' : World) : Prop := {
  ck_advance : advance w w';
  ck_lastWeight : lastWeight w' = Some (weightKg data);
  ck_lastWeightTime : lastWeightTime w' = Some (recordedAt data);
  ck_honey :
    (forall x, dailyHoneyGainG data <> Js.Val x) -> quiet HONEY_GAIN_LOW w w';
}.

(** How many times the clock has been read when a transition stamps the
    state: the debounce test reads it once when there is a last time. *)
Definition stamp_read (last : option Z) (w : World) : nat :=
  match last with
  | Some _ => S (clock_reads w)
  | None => clock_reads w
  end.

(** ** Sample inputs *)

Definition sample_thresholds : Thresholds :=
  {| tempMin := 10; tempMax := 36;
     humidityMin := 40; humidityMax := 80;
     maxWeightDropPerHourKg := 20;
     soundMin := 20; soundMax := 90;
     co2Max := 1000;
     minDailyHoneyGainG := 100;
     swarmRiskMax := 70;
     batteryMin := 20 |}.

(** A reading at time [at_] with temperature [temp] and weight [weight],
    every other sensor inside its bounds and no honey-gain value. *)
Definition sample_reading (at_ : Z) (temp weight : float) : Telemetry :=
  {| recordedAt := at_;
     temperature := temp;
     humidity := 50;
     weightKg := weight;
     soundDb := 50;
     co2Ppm := 500;
     dailyHoneyGainG := Js.Null;
     swarmRisk := 10;
     batteryPercent := 90 |}.

(** An outside whose clock advances one second per reading of it, whose
    database holds the sample thresholds, and whose inserts resolve. *)
Definition sample_env : Env :=
  {| clock := fun n => (1000 * Z.of_nat n)%Z;
     insert_rejects := fun _ => false;
     select_result := fun _ => SelectRow sample_thresholds |}.

(** The same outside, but every insert into the audit log rejects. *)
Definition rejecting_env : Env :=
  {| clock := fun n => (1000 * Z.of_nat n)%Z;
     insert_rejects := fun _ => true;
     select_result := fun _ => SelectRow sample_thresholds |}.

(** An outside with no thresholds row. *)
Definition empty_env : Env :=
  {| clock := fun n => (1000 * Z.of_nat n)%Z;
     insert_rejects := fun _ => false;
     select_result := fun _ => SelectEmpty |}.

(** An outside whose clock stands at 0 for two readings, at 299 s for the
    next two, and past 300 s from then on. *)
Definition bouncing_env : Env :=
  {| clock := fun n =>
       match n with
       | 0 | 1 => 0%Z
       | 2 | 3 => 299000%Z
       | _ => (300000 + Z.of_nat n)%Z
       end;
     insert_rejects := fun _ => false;
     select_result := fun _ => SelectRow sample_thresholds |}.

(** The engine once the sample thresholds are cached. *)
Definition ready : World := with_thresholds (Some sample_thresholds) constructor.

(** The engine with thresholds cached and the state of [type] set to [s]. *)
Definition ready_with (type : AlertType) (s : AlertState) : World :=
  with_alertStates <[type := s]> ready.

(* ------------------------------------------------------------------ *)
(** * More vocabulary: the handler kind by kind, invariants, pacing *)

(** ** The decision table of a reading *)

(** The condition on which each check asks for a trigger of its kind, and
    the one on which it asks for a clear, read off the [if]s of the eight
    checks.  The weight check takes the previous weight and time from the
    tracker, and asks for nothing when one is missing or the window test
    fails; the honey-gain check asks for nothing without a value. *)
Definition enters (K : AlertType) (th : Thresholds)
    (previousWeight : option float) (previousTime : option Z) (data : Telemetry) : bool :=
  match K with
  | TEMP_HIGH => Js.gt (temperature data) (tempMax th)
  | TEMP_LOW => Js.lt (temperature data) (tempMin th)
  | HUMIDITY_HIGH => Js.gt (humidity data) (humidityMax th)
  | HUMIDITY_LOW => Js.lt (humidity data) (humidityMin th)
  | WEIGHT_DROP =>
      match previousWeight, previousTime with
      | Some lastWeight, Some lastWeightTime =>
          drop_evaluated lastWeight lastWeightTime data
          && Js.gt (dropPerHour lastWeight lastWeightTime data) (maxWeightDropPerHourKg th)
      | _, _ => false
      end
  | SOUND_ANOMALY =>
      Js.gt (soundDb data) (soundMax th) || Js.lt (soundDb data) (soundMin th)
  | CO2_HIGH => Js.gt (co2Ppm data) (co2Max th)
  | SWARM_RISK => Js.gt (swarmRisk data) (swarmRiskMax th)
  | BATTERY_LOW => Js.lt (batteryPercent data) (batteryMin th)
  | HONEY_GAIN_LOW =>
      match dailyHoneyGainG data with
      | Js.Val honeyGain => Js.lt honeyGain (minDailyHoneyGainG th)
      | _ => false
      end
  end.

Definition leaves (K : AlertType) (th : Thresholds)
    (previousWeight : option float) (previousTime : option Z) (data : Telemetry) : bool :=
  match K with
  | TEMP_HIGH => Js.lt (temperature data) (tempMax th * (1 - HYSTERESIS_PERCENT))%float
  | TEMP_LOW => Js.gt (temperature data) (tempMin th * (1 + HYSTERESIS_PERCENT))%float
  | HUMIDITY_HIGH => Js.lt (humidity data) (humidityMax th * (1 - HYSTERESIS_PERCENT))%float
  | HUMIDITY_LOW => Js.gt (humidity data) (humidityMin th * (1 + HYSTERESIS_PERCENT))%float
  | WEIGHT_DROP =>
      match previousWeight, previousTime with
      | Some lastWeight, Some lastWeightTime =>
          drop_evaluated lastWeight lastWeightTime data
          && Js.le (dropPerHour lastWeight lastWeightTime data)
               (maxWeightDropPerHourKg th * (1 - HYSTERESIS_PERCENT))%float
      | _, _ => false
      end
  | SOUND_ANOMALY =>
      Js.le (soundDb data) (soundMax th * (1 - HYSTERESIS_PERCENT))%float
      && Js.ge (soundDb data) (soundMin th * (1 + HYSTERESIS_PERCENT))%float
  | CO2_HIGH => Js.lt (co2Ppm data) (co2Max th * (1 - HYSTERESIS_PERCENT))%float
  | SWARM_RISK => Js.lt (swarmRisk data) (swarmRiskMax th * (1 - HYSTERESIS_PERCENT))%float
  | BATTERY_LOW => Js.gt (batteryPercent data) (batteryMin th * (1 + HYSTERESIS_PERCENT))%float
  | HONEY_GAIN_LOW =>
      match dailyHoneyGainG data with
      | Js.Val honeyGain =>
          Js.gt honeyGain (minDailyHoneyGainG th * (1 + HYSTERESIS_PERCENT))%float
      | _ => false
      end
  end.

(** The tests of a reading, in the order the handler makes them. *)
Definition decisions (th : Thresholds) (previousWeight : option float)
    (previousTime : option Z) (data : Telemetry) : list (AlertType * (bool * bool)) :=
  map (fun K => (K, (enters K th previousWeight previousTime data,
                     leaves K th previousWeight previousTime data)))
      AlertType_values.

(** A sequence of tests, each on its type with its two conditions, that
    takes [w] to [w']; the weight tracker may be overwritten on the way. *)
Inductive pipeline (env : Env) : list (AlertType * (bool * bool)) -> World -> World -> Prop :=
| pipeline_done (w : World) : pipeline env [] w w
| pipeline_test (type : AlertType) (enter leave : bool) (onEnter onLeave : Text)
    (value : float) (rest : list (AlertType * (bool * bool))) (w w' : World) :
    pipeline env rest (after_check type enter leave onEnter onLeave value env w) w' ->
    pipeline env ((type, (enter, leave)) :: rest) w w'
| pipeline_track (x : option float) (t : option Z)
    (rest : list (AlertType * (bool * bool))) (w w' : World) :
    pipeline env rest (with_lastWeightTime t (with_lastWeight x w)) w' ->
    pipeline env rest w w'.

(** Thresholds [th] are at hand for the handler: cached, or absent and
    delivered by the one reload. *)
Definition available (env : Env) (w : World) (th : Thresholds) : Prop :=
  thresholds w = Some th
  \/ (thresholds w = None /\ select_result env (selects w) = SelectRow th).

(** ** Invariants of the states *)







(** The audit rows handed to the database, written or not. *)
Definition audit_attempts (tr : list Effect) : list EventLogRow :=
  omap (fun e => match e with
                 | DbInsertEventLog row _ => Some row
                 | _ => None
                 end) tr.

(** The sensor value that the check of a kind reads off a reading. *)
Definition sensor (K : AlertType) (data : Telemetry) : option float :=
  match K with
  | TEMP_HIGH | TEMP_LOW => Some (temperature data)
  | HUMIDITY_HIGH | HUMIDITY_LOW => Some (humidity data)
  | WEIGHT_DROP => Some (weightKg data)
  | SOUND_ANOMALY => Some (soundDb data)
  | CO2_HIGH => Some (co2Ppm data)
  | SWARM_RISK => Some (swarmRisk data)
  | BATTERY_LOW => Some (batteryPercent data)
  | HONEY_GAIN_LOW =>
      match dailyHoneyGainG data with
      | Js.Val honeyGain => Some honeyGain
      | _ => None
      end
  end.

(** The weight check's test is not made for a reading: the tracker holds
    no previous weight or time, or the reading is not later than the
    previous one, or more than an hour later, or shows no weight loss. *)
Definition drop_not_evaluated (w : World) (data : Telemetry) : Prop :=
  lastWeight w = None
  \/ lastWeightTime w = None
  \/ exists previousWeight previousTime,
       lastWeight w = Some previousWeight
       /\ lastWeightTime w = Some previousTime
       /\ (Js.gt (timeDiffHours previousTime data) 0 = false
           \/ Js.le (timeDiffHours previousTime data) 1 = false
           \/ Js.gt (weightDiff previousWeight data) 0 = false).

(** ** More sample inputs *)

(** The thresholds that the seeding service and the thresholds service
    insert when the table holds none ([DEFAULT_THRESHOLDS]). *)
Definition DEFAULT_THRESHOLDS : Thresholds :=
  {| tempMin := 30.0; tempMax := 36.0;
     humidityMin := 30.0; humidityMax := 80.0;
     maxWeightDropPerHourKg := 0.5;
     soundMin := 25; soundMax := 75;
     co2Max := 1000;
     minDailyHoneyGainG := -200;
     swarmRiskMax := 70;
     batteryMin := 20.0 |}.

(** An outside whose database holds the default thresholds. *)
Definition seeded_env : Env :=
  {| clock := fun n => (1000 * Z.of_nat n)%Z;
     insert_rejects := fun _ => false;
     select_result := fun _ => SelectRow DEFAULT_THRESHOLDS |}.

(** A reading inside the default bounds, with a daily honey gain. *)
Definition honey_reading (at_ : Z) (gain : float) : Telemetry :=
  {| recordedAt := at_;
     temperature := 33;
     humidity := 50;
     weightKg := 50;
     soundDb := 50;
     co2Ppm := 500;
     dailyHoneyGainG := Js.Val gain;
     swarmRisk := 10;
     batteryPercent := 90 |}.

(** The engine with the sample thresholds cached, an active weight-drop
    alert, and a previous weight of 50 kg at time 0. *)
Definition dropping : World :=
  with_lastWeightTime (Some 0%Z)
    (with_lastWeight (Some 50%float)
       (ready_with WEIGHT_DROP
          {| isActive := true; lastTriggeredAt := Some 0%Z; lastClearedAt := None;
             debounceTimer := None; lastValue := Some 30%float |})).

(* ------------------------------------------------------------------ *)
(** * [class TelemetryGateway] ([src/gateway/telemetry.gateway.ts])

    The gateway listens to the events of the emitter and talks to the
    dashboards.  Its instance and what it has sent and logged form a
    [Gateway.State]; a handler is a function on it.  The sockets and the
    logger do not throw; the one thing that can is a property read on an
    event that is [null] or [undefined], which the handler's [try] catches. *)

Module Gateway.

(** A [Date] object has an identity besides its time value: an object that
    the gateway was handed is known by a reference, one that the gateway
    made itself with [new Date(...)] by its rank among those. *)
Inductive DateObject : Type :=
| Given (ref : nat) (time : Z)
| Made (rank : nat) (time : Z).

Definition same_object (a b : DateObject) : bool :=
  match a, b with
  | Given r _, Given r' _ => Nat.eqb r r'
  | Made k _, Made k' _ => Nat.eqb k k'
  | _, _ => false
  end.

(** The values met in the fields of a telemetry record. *)
Inductive Value : Type :=
| VUndefined
| VNull
| VNumber (x : float)
| VString (s : string)
| VDate (d : DateObject).

(** [a !== b]: numbers by value, NaN differing from itself; strings by
    content; objects by identity. *)
Definition strict_ne (a b : Value) : bool :=
  match a, b with
  | VUndefined, VUndefined => false
  | VNull, VNull => false
  | VNumber x, VNumber y => negb (PrimFloat.eqb x y)
  | VString s, VString t => negb (String.eqb s t)
  | VDate d, VDate e => negb (same_object d e)
  | _, _ => true
  end.

(** The [id] of an event's record: a bigint, as the schema has it, a
    string, or none. *)
Inductive IdValue : Type :=
| IdBigInt (z : Z)
| IdString (s : string)
| IdAbsent.

(** The [recordedAt] of an event's record: a [Date] object, or a value
    that [new Date(...)] makes a date of, given by the time value it
    denotes. *)
Inductive DateField : Type :=
| IsDate (ref : nat) (time : Z)
| NotDate (time : Z).

(** A telemetry object with its eleven properties: the record of a
    ['telemetry.created'] event, and [interface TelemetryFullPayload]. *)
Record TelemetryObject (I D : Type) : Type := mkTelemetryObject {
  id : I;
  hiveId : Value;
  recordedAt : D;
  temperature : Value;
  humidity : Value;
  weightKg : Value;
  soundDb : Value;
  co2Ppm : Value;
  dailyHoneyGainG : Value;
  swarmRisk : Value;
  batteryPercent : Value;
}.
Arguments mkTelemetryObject {I D}.
Arguments id {I D}.
Arguments hiveId {I D}.
Arguments recordedAt {I D}.
Arguments temperature {I D}.
Arguments humidity {I D}.
Arguments weightKg {I D}.
Arguments soundDb {I D}.
Arguments co2Ppm {I D}.
Arguments dailyHoneyGainG {I D}.
Arguments swarmRisk {I D}.
Arguments batteryPercent {I D}.

Definition TelemetryRecord : Type := TelemetryObject IdValue DateField.
Definition TelemetryFullPayload : Type := TelemetryObject string DateObject.

(** [keyof TelemetryFullPayload]. *)
Inductive Key : Type :=
| key_id
| key_hiveId
| key_recordedAt
| key_temperature
| key_humidity
| key_weightKg
| key_soundDb
| key_co2Ppm
| key_dailyHoneyGainG
| key_swarmRisk
| key_batteryPercent.

Global Instance Key_eq_dec : EqDecision Key.
Proof. solve_decision. Defined.

Definition Key_name (k : Key) : string :=
  match k with
  | key_id => "id"
  | key_hiveId => "hiveId"
  | key_recordedAt => "recordedAt"
  | key_temperature => "temperature"
  | key_humidity => "humidity"
  | key_weightKg => "weightKg"
  | key_soundDb => "soundDb"
  | key_co2Ppm => "co2Ppm"
  | key_dailyHoneyGainG => "dailyHoneyGainG"
  | key_swarmRisk => "swarmRisk"
  | key_batteryPercent => "batteryPercent"
  end.

(** [payload[key]]. *)
Definition get (payload : TelemetryFullPayload) (key : Key) : Value :=
  match key with
  | key_id => VString (id payload)
  | key_hiveId => hiveId payload
  | key_recordedAt => VDate (recordedAt payload)
  | key_temperature => temperature payload
  | key_humidity => humidity payload
  | key_weightKg => weightKg payload
  | key_soundDb => soundDb payload
  | key_co2Ppm => co2Ppm payload
  | key_dailyHoneyGainG => dailyHoneyGainG payload
  | key_swarmRisk => swarmRisk payload
  | key_batteryPercent => batteryPercent payload
  end.

(** [Partial<TelemetryFullPayload>]: the properties set, in the order they
    were set. *)
Definition Partial : Type := list (Key * Value).

(** [Object.assign({}, payload)]: the eleven properties, in the order of
    the object literal. *)
Definition entries (payload : TelemetryFullPayload) : Partial :=
  map (fun key => (key, get payload key))
    [key_id; key_hiveId; key_recordedAt; key_temperature; key_humidity; key_weightKg;
     key_soundDb; key_co2Ppm; key_dailyHoneyGainG; key_swarmRisk; key_batteryPercent].

(** [Object.keys(delta).join(', ')]. *)
Definition keys_joined (delta : Partial) : string :=
  String.concat ", " (map (fun entry => Key_name (fst entry)) delta).

(** [interface TelemetryDeltaPayload], whose [type] is ['telemetry']. *)
Record TelemetryDeltaPayload : Type := mkTelemetryDeltaPayload {
  data : Partial;
  full : option TelemetryFullPayload;
}.

(** [interface AlertPayload], whose [type] is ['alert'], and the object
    under its [alert] property. *)
Record AlertBody : Type := mkAlertBody {
  alert_type : AlertType;
  alert_message : Text;
  alert_createdAt : Z;
  alert_value : float;
  alert_hiveId : string;
}.

Record AlertPayload : Type := mkAlertPayload {
  action : string;
  alert : AlertBody;
}.

(** What the gateway sends and logs. *)
Inductive Emission : Type :=
| ServerEmitTelemetry (payload : TelemetryDeltaPayload)   (* [this.server.emit('telemetry', ...)] *)
| ClientEmitTelemetry (client : string) (payload : TelemetryDeltaPayload)
                                                          (* [client.emit('telemetry', ...)] *)
| ServerEmitAlert (payload : AlertPayload)                (* [this.server.emit('alert', ...)] *)
| Log (level : LogLevel) (text : Text).

(** The instance's fields, what it has sent and logged, oldest first, and
    how many [Date] objects it has made. *)
Record State : Type := mkState {
  lastTelemetry : option TelemetryFullPayload;
  connectedClients : gset string;
  out : list Emission;
  dates_made : nat;
}.

(** The instance as its field initialisers leave it. *)
Definition initial : State :=
  {| lastTelemetry := None; connectedClients := ∅; out := []; dates_made := 0 |}.

Definition send (e : Emission) (g : State) : State :=
  mkState (lastTelemetry g) (connectedClients g) (out g ++ [e]) (dates_made g).

Definition with_connectedClients (f : gset string -> gset string) (g : State) : State :=
  mkState (lastTelemetry g) (f (connectedClients g)) (out g) (dates_made g).

Definition with_lastTelemetry (payload : TelemetryFullPayload) (g : State) : State :=
  mkState (Some payload) (connectedClients g) (out g) (dates_made g).

Definition afterInit (g : State) : State :=
  send (Log LLog [Str "🔌 WebSocket Gateway initialized"]) g.

Definition handleConnection (client_id : string) (g : State) : State :=
  let g := with_connectedClients (fun clients => {[client_id]} ∪ clients) g in
  let g :=
    send (Log LLog [Str "Client connected: "; Str client_id; Str " (Total: ";
                    Int (Z.of_nat (size (connectedClients g))); Str ")"]) g in
  (* Send full telemetry on first connection if available *)
  match lastTelemetry g with
  | Some last =>
      let payload := {| data := []; full := Some last |} in
      let g := send (ClientEmitTelemetry client_id payload) g in
      send (Log LDebug [Str "Sent full telemetry to new client: "; Str client_id]) g
  | None => g
  end.

Definition handleDisconnect (client_id : string) (g : State) : State :=
  let g := with_connectedClients (fun clients => clients ∖ {[client_id]}) g in
  send (Log LLog [Str "Client disconnected: "; Str client_id; Str " (Total: ";
                  Int (Z.of_nat (size (connectedClients g))); Str ")"]) g.

(** The keys that [handleTelemetryCreated] compares, in its order. *)
Definition fields : list Key :=
  [key_temperature; key_humidity; key_weightKg; key_soundDb; key_co2Ppm;
   key_dailyHoneyGainG; key_swarmRisk; key_batteryPercent; key_recordedAt].

(** The [id] of the full payload: the decimal digits of a bigint, the
    string itself, or the empty string when there is none or it is falsy. *)
Definition id_string (i : IdValue) : string :=
  match i with
  | IdBigInt z => if (z =? 0)%Z then EmptyString else pretty z
  | IdString s => s
  | IdAbsent => EmptyString
  end.

(** The full payload made of an event's record, and the state once the
    date it may need has been made. *)
Definition fullTelemetry_of (telemetryData : TelemetryRecord) (g : State)
  : TelemetryFullPayload * State :=
  let '(date, g') :=
    match recordedAt telemetryData with
    | IsDate ref time => (Given ref time, g)
    | NotDate time =>
        (Made (dates_made g) time,
         mkState (lastTelemetry g) (connectedClients g) (out g) (S (dates_made g)))
    end in
  ({| id := id_string (id telemetryData);
      hiveId := hiveId telemetryData;
      recordedAt := date;
      temperature := temperature telemetryData;
      humidity := humidity telemetryData;
      weightKg := weightKg telemetryData;
      soundDb := soundDb telemetryData;
      co2Ppm := co2Ppm telemetryData;
      dailyHoneyGainG := dailyHoneyGainG telemetryData;
      swarmRisk := swarmRisk telemetryData;
      batteryPercent := batteryPercent telemetryData |}, g').

(** The [forEach] over the compared fields: the delta and [hasChanges]. *)
Definition compare_fields (fullTelemetry last : TelemetryFullPayload) : Partial * bool :=
  foldl (fun '(delta, hasChanges) field =>
           let currentValue := get fullTelemetry field in
           let lastValue := get last field in
           if strict_ne currentValue lastValue
           then (delta ++ [(field, currentValue)], true)
           else (delta, hasChanges))
        ([], false) fields.

Definition handleTelemetryCreated (telemetryData : Js.nullable TelemetryRecord)
    (g : State) : State :=
  match telemetryData with
  | Js.Null | Js.Undefined =>
      (* [telemetryData.id] throws, and the [catch] logs *)
      send (Log LError [Str "Failed to handle telemetry.created event";
                        Thrown Js.TypeError]) g
  | Js.Val telemetryData =>
      let '(fullTelemetry, g) := fullTelemetry_of telemetryData g in
      (* Calculate delta (only changed fields) *)
      let '(delta, hasChanges) :=
        match lastTelemetry g with
        | None => (entries fullTelemetry, true)
        | Some last => compare_fields fullTelemetry last
        end in
      (* Broadcast delta if there are changes *)
      if hasChanges then
        let payload :=
          {| data := delta;
             full := match lastTelemetry g with
                     | None => Some fullTelemetry
                     | Some _ => None
                     end |} in
        let g := send (ServerEmitTelemetry payload) g in
        let g := send (Log LDebug [Str "Broadcasted telemetry delta: ";
                                   Str (keys_joined delta)]) g in
        (* Update cache *)
        with_lastTelemetry fullTelemetry g
      else g
  end.

(** The payload of an alert: the event's [timestamp] is the [Date] that
    the engine made, and [createdAt] is that date. *)
Definition alert_payload (action : string) (alertData : AlertEvent) : AlertPayload :=
  {| action := action;
     alert := {| alert_type := ev_type alertData;
                 alert_message := ev_message alertData;
                 alert_createdAt := ev_timestamp alertData;
                 alert_value := ev_value alertData;
                 alert_hiveId := ev_hiveId alertData |} |}.

Definition handleAlertTriggered (alertData : Js.nullable AlertEvent) (g : State) : State :=
  match alertData with
  | Js.Null | Js.Undefined =>
      send (Log LError [Str "Failed to handle alert.triggered event";
                        Thrown Js.TypeError]) g
  | Js.Val alertData =>
      let g := send (ServerEmitAlert (alert_payload "triggered" alertData)) g in
      send (Log LLog [Str "🚨 Broadcasted alert triggered: "; Ty (ev_type alertData)]) g
  end.

Definition handleAlertCleared (alertData : Js.nullable AlertEvent) (g : State) : State :=
  match alertData with
  | Js.Null | Js.Undefined =>
      send (Log LError [Str "Failed to handle alert.cleared event";
                        Thrown Js.TypeError]) g
  | Js.Val alertData =>
      let g := send (ServerEmitAlert (alert_payload "cleared" alertData)) g in
      send (Log LLog [Str "✅ Broadcasted alert cleared: "; Ty (ev_type alertData)]) g
  end.

(** The emitter hands an event to the handler that [@OnEvent] registered
    under its name, and to none when there is none. *)
Definition on_alert_event (event : string * AlertEvent) (g : State) : State :=
  if decide (event.1 = "alert.triggered") then handleAlertTriggered (Js.Val event.2) g
  else if decide (event.1 = "alert.cleared") then handleAlertCleared (Js.Val event.2) g
  else g.

(** The gateway handed the events that the engine published, in order. *)
Definition deliver (events : list (string * AlertEvent)) (g : State) : State :=
  foldl (fun g event => on_alert_event event g) g events.

(** What happens to a gateway: the calls of its handlers. *)
Inductive Call : Type :=
| Init
| Connection (client_id : string)
| Disconnect (client_id : string)
| TelemetryCreated (telemetryData : Js.nullable TelemetryRecord)
| AlertTriggered (alertData : Js.nullable AlertEvent)
| AlertCleared (alertData : Js.nullable AlertEvent).

Definition handle (c : Call) (g : State) : State :=
  match c with
  | Init => afterInit g
  | Connection client_id => handleConnection client_id g
  | Disconnect client_id => handleDisconnect client_id g
  | TelemetryCreated telemetryData => handleTelemetryCreated telemetryData g
  | AlertTriggered alertData => handleAlertTriggered alertData g
  | AlertCleared alertData => handleAlertCleared alertData g
  end.

(** The gateway over a sequence of calls of its handlers. *)
Definition serve (calls : list Call) (g : State) : State :=
  foldl (fun g c => handle c g) g calls.

(** ** Vocabulary *)

(** The telemetry payloads broadcast to all dashboards, oldest first. *)
Definition broadcasts (o : list Emission) : list TelemetryDeltaPayload :=
  omap (fun e => match e with ServerEmitTelemetry p => Some p | _ => None end) o.

(** The alerts broadcast to all dashboards, oldest first. *)
Definition alerts (o : list Emission) : list AlertPayload :=
  omap (fun e => match e with ServerEmitAlert p => Some p | _ => None end) o.

(** The direction that an alert payload of kind [K] reports. *)
Definition payload_direction (K : AlertType) (p : AlertPayload) : option Direction :=
  if decide (alert_type (alert p) = K) then
    if decide (action p = "triggered") then Some TRIGGERED
    else if decide (action p = "cleared") then Some CLEARED
    else None
  else None.

(** The directions of the alerts of kind [K] that the dashboards were
    told of, oldest first. *)
Definition broadcast_directions (K : AlertType) (o : list Emission) : list Direction :=
  omap (payload_direction K) (alerts o).

(** A record of the hive with a bigint id, a [Date] object of reference
    [ref] and time [time], temperature [temp], and no honey gain. *)
Definition sample_record (ref : nat) (time : Z) (temp : float) : TelemetryRecord :=
  {| id := IdBigInt 7;
     hiveId := VString HIVE_ID;
     recordedAt := IsDate ref time;
     temperature := VNumber temp;
     humidity := VNumber 50;
     weightKg := VNumber 50;
     soundDb := VNumber 50;
     co2Ppm := VNumber 500;
     dailyHoneyGainG := VNull;
     swarmRisk := VNumber 10;
     batteryPercent := VNumber 90 |}.

(** The compared keys whose value in [fullTelemetry] is not the one
    cached. *)
Definition changed (fullTelemetry last : TelemetryFullPayload) : list Key :=
  List.filter (fun key => strict_ne (get fullTelemetry key) (get last key)) fields.

(** The keys of a payload's delta. *)
Definition keys (p : TelemetryDeltaPayload) : list Key := map fst (data p).

(** An alert payload relays an event of the engine: the action is the
    event's name after ["alert."], and the body holds the event's fields. *)
Definition relays (event : string * AlertEvent) (p : AlertPayload) : Prop :=
  event.1 = String.append "alert." (action p)
  /\ alert_type (alert p) = ev_type event.2
  /\ alert_message (alert p) = ev_message event.2
  /\ alert_createdAt (alert p) = ev_timestamp event.2
  /\ alert_value (alert p) = ev_value event.2
  /\ alert_hiveId (alert p) = ev_hiveId event.2.

(** The first broadcast carries the full telemetry and all its
    properties; an update carries no full telemetry, and a delta that is
    not empty and holds compared fields only. *)
Definition opening (p : TelemetryDeltaPayload) : Prop :=
  is_Some (full p)
  /\ keys p = [key_id; key_hiveId; key_recordedAt; key_temperature; key_humidity;
               key_weightKg; key_soundDb; key_co2Ppm; key_dailyHoneyGainG; key_swarmRisk;
               key_batteryPercent].

Definition update (p : TelemetryDeltaPayload) : Prop :=
  full p = None /\ keys p <> [] /\ forall key, In key (keys p) -> In key fields.

Definition stream (payloads : list TelemetryDeltaPayload) : Prop :=
  match payloads with
  | [] => True
  | p :: rest => opening p /\ Forall update rest
  end.

(** What was sent to single clients. *)
Definition welcomes (o : list Emission) : list (string * TelemetryDeltaPayload) :=
  omap (fun e => match e with
                 | ClientEmitTelemetry client p => Some (client, p)
                 | _ => None
                 end) o.

(** The dates that the gateway made and still caches are among those it
    has made. *)
Definition dates_fresh (g : State) : Prop :=
  forall last rank time,
    lastTelemetry g = Some last -> recordedAt last = Made rank time -> rank < dates_made g.

(** What every state of the gateway satisfies: a telemetry is cached
    exactly when one was broadcast; the broadcasts are an opening and
    updates; a client is welcomed with a full telemetry and an empty delta;
    and the dates are fresh. *)
Record invariant (g : State) : Prop := {
  inv_cache : lastTelemetry g = None <-> broadcasts (out g) = [];
  inv_stream : stream (broadcasts (out g));
  inv_welcomes :
    Forall (fun welcome : string * TelemetryDeltaPayload =>
              data welcome.2 = [] /\ is_Some (full welcome.2))
      (welcomes (out g));
  inv_dates : dates_fresh g;
}.

End Gateway.

(* ------------------------------------------------------------------ *)
(** * [class BigIntSerializerInterceptor]

    The interceptor maps [transformBigInt] over what a controller returns.
    The data met are [null], [undefined], bigints, the other primitives,
    arrays without holes, plain objects, given by their own enumerable
    properties in the order of a [for ... in], and [Date] objects, which
    have no enumerable property. *)

Module Serializer.

#[warnings="-register-all"]
Inductive Data : Type :=
| DNull
| DUndefined
| DBigInt (z : Z)
| DNumber (x : float)
| DString (s : string)
| DBoolean (b : bool)
| DArray (items : list Data)
| DObject (properties : list (string * Data))
| DDate (time : Z).

Fixpoint transformBigInt (data : Data) : Data :=
  match data with
  | DNull | DUndefined => data
  | DBigInt z => DString (pretty z)
  | DArray items => DArray (map transformBigInt items)
  | DObject properties =>
      DObject (map (fun property => (fst property, transformBigInt (snd property)))
                 properties)
  | DDate _ => DObject []
  | DNumber _ | DString _ | DBoolean _ => data
  end.




(** A row of the [telemetry] table as a controller returns it. *)
Definition sample_row (id time : Z) : Data :=
  DObject [("id", DBigInt id); ("hiveId", DString HIVE_ID); ("recordedAt", DDate time);
           ("temperature", DNumber 33)].

End Serializer.

(* ------------------------------------------------------------------ *)
(** * The methods run *)

(** ** Running a computation step by step *)

Lemma bind_run {A B} (m : M A) (k : A -> M B) env w a w' :
  m env w = (Ret a, w') -> bind m k env w = k a env w'.
Proof. intros H. unfold bind. by rewrite H. Qed.

Lemma bind_throws {A B} (m : M A) (k : A -> M B) env w e w' :
  m env w = (Throw e, w') -> bind m k env w = (Throw e, w').
Proof. intros H. unfold bind. by rewrite H. Qed.

Lemma bind_assoc {A B C} (m : M A) (f : A -> M B) (g : B -> M C) env w :
  bind m (fun x => bind (f x) g) env w = bind (bind m f) g env w.
Proof. unfold bind. destruct (m env w) as [[a|e] w']; reflexivity. Qed.

Lemma try_catch_returns body handler env w w' :
  body env w = (Ret tt, w') -> try_catch body handler env w = (Ret tt, w').
Proof. intros H. unfold try_catch. by rewrite H. Qed.

Lemma try_catch_catches body handler env w e w' :
  body env w = (Throw e, w') -> try_catch body handler env w = handler e env w'.
Proof. intros H. unfold try_catch. by rewrite H. Qed.

Lemma alertStates_get_present type env w s :
  alertStates w !! type = Some s ->
  alertStates_get type env w = (Ret (Some type), w).
Proof. intros H. unfold alertStates_get. by rewrite H. Qed.

Lemma state_field_run {A} type (field : AlertState -> A) env w s :
  alertStates w !! type = Some s ->
  state_field (Some type) field env w = (Ret (field s), w).
Proof. intros H. unfold state_field. cbv [mbind option_bind]. by rewrite H. Qed.

Lemma state_assign_run type set env w s :
  alertStates w !! type = Some s ->
  state_assign (Some type) set env w
  = (Ret tt, with_alertStates <[type := set s]> w).
Proof.
  intros H. unfold state_assign. cbv [mbind option_bind fmap option_fmap option_map].
  by rewrite H.
Qed.

Lemma db_insert_eventLogs_resolves row env w :
  insert_rejects env (inserts w) = false ->
  db_insert_eventLogs row env w
  = (Ret tt, with_insert (with_effect (DbInsertEventLog row true) w)).
Proof. intros H. unfold db_insert_eventLogs. by rewrite H. Qed.

Lemma db_insert_eventLogs_rejects row env w :
  insert_rejects env (inserts w) = true ->
  db_insert_eventLogs row env w
  = (Throw Js.DbError, with_insert (with_effect (DbInsertEventLog row false) w)).
Proof. intros H. unfold db_insert_eventLogs. by rewrite H. Qed.

(** The state of [type] as the map holds it, read through the updates. *)
Lemma lookup_updated type s w :
  alertStates (with_alertStates <[type := s]> w) !! type = Some s.
Proof. apply lookup_insert_eq. Qed.

Ltac lookup_state :=
  first [ eassumption | apply lookup_updated ].

Ltac step :=
  cbv beta iota zeta; rewrite <- ?bind_assoc;
  first
    [ erewrite (bind_run (alertStates_get _)) by (eapply alertStates_get_present; lookup_state)
    | erewrite (bind_run (state_field _ _)) by (eapply state_field_run; lookup_state)
    | erewrite (bind_run (state_assign _ _)) by (eapply state_assign_run; lookup_state)
    | erewrite (bind_run Date_now) by reflexivity
    | erewrite (bind_run (logger _ _)) by reflexivity
    | erewrite (bind_run (emit _ _)) by reflexivity
    | erewrite (bind_run (clearTimeout _)) by reflexivity
    | erewrite (bind_run (ret _)) by reflexivity ];
  cbv beta iota zeta.

(** Two worlds built by updates of the same world are compared field by
    field. *)
Ltac same_world :=
  cbv [with_alertStates with_thresholds with_lastWeight with_lastWeightTime
       with_effect with_clock_read with_insert with_select
       set_isActive set_lastTriggeredAt set_lastClearedAt set_debounceTimer set_lastValue
       alertStates thresholds lastWeight lastWeightTime trace clock_reads inserts selects
       isActive lastTriggeredAt lastClearedAt debounceTimer lastValue];
  rewrite ?insert_insert_eq, <- ?app_assoc; reflexivity.

(** The [try] block of a transition: the insert rejects and the handler
    logs, or it resolves and the event is emitted. *)
Ltac finish_transition env w s :=
  let H := fresh "Hrej" in
  destruct (insert_rejects env (inserts w)) eqn:H;
  [ erewrite try_catch_catches
      by (erewrite bind_throws; [reflexivity | apply db_insert_eventLogs_rejects; exact H])
  | erewrite try_catch_returns
      by (erewrite (bind_run (db_insert_eventLogs _))
            by (apply db_insert_eventLogs_resolves; exact H);
          do 2 step; reflexivity) ];
  unfold trigger_accepted, clear_accepted, trigger_row, clear_row, alert_event, logger;
  rewrite H; f_equal; destruct w, s;
  cbv [isActive lastTriggeredAt lastClearedAt debounceTimer lastValue] in *; subst;
  same_world.

Lemma triggerAlert_run env w type message value s :
  alertStates w !! type = Some s ->
  triggerAlert type message value env w
  = (Ret tt, after_trigger type message value env w s).
Proof.
  intros Hs.
  unfold triggerAlert, after_trigger.
  do 2 step.
  destruct (lastTriggeredAt s) as [t|] eqn:Hlast.
  - step.
    destruct (clock env (clock_reads w) - t <? DEBOUNCE_MS)%Z.
    { do 2 step. reflexivity. }
    do 2 step.
    destruct (debounceTimer s) as [id|] eqn:Htimer.
    + do 6 step. finish_transition env w s.
    + do 5 step. finish_transition env w s.
  - do 2 step.
    destruct (debounceTimer s) as [id|] eqn:Htimer.
    + do 6 step. finish_transition env w s.
    + do 5 step. finish_transition env w s.
Qed.

Lemma clearAlert_run env w type message value s :
  alertStates w !! type = Some s ->
  clearAlert type message value env w
  = (Ret tt, after_clear type message value env w s).
Proof.
  intros Hs.
  unfold clearAlert, after_clear.
  do 2 step.
  destruct (isActive s) eqn:Hactive; cbv [negb]; [|reflexivity].
  step.
  destruct (lastClearedAt s) as [t|] eqn:Hlast.
  - step.
    destruct (clock env (clock_reads w) - t <? DEBOUNCE_MS)%Z.
    { do 2 step. reflexivity. }
    do 5 step. finish_transition env w s.
  - do 5 step. finish_transition env w s.
Qed.

(** ** The transitions in the trace of a transition *)

Lemma row_direction_trigger_row K type message :
  row_direction K (trigger_row type message)
  = if decide (K = type) then Some TRIGGERED else None.
Proof. destruct K, type; reflexivity. Qed.

Lemma row_direction_clear_row K type message :
  row_direction K (clear_row type message)
  = if decide (K = type) then Some CLEARED else None.
Proof. destruct K, type; reflexivity. Qed.

Lemma transitions_app K l1 l2 :
  transitions K (l1 ++ l2) = transitions K l1 ++ transitions K l2.
Proof. apply omap_app. Qed.

Lemma transitions_trigger_accepted K type message value env w s n :
  transitions K (trace (trigger_accepted type message value env w s n))
  = transitions K (trace w) ++ (if decide (K = type) then [TRIGGERED] else []).
Proof.
  unfold trigger_accepted; cbv [trace]; fold (trace w).
  rewrite !transitions_app. f_equal.
  replace (transitions K match debounceTimer s with
                         | Some id => [ClearTimeout id]
                         | None => []
                         end) with (@nil Direction)
    by (by destruct (debounceTimer s)).
  cbn [app transitions omap list_omap].
  rewrite row_direction_trigger_row.
  destruct (decide (K = type)), (insert_rejects env (inserts w)); reflexivity.
Qed.

Lemma transitions_clear_accepted K type message value env w s n :
  transitions K (trace (clear_accepted type message value env w s n))
  = transitions K (trace w) ++ (if decide (K = type) then [CLEARED] else []).
Proof.
  unfold clear_accepted; cbv [trace]; fold (trace w).
  rewrite !transitions_app. f_equal.
  cbn [app transitions omap list_omap].
  rewrite row_direction_clear_row.
  destruct (decide (K = type)), (insert_rejects env (inserts w)); reflexivity.
Qed.

Lemma transitions_suppressed K w e :
  transitions K (trace (with_effect (Logger LDebug e) (with_clock_read w)))
  = transitions K (trace w).
Proof.
  cbv [with_effect with_clock_read trace]; fold (trace w).
  rewrite transitions_app. apply app_nil_r.
Qed.

(** ** What a transition leaves alone *)

Lemma echoes_nil : echoes [].
Proof. by intros K. Qed.

Lemma echoes_app l1 l2 : echoes l1 -> echoes l2 -> echoes (l1 ++ l2).
Proof.
  intros H1 H2 K. unfold published_directions, written.
  rewrite !omap_app. f_equal; [apply H1|apply H2].
Qed.

Lemma extends_refl w : exists delta, trace w = trace w ++ delta /\ echoes delta.
Proof. exists []. split; [by rewrite app_nil_r|apply echoes_nil]. Qed.

Lemma extends_trans w1 w2 w3 :
  (exists delta, trace w2 = trace w1 ++ delta /\ echoes delta) ->
  (exists delta, trace w3 = trace w2 ++ delta /\ echoes delta) ->
  exists delta, trace w3 = trace w1 ++ delta /\ echoes delta.
Proof.
  intros (d1 & E1 & H1) (d2 & E2 & H2). exists (d1 ++ d2). split.
  - by rewrite E2, E1, app_assoc.
  - by apply echoes_app.
Qed.

Lemma touches_only_refl type w : touches_only type w w.
Proof. split; try done. apply extends_refl. Qed.

Lemma touches_only_trans type w1 w2 w3 :
  touches_only type w1 w2 -> touches_only type w2 w3 -> touches_only type w1 w3.
Proof.
  intros H1 H2. split.
  - by rewrite (to_thresholds _ _ _ H2), (to_thresholds _ _ _ H1).
  - by rewrite (to_lastWeight _ _ _ H2), (to_lastWeight _ _ _ H1).
  - by rewrite (to_lastWeightTime _ _ _ H2), (to_lastWeightTime _ _ _ H1).
  - by rewrite (to_selects _ _ _ H2), (to_selects _ _ _ H1).
  - intros K HK. by rewrite (to_others _ _ _ H2 K HK), (to_others _ _ _ H1 K HK).
  - intros K HK.
    by rewrite (to_transitions _ _ _ H2 K HK), (to_transitions _ _ _ H1 K HK).
  - intros H. apply (to_present _ _ _ H2), (to_present _ _ _ H1), H.
  - eapply extends_trans; [apply (to_trace _ _ _ H1)|apply (to_trace _ _ _ H2)].
Qed.

Lemma trigger_accepted_touches type message value env w s n :
  touches_only type w (trigger_accepted type message value env w s n).
Proof.
  split; try done.
  - intros K HK. cbv [trigger_accepted alertStates]; fold (alertStates w).
    by rewrite lookup_insert_ne.
  - intros K HK. rewrite transitions_trigger_accepted.
    destruct (decide (K = type)); [done|apply app_nil_r].
  - intros _. cbv [trigger_accepted alertStates]; fold (alertStates w).
    rewrite lookup_insert_eq. eauto.
  - cbv [trigger_accepted trace]; fold (trace w). eexists. split; [reflexivity|].
    intros K. unfold published_directions, written. rewrite !omap_app.
    replace (omap _ match debounceTimer s with
                    | Some id => [ClearTimeout id]
                    | None => []
                    end) with (@nil Direction) by (by destruct (debounceTimer s)).
    replace (omap _ match debounceTimer s with
                    | Some id => [ClearTimeout id]
                    | None => []
                    end) with (@nil Direction) by (by destruct (debounceTimer s)).
    destruct (insert_rejects env (inserts w)); [reflexivity|].
    cbn [app negb omap list_omap]. rewrite row_direction_trigger_row.
    unfold event_direction, alert_event. cbn [ev_type].
    destruct (decide (type = K)) as [->|HK].
    + rewrite (decide_True (P := K = K)) by done. reflexivity.
    + by rewrite decide_False by congruence.
Qed.

Lemma clear_accepted_touches type message value env w s n :
  touches_only type w (clear_accepted type message value env w s n).
Proof.
  split; try done.
  - intros K HK. cbv [clear_accepted alertStates]; fold (alertStates w).
    by rewrite lookup_insert_ne.
  - intros K HK. rewrite transitions_clear_accepted.
    destruct (decide (K = type)); [done|apply app_nil_r].
  - intros _. cbv [clear_accepted alertStates]; fold (alertStates w).
    rewrite lookup_insert_eq. eauto.
  - cbv [clear_accepted trace]; fold (trace w). eexists. split; [reflexivity|].
    intros K. unfold published_directions, written.
    destruct (insert_rejects env (inserts w)); [reflexivity|].
    cbn [app negb omap list_omap]. rewrite row_direction_clear_row.
    unfold event_direction, alert_event. cbn [ev_type].
    destruct (decide (type = K)) as [->|HK].
    + rewrite (decide_True (P := K = K)) by done. reflexivity.
    + by rewrite decide_False by congruence.
Qed.

Lemma suppressed_touches type w e :
  touches_only type w (with_effect (Logger LDebug e) (with_clock_read w)).
Proof.
  split; try done.
  - intros K HK. apply transitions_suppressed.
  - cbv [with_effect with_clock_read trace]; fold (trace w).
    eexists. split; [reflexivity|]. by intros K.
Qed.

Lemma after_trigger_touches type message value env w s :
  touches_only type w (after_trigger type message value env w s).
Proof.
  unfold after_trigger.
  destruct (lastTriggeredAt s) as [t|]; [|apply trigger_accepted_touches].
  cbv zeta. destruct (_ <? _)%Z; [|apply trigger_accepted_touches].
  apply suppressed_touches.
Qed.

Lemma after_clear_touches type message value env w s :
  touches_only type w (after_clear type message value env w s).
Proof.
  unfold after_clear.
  destruct (isActive s); [|apply touches_only_refl].
  destruct (lastClearedAt s) as [t|]; [|apply clear_accepted_touches].
  cbv zeta. destruct (_ <? _)%Z; [|apply clear_accepted_touches].
  apply suppressed_touches.
Qed.

Lemma after_check_touches type enter leave onEnter onLeave value env w :
  touches_only type w (after_check type enter leave onEnter onLeave value env w).
Proof.
  unfold after_check.
  destruct (alertStates w !! type) as [s|]; [|apply touches_only_refl].
  destruct (enter && negb (isActive s)); [apply after_trigger_touches|].
  destruct (leave && isActive s); [apply after_clear_touches|apply touches_only_refl].
Qed.

Lemma touches_only_wf type w w' :
  touches_only type w w' -> wf w -> wf w'.
Proof.
  intros H Hwf K. destruct (decide (K = type)) as [->|HK].
  - apply (to_present _ _ _ H), Hwf.
  - rewrite (to_others _ _ _ H K HK). apply Hwf.
Qed.

Lemma after_check_wf type enter leave onEnter onLeave value env w :
  wf w -> wf (after_check type enter leave onEnter onLeave value env w).
Proof. apply touches_only_wf with type, after_check_touches. Qed.

Lemma after_weight_test_touches data th onEnter onLeave env w :
  touches_only WEIGHT_DROP w (after_weight_test data th onEnter onLeave env w).
Proof.
  unfold after_weight_test.
  destruct (lastWeight w); [|apply touches_only_refl].
  destruct (lastWeightTime w); [|apply touches_only_refl].
  destruct (drop_evaluated _ _ _); [apply after_check_touches|apply touches_only_refl].
Qed.

Lemma after_honey_touches data th onEnter onLeave env w :
  touches_only HONEY_GAIN_LOW w (after_honey data th onEnter onLeave env w).
Proof.
  unfold after_honey.
  destruct (dailyHoneyGainG data); try apply touches_only_refl.
  apply after_check_touches.
Qed.

(** ** What a check's test does to the state of its type *)

Lemma after_check_transitions K type enter leave onEnter onLeave value env w s :
  alertStates w !! type = Some s ->
  transitions K (trace (after_check type enter leave onEnter onLeave value env w))
  = transitions K (trace w)
    ++ (if decide (K = type)
        then option_list (check_transition enter leave s (clock env (clock_reads w)))
        else []).
Proof.
  intros Hs. unfold after_check, check_transition, after_trigger, after_clear, debounced,
    trigger_suppressed, clear_suppressed.
  rewrite Hs.
  destruct (enter && negb (isActive s)).
  - destruct (lastTriggeredAt s) as [t|]; cbv zeta;
      [destruct (_ <? _)%Z|]; rewrite ?transitions_suppressed, ?transitions_trigger_accepted;
      destruct (decide (K = type)); by rewrite ?app_nil_r.
  - destruct (leave && isActive s) eqn:Hleave;
      [|destruct (decide (K = type)); by rewrite ?app_nil_r].
    apply andb_prop in Hleave as [_ ->].
    destruct (lastClearedAt s) as [t|]; cbv zeta;
      [destruct (_ <? _)%Z|]; rewrite ?transitions_suppressed, ?transitions_clear_accepted;
      destruct (decide (K = type)); by rewrite ?app_nil_r.
Qed.

(** The state of the type after the test: the same when no transition was
    made, and otherwise flipped, stamped with a reading of the clock and
    holding the value. *)
Lemma after_check_state type enter leave onEnter onLeave value env w s :
  alertStates w !! type = Some s ->
  exists s',
    alertStates (after_check type enter leave onEnter onLeave value env w) !! type = Some s'
    /\ isActive s'
       = active_after (check_transition enter leave s (clock env (clock_reads w))) s
    /\ match check_transition enter leave s (clock env (clock_reads w)) with
       | None => s' = s
       | Some TRIGGERED =>
           isActive s = false
           /\ lastValue s' = Some value
           /\ lastClearedAt s' = lastClearedAt s
           /\ exists n, lastTriggeredAt s' = Some (clock env n)
       | Some CLEARED =>
           isActive s = true
           /\ lastValue s' = Some value
           /\ lastTriggeredAt s' = lastTriggeredAt s
           /\ exists n, lastClearedAt s' = Some (clock env n)
       end.
Proof.
  intros Hs. unfold after_check, check_transition, after_trigger, after_clear, debounced,
    trigger_suppressed, clear_suppressed.
  rewrite Hs.
  destruct (enter && negb (isActive s)) eqn:Henter.
  - apply andb_prop in Henter as [_ Hact%negb_true_iff].
    destruct (lastTriggeredAt s) as [t|]; cbv zeta; [destruct (_ <? _)%Z|].
    + exists s. cbv [active_after]. eauto.
    + eexists. split; [apply lookup_insert_eq|]. cbv [active_after isActive lastValue
        lastClearedAt lastTriggeredAt]. eauto 10.
    + eexists. split; [apply lookup_insert_eq|]. cbv [active_after isActive lastValue
        lastClearedAt lastTriggeredAt]. eauto 10.
  - destruct (leave && isActive s) eqn:Hleave; [|exists s; by cbv [active_after]].
    apply andb_prop in Hleave as [_ Hact]. rewrite Hact.
    destruct (lastClearedAt s) as [t|] eqn:Hlc; cbv zeta; [destruct (_ <? _)%Z|].
    + exists s. cbv [active_after]. eauto.
    + eexists. split; [apply lookup_insert_eq|]. cbv [active_after isActive lastValue
        lastClearedAt lastTriggeredAt]. eauto 10.
    + eexists. split; [apply lookup_insert_eq|]. cbv [active_after isActive lastValue
        lastClearedAt lastTriggeredAt]. eauto 10.
Qed.

(** ** The checks run *)

(** The test of a check, run on the reference it was given. *)
Lemma check_run type (enter leave : bool) onEnter onLeave value env w :
  wf w ->
  bind (and_then enter (not_ (state_field (Some type) isActive)))
    (fun enter' : bool =>
       if enter' then triggerAlert type onEnter value
       else
         bind (and_then leave (state_field (Some type) isActive))
           (fun leave' : bool =>
              if leave' then clearAlert type onLeave value else ret tt)) env w
  = (Ret tt, after_check type enter leave onEnter onLeave value env w).
Proof.
  intros Hwf. destruct (Hwf type) as [s Hs].
  unfold after_check, and_then, not_. rewrite Hs.
  destruct enter; cbv [andb].
  - do 2 step. destruct (isActive s) eqn:Hactive; cbv [negb].
    + destruct leave; cbv [andb].
      * step. rewrite Hactive. by apply clearAlert_run.
      * step. reflexivity.
    + by apply triggerAlert_run.
  - step. destruct leave; cbv [andb].
    + step. destruct (isActive s); [by apply clearAlert_run|reflexivity].
    + step. reflexivity.
Qed.

Lemma alertStates_get_run type env w :
  wf w -> alertStates_get type env w = (Ret (Some type), w).
Proof. intros Hwf. unfold alertStates_get. by destruct (Hwf type) as [s ->]. Qed.

Lemma thresholds_field_run {A} (field : Thresholds -> A) env w th :
  thresholds w = Some th -> thresholds_field field env w = (Ret (field th), w).
Proof. intros H. unfold thresholds_field. by rewrite H. Qed.

Lemma after_check_thresholds type enter leave onEnter onLeave value env w :
  thresholds (after_check type enter leave onEnter onLeave value env w) = thresholds w.
Proof. apply (to_thresholds _ _ _ (after_check_touches _ _ _ _ _ _ _ _)). Qed.

Lemma checkTemperatureAlerts_run data env w th :
  wf w -> thresholds w = Some th ->
  exists onEnter onLeave onEnterLow onLeaveLow,
    checkTemperatureAlerts data env w
    = (Ret tt,
       after_check TEMP_LOW
         (Js.lt (temperature data) (tempMin th))
         (Js.gt (temperature data) (tempMin th * (1 + HYSTERESIS_PERCENT))%float)
         onEnterLow onLeaveLow (temperature data) env
         (after_check TEMP_HIGH
            (Js.gt (temperature data) (tempMax th))
            (Js.lt (temperature data) (tempMax th * (1 - HYSTERESIS_PERCENT))%float)
            onEnter onLeave (temperature data) env w)).
Proof.
  intros Hwf Hth. do 4 eexists.
  unfold checkTemperatureAlerts.
  rewrite (bind_run _ _ _ _ _ _ (alertStates_get_run TEMP_HIGH env w Hwf)).
  rewrite (bind_run _ _ _ _ _ _ (alertStates_get_run TEMP_LOW env w Hwf)).
  rewrite (bind_run _ _ _ _ _ _ (thresholds_field_run tempMax env w th Hth)).
  cbv zeta. rewrite bind_assoc.
  erewrite bind_run by (apply check_run, Hwf).
  erewrite bind_run
    by (apply thresholds_field_run; rewrite after_check_thresholds; exact Hth).
  apply check_run, after_check_wf, Hwf.
Qed.

Lemma checkHumidityAlerts_run data env w th :
  wf w -> thresholds w = Some th ->
  exists onEnter onLeave onEnterLow onLeaveLow,
    checkHumidityAlerts data env w
    = (Ret tt,
       after_check HUMIDITY_LOW
         (Js.lt (humidity data) (humidityMin th))
         (Js.gt (humidity data) (humidityMin th * (1 + HYSTERESIS_PERCENT))%float)
         onEnterLow onLeaveLow (humidity data) env
         (after_check HUMIDITY_HIGH
            (Js.gt (humidity data) (humidityMax th))
            (Js.lt (humidity data) (humidityMax th * (1 - HYSTERESIS_PERCENT))%float)
            onEnter onLeave (humidity data) env w)).
Proof.
  intros Hwf Hth. do 4 eexists.
  unfold checkHumidityAlerts.
  rewrite (bind_run _ _ _ _ _ _ (alertStates_get_run HUMIDITY_HIGH env w Hwf)).
  rewrite (bind_run _ _ _ _ _ _ (alertStates_get_run HUMIDITY_LOW env w Hwf)).
  rewrite (bind_run _ _ _ _ _ _ (thresholds_field_run humidityMax env w th Hth)).
  cbv zeta. rewrite bind_assoc.
  erewrite bind_run by (apply check_run, Hwf).
  erewrite bind_run
    by (apply thresholds_field_run; rewrite after_check_thresholds; exact Hth).
  apply check_run, after_check_wf, Hwf.
Qed.

Lemma checkWeightAlerts_run data env w th :
  wf w -> thresholds w = Some th ->
  exists onEnter onLeave,
    checkWeightAlerts data env w
    = (Ret tt,
       with_lastWeightTime (Some (recordedAt data))
         (with_lastWeight (Some (weightKg data))
            (after_weight_test data th onEnter onLeave env w))).
Proof.
  intros Hwf Hth.
  exists (fun rate =>
            [Str "Sudden weight loss detected: "; Fixed3 rate;
             Str " kg/hour (threshold "; Num (maxWeightDropPerHourKg th);
             Str " kg/hour) - possible robbery or swarming"]),
         (fun rate => [Str "Weight drop normalized: "; Fixed3 rate; Str " kg/hour"]).
  unfold checkWeightAlerts, after_weight_test.
  erewrite (bind_run this_lastWeight) by reflexivity.
  erewrite (bind_run this_lastWeightTime) by reflexivity.
  cbv zeta.
  destruct (lastWeight w) as [previousWeight|];
    [|erewrite bind_run by reflexivity; reflexivity].
  destruct (lastWeightTime w) as [previousTime|];
    [|erewrite bind_run by reflexivity; reflexivity].
  fold (timeDiffHours previousTime data). fold (weightDiff previousWeight data).
  fold (dropPerHour previousWeight previousTime data).
  fold (drop_evaluated previousWeight previousTime data).
  destruct (drop_evaluated previousWeight previousTime data);
    [|erewrite bind_run by reflexivity; reflexivity].
  rewrite <- bind_assoc.
  rewrite (bind_run _ _ _ _ _ _ (alertStates_get_run WEIGHT_DROP env w Hwf)).
  rewrite <- bind_assoc.
  rewrite (bind_run _ _ _ _ _ _ (thresholds_field_run maxWeightDropPerHourKg env w th Hth)).
  erewrite bind_run by (apply check_run, Hwf).
  reflexivity.
Qed.

Lemma checkSoundAlerts_run data env w th :
  wf w -> thresholds w = Some th ->
  exists onEnter onLeave,
    checkSoundAlerts data env w
    = (Ret tt,
       after_check SOUND_ANOMALY
         (Js.gt (soundDb data) (soundMax th) || Js.lt (soundDb data) (soundMin th))
         (Js.le (soundDb data) (soundMax th * (1 - HYSTERESIS_PERCENT))%float
          && Js.ge (soundDb data) (soundMin th * (1 + HYSTERESIS_PERCENT))%float)
         onEnter onLeave (soundDb data) env w).
Proof.
  intros Hwf Hth.
  exists [Str "Sound level ";
          Str (if Js.gt (soundDb data) (soundMax th) then "high" else "low"); Str ": ";
          Num (soundDb data); Str " dB (range ";
          Num (soundMin th); Str "-"; Num (soundMax th); Str " dB)"].
  eexists.
  unfold checkSoundAlerts.
  rewrite (bind_run _ _ _ _ _ _ (alertStates_get_run SOUND_ANOMALY env w Hwf)).
  rewrite (bind_run _ _ _ _ _ _ (thresholds_field_run soundMax env w th Hth)).
  rewrite (bind_run _ _ _ _ _ _ (thresholds_field_run soundMin env w th Hth)).
  cbv zeta. apply check_run, Hwf.
Qed.

Lemma checkCo2Alerts_run data env w th :
  wf w -> thresholds w = Some th ->
  exists onEnter onLeave,
    checkCo2Alerts data env w
    = (Ret tt,
       after_check CO2_HIGH
         (Js.gt (co2Ppm data) (co2Max th))
         (Js.lt (co2Ppm data) (co2Max th * (1 - HYSTERESIS_PERCENT))%float)
         onEnter onLeave (co2Ppm data) env w).
Proof.
  intros Hwf Hth. do 2 eexists.
  unfold checkCo2Alerts.
  rewrite (bind_run _ _ _ _ _ _ (alertStates_get_run CO2_HIGH env w Hwf)).
  rewrite (bind_run _ _ _ _ _ _ (thresholds_field_run co2Max env w th Hth)).
  cbv zeta. apply check_run, Hwf.
Qed.

Lemma checkSwarmRiskAlerts_run data env w th :
  wf w -> thresholds w = Some th ->
  exists onEnter onLeave,
    checkSwarmRiskAlerts data env w
    = (Ret tt,
       after_check SWARM_RISK
         (Js.gt (swarmRisk data) (swarmRiskMax th))
         (Js.lt (swarmRisk data) (swarmRiskMax th * (1 - HYSTERESIS_PERCENT))%float)
         onEnter onLeave (swarmRisk data) env w).
Proof.
  intros Hwf Hth. do 2 eexists.
  unfold checkSwarmRiskAlerts.
  rewrite (bind_run _ _ _ _ _ _ (alertStates_get_run SWARM_RISK env w Hwf)).
  rewrite (bind_run _ _ _ _ _ _ (thresholds_field_run swarmRiskMax env w th Hth)).
  cbv zeta. apply check_run, Hwf.
Qed.

Lemma checkBatteryAlerts_run data env w th :
  wf w -> thresholds w = Some th ->
  exists onEnter onLeave,
    checkBatteryAlerts data env w
    = (Ret tt,
       after_check BATTERY_LOW
         (Js.lt (batteryPercent data) (batteryMin th))
         (Js.gt (batteryPercent data) (batteryMin th * (1 + HYSTERESIS_PERCENT))%float)
         onEnter onLeave (batteryPercent data) env w).
Proof.
  intros Hwf Hth. do 2 eexists.
  unfold checkBatteryAlerts.
  rewrite (bind_run _ _ _ _ _ _ (alertStates_get_run BATTERY_LOW env w Hwf)).
  rewrite (bind_run _ _ _ _ _ _ (thresholds_field_run batteryMin env w th Hth)).
  cbv zeta. apply check_run, Hwf.
Qed.

Lemma checkHoneyGainAlerts_run data env w th :
  wf w -> thresholds w = Some th ->
  exists onEnter onLeave,
    checkHoneyGainAlerts data env w
    = (Ret tt, after_honey data th onEnter onLeave env w).
Proof.
  intros Hwf Hth.
  unfold checkHoneyGainAlerts, after_honey.
  destruct (dailyHoneyGainG data) as [| |honeyGain].
  - by exists [], [].
  - by exists [], [].
  - do 2 eexists.
    rewrite (bind_run _ _ _ _ _ _ (alertStates_get_run HONEY_GAIN_LOW env w Hwf)).
    rewrite (bind_run _ _ _ _ _ _ (thresholds_field_run minDailyHoneyGainG env w th Hth)).
    cbv zeta. apply check_run, Hwf.
Qed.

(** ** Steps of a kind *)

Lemma alternating_app a l1 b l2 c :
  alternating a l1 b -> alternating b l2 c -> alternating a (l1 ++ l2) c.
Proof.
  induction 1 as [a|l1 b IH|l1 b IH]; intros H2; [exact H2| |].
  - apply alternating_trigger; auto.
  - apply alternating_clear; auto.
Qed.

Lemma quiet_refl K w : quiet K w w.
Proof. by split. Qed.

Lemma quiet_trans K w1 w2 w3 : quiet K w1 w2 -> quiet K w2 w3 -> quiet K w1 w3.
Proof. intros [H1 H2] [H3 H4]. split; congruence. Qed.

Lemma touches_only_quiet K type w w' :
  K <> type -> touches_only type w w' -> quiet K w w'.
Proof. intros HK H. split; [apply (to_others _ _ _ H)|apply (to_transitions _ _ _ H)]; done. Qed.

Lemma quiet_kind_step K w w' :
  is_Some (alertStates w !! K) -> quiet K w w' -> kind_step K w w'.
Proof.
  intros [s Hs] [H1 H2]. exists s, s, []. rewrite H1, H2, app_nil_r.
  repeat split; auto. apply alternating_nil.
Qed.

Lemma kind_step_trans K w1 w2 w3 :
  kind_step K w1 w2 -> kind_step K w2 w3 -> kind_step K w1 w3.
Proof.
  intros (s1 & s2 & d1 & Hs1 & Hs2 & Ht1 & Ha1 & He1)
         (s2' & s3 & d2 & Hs2' & Hs3 & Ht2 & Ha2 & He2).
  rewrite Hs2 in Hs2'. injection Hs2' as <-.
  exists s1, s3, (d1 ++ d2). repeat split; auto.
  - by rewrite Ht2, Ht1, app_assoc.
  - eapply alternating_app; eauto.
  - intros [-> ->]%app_eq_nil. rewrite He2, He1; done.
Qed.

Lemma after_check_kind_step K type enter leave onEnter onLeave value env w :
  wf w -> kind_step K w (after_check type enter leave onEnter onLeave value env w).
Proof.
  intros Hwf. destruct (decide (K = type)) as [->|HK].
  - destruct (Hwf type) as [s Hs].
    destruct (after_check_state type enter leave onEnter onLeave value env w s Hs)
      as (s' & Hs' & Hact & Hcase).
    exists s, s', (option_list (check_transition enter leave s (clock env (clock_reads w)))).
    rewrite (after_check_transitions type type enter leave onEnter onLeave value env w s Hs).
    rewrite decide_True by done.
    repeat split; auto.
    + rewrite Hact.
      destruct (check_transition _ _ _ _) as [[]|]; cbn.
      * destruct Hcase as [-> _]. apply alternating_trigger, alternating_nil.
      * destruct Hcase as [-> _]. apply alternating_clear, alternating_nil.
      * apply alternating_nil.
    + destruct (check_transition _ _ _ _) as [[]|]; cbn; done.
  - apply quiet_kind_step; [apply Hwf|].
    apply touches_only_quiet with type; [done|apply after_check_touches].
Qed.

Lemma advance_refl w : wf w -> advance w w.
Proof.
  intros Hwf. split; auto.
  - intros K. apply quiet_kind_step, quiet_refl. apply Hwf.
  - apply extends_refl.
Qed.

Lemma advance_trans w1 w2 w3 : advance w1 w2 -> advance w2 w3 -> advance w1 w3.
Proof.
  intros H1 H2. split.
  - apply (adv_wf _ _ H2).
  - by rewrite (adv_thresholds _ _ H2), (adv_thresholds _ _ H1).
  - by rewrite (adv_selects _ _ H2), (adv_selects _ _ H1).
  - intros K. eapply kind_step_trans; [apply (adv_steps _ _ H1)|apply (adv_steps _ _ H2)].
  - eapply extends_trans; [apply (adv_trace _ _ H1)|apply (adv_trace _ _ H2)].
Qed.

Lemma after_check_advance type enter leave onEnter onLeave value env w :
  wf w -> advance w (after_check type enter leave onEnter onLeave value env w).
Proof.
  intros Hwf.
  pose proof (after_check_touches type enter leave onEnter onLeave value env w) as H.
  split.
  - by apply after_check_wf.
  - apply (to_thresholds _ _ _ H).
  - apply (to_selects _ _ _ H).
  - intros K. by apply after_check_kind_step.
  - apply (to_trace _ _ _ H).
Qed.

Lemma after_weight_test_advance data th onEnter onLeave env w :
  wf w -> advance w (after_weight_test data th onEnter onLeave env w).
Proof.
  intros Hwf. unfold after_weight_test.
  destruct (lastWeight w); [|by apply advance_refl].
  destruct (lastWeightTime w); [|by apply advance_refl].
  destruct (drop_evaluated _ _ _); [by apply after_check_advance|by apply advance_refl].
Qed.

Lemma after_honey_advance data th onEnter onLeave env w :
  wf w -> advance w (after_honey data th onEnter onLeave env w).
Proof.
  intros Hwf. unfold after_honey.
  destruct (dailyHoneyGainG data); try (by apply advance_refl).
  by apply after_check_advance.
Qed.

(** Updating the weight tracker is no step of any kind. *)
Lemma tracker_advance x t w :
  wf w -> advance w (with_lastWeightTime t (with_lastWeight x w)).
Proof.
  intros Hwf. split; auto.
  - intros K. apply quiet_kind_step; [apply Hwf|by split].
  - apply (extends_refl w).
Qed.

Lemma promise_all_cons p ps env w w' :
  p env w = (Ret tt, w') -> promise_all (p :: ps) env w = promise_all ps env w'.
Proof. intros H. cbn [promise_all]. by rewrite H. Qed.

Lemma after_check_lastWeight type enter leave onEnter onLeave value env w :
  lastWeight (after_check type enter leave onEnter onLeave value env w) = lastWeight w.
Proof. apply (to_lastWeight _ _ _ (after_check_touches _ _ _ _ _ _ _ _)). Qed.

Lemma after_check_lastWeightTime type enter leave onEnter onLeave value env w :
  lastWeightTime (after_check type enter leave onEnter onLeave value env w)
  = lastWeightTime w.
Proof. apply (to_lastWeightTime _ _ _ (after_check_touches _ _ _ _ _ _ _ _)). Qed.

Lemma after_check_quiet K type enter leave onEnter onLeave value env w :
  K <> type -> quiet K w (after_check type enter leave onEnter onLeave value env w).
Proof. intros HK. apply touches_only_quiet with type; [done|apply after_check_touches]. Qed.

(** The eight checks of the handler, one after the other. *)
Lemma checks_run data env w th :
  wf w -> thresholds w = Some th ->
  exists w',
    promise_all
      [checkTemperatureAlerts data; checkHumidityAlerts data; checkWeightAlerts data;
       checkSoundAlerts data; checkCo2Alerts data; checkSwarmRiskAlerts data;
       checkBatteryAlerts data; checkHoneyGainAlerts data] env w
    = (Ret tt, w')
    /\ checked data w w'.
Proof.
  intros Hwf Hth.
  (* temperature *)
  destruct (checkTemperatureAlerts_run data env w th Hwf Hth) as (? & ? & ? & ? & E1).
  match type of E1 with _ = (_, after_check _ _ _ _ _ _ _ ?u) => set (w1 := u) in * end.
  match type of E1 with _ = (_, ?u) => set (w2 := u) in * end.
  assert (A1 : advance w w1) by (by apply after_check_advance).
  assert (A2 : advance w1 w2) by (apply after_check_advance, (adv_wf _ _ A1)).
  assert (Q1 : quiet HONEY_GAIN_LOW w w1) by (by apply after_check_quiet).
  assert (Q2 : quiet HONEY_GAIN_LOW w1 w2) by (by apply after_check_quiet).
  pose proof (advance_trans _ _ _ A1 A2) as A02.
  pose proof (quiet_trans _ _ _ _ Q1 Q2) as Q02.
  assert (Hth2 : thresholds w2 = Some th) by (by rewrite (adv_thresholds _ _ A02)).
  (* humidity *)
  destruct (checkHumidityAlerts_run data env w2 th (adv_wf _ _ A02) Hth2)
    as (? & ? & ? & ? & E2).
  match type of E2 with _ = (_, after_check _ _ _ _ _ _ _ ?u) => set (w3 := u) in * end.
  match type of E2 with _ = (_, ?u) => set (w4 := u) in * end.
  assert (A3 : advance w2 w3) by (apply after_check_advance, (adv_wf _ _ A02)).
  assert (A4 : advance w3 w4) by (apply after_check_advance, (adv_wf _ _ A3)).
  assert (Q3 : quiet HONEY_GAIN_LOW w2 w3) by (by apply after_check_quiet).
  assert (Q4 : quiet HONEY_GAIN_LOW w3 w4) by (by apply after_check_quiet).
  pose proof (advance_trans _ _ _ A02 (advance_trans _ _ _ A3 A4)) as A04.
  pose proof (quiet_trans _ _ _ _ Q02 (quiet_trans _ _ _ _ Q3 Q4)) as Q04.
  assert (Hth4 : thresholds w4 = Some th) by (by rewrite (adv_thresholds _ _ A04)).
  (* weight *)
  destruct (checkWeightAlerts_run data env w4 th (adv_wf _ _ A04) Hth4) as (? & ? & E3).
  match type of E3 with
    _ = (_, with_lastWeightTime _ (with_lastWeight _ ?u)) => set (w5 := u) in *
  end.
  match type of E3 with _ = (_, ?u) => set (w6 := u) in * end.
  assert (A5 : advance w4 w5) by (apply after_weight_test_advance, (adv_wf _ _ A04)).
  assert (A6 : advance w5 w6) by (apply tracker_advance, (adv_wf _ _ A5)).
  assert (Q5 : quiet HONEY_GAIN_LOW w4 w5)
    by (apply touches_only_quiet with WEIGHT_DROP; [done|apply after_weight_test_touches]).
  assert (Q6 : quiet HONEY_GAIN_LOW w5 w6) by (by split).
  pose proof (advance_trans _ _ _ A04 (advance_trans _ _ _ A5 A6)) as A06.
  pose proof (quiet_trans _ _ _ _ Q04 (quiet_trans _ _ _ _ Q5 Q6)) as Q06.
  assert (Hth6 : thresholds w6 = Some th) by (by rewrite (adv_thresholds _ _ A06)).
  (* sound *)
  destruct (checkSoundAlerts_run data env w6 th (adv_wf _ _ A06) Hth6) as (? & ? & E4).
  match type of E4 with _ = (_, ?u) => set (w7 := u) in * end.
  assert (A7 : advance w6 w7) by (apply after_check_advance, (adv_wf _ _ A06)).
  assert (Q7 : quiet HONEY_GAIN_LOW w6 w7) by (by apply after_check_quiet).
  pose proof (advance_trans _ _ _ A06 A7) as A07.
  assert (Hth7 : thresholds w7 = Some th) by (by rewrite (adv_thresholds _ _ A07)).
  (* CO2 *)
  destruct (checkCo2Alerts_run data env w7 th (adv_wf _ _ A07) Hth7) as (? & ? & E5).
  match type of E5 with _ = (_, ?u) => set (w8 := u) in * end.
  assert (A8 : advance w7 w8) by (apply after_check_advance, (adv_wf _ _ A07)).
  assert (Q8 : quiet HONEY_GAIN_LOW w7 w8) by (by apply after_check_quiet).
  pose proof (advance_trans _ _ _ A07 A8) as A08.
  assert (Hth8 : thresholds w8 = Some th) by (by rewrite (adv_thresholds _ _ A08)).
  (* swarm risk *)
  destruct (checkSwarmRiskAlerts_run data env w8 th (adv_wf _ _ A08) Hth8) as (? & ? & E6).
  match type of E6 with _ = (_, ?u) => set (w9 := u) in * end.
  assert (A9 : advance w8 w9) by (apply after_check_advance, (adv_wf _ _ A08)).
  assert (Q9 : quiet HONEY_GAIN_LOW w8 w9) by (by apply after_check_quiet).
  pose proof (advance_trans _ _ _ A08 A9) as A09.
  assert (Hth9 : thresholds w9 = Some th) by (by rewrite (adv_thresholds _ _ A09)).
  (* battery *)
  destruct (checkBatteryAlerts_run data env w9 th (adv_wf _ _ A09) Hth9) as (? & ? & E7).
  match type of E7 with _ = (_, ?u) => set (w10 := u) in * end.
  assert (A10 : advance w9 w10) by (apply after_check_advance, (adv_wf _ _ A09)).
  assert (Q10 : quiet HONEY_GAIN_LOW w9 w10) by (by apply after_check_quiet).
  pose proof (advance_trans _ _ _ A09 A10) as A010.
  assert (Hth10 : thresholds w10 = Some th) by (by rewrite (adv_thresholds _ _ A010)).
  (* honey gain *)
  destruct (checkHoneyGainAlerts_run data env w10 th (adv_wf _ _ A010) Hth10)
    as (? & ? & E8).
  match type of E8 with _ = (_, ?u) => set (w11 := u) in * end.
  assert (A11 : advance w10 w11) by (apply after_honey_advance, (adv_wf _ _ A010)).
  exists w11. split.
  - rewrite (promise_all_cons _ _ _ _ _ E1), (promise_all_cons _ _ _ _ _ E2),
      (promise_all_cons _ _ _ _ _ E3), (promise_all_cons _ _ _ _ _ E4),
      (promise_all_cons _ _ _ _ _ E5), (promise_all_cons _ _ _ _ _ E6),
      (promise_all_cons _ _ _ _ _ E7), (promise_all_cons _ _ _ _ _ E8).
    reflexivity.
  - split.
    + apply (advance_trans _ _ _ A010 A11).
    + subst w11. rewrite (to_lastWeight _ _ _ (after_honey_touches _ _ _ _ _ _)).
      subst w10 w9 w8 w7. by rewrite !after_check_lastWeight.
    + subst w11. rewrite (to_lastWeightTime _ _ _ (after_honey_touches _ _ _ _ _ _)).
      subst w10 w9 w8 w7. by rewrite !after_check_lastWeightTime.
    + intros Hnone.
      assert (Q11 : quiet HONEY_GAIN_LOW w10 w11).
      { subst w11. unfold after_honey.
        destruct (dailyHoneyGainG data) as [| |gain]; try apply quiet_refl.
        by destruct (Hnone gain). }
      repeat (eapply quiet_trans; [eassumption|]). apply quiet_refl.
Qed.

(** ** The handler runs *)

Lemma loadThresholds_run env w :
  loadThresholds env w = (Ret tt, after_load env w).
Proof.
  unfold loadThresholds, after_load, try_catch, bind, db_select_thresholds.
  destruct (select_result env (selects w)); reflexivity.
Qed.

Lemma after_load_quiet K env w : quiet K w (after_load env w).
Proof.
  unfold after_load.
  destruct (select_result env (selects w)); split; try done;
    cbv [with_effect with_thresholds with_select trace]; fold (trace w);
    by rewrite !transitions_app, !app_nil_r.
Qed.

Lemma after_load_wf env w : wf w -> wf (after_load env w).
Proof.
  intros Hwf K. destruct (after_load_quiet K env w) as [-> _]. apply Hwf.
Qed.

Lemma after_load_thresholds env w :
  thresholds (after_load env w)
  = match select_result env (selects w) with
    | SelectRow row => Some row
    | _ => thresholds w
    end.
Proof. unfold after_load. by destruct (select_result env (selects w)). Qed.

Lemma after_load_extends env w :
  exists delta, trace (after_load env w) = trace w ++ delta /\ echoes delta.
Proof.
  unfold after_load.
  destruct (select_result env (selects w));
    cbv [with_effect with_thresholds with_select trace]; fold (trace w);
    rewrite <- app_assoc; eexists; (split; [reflexivity|by intros K]).
Qed.

Lemma logger_extends level line w :
  exists delta, trace (with_effect (Logger level line) w) = trace w ++ delta /\ echoes delta.
Proof. eexists. split; [reflexivity|by intros K]. Qed.

(** With thresholds cached, the handler runs the eight checks. *)
Lemma handleTelemetryInsert_cached data env w th :
  wf w -> thresholds w = Some th ->
  exists w', handleTelemetryInsert data env w = (Ret tt, w') /\ checked data w w'.
Proof.
  intros Hwf Hth.
  destruct (checks_run data env w th Hwf Hth) as (w' & E & H).
  exists w'. split; [|exact H].
  unfold handleTelemetryInsert.
  erewrite (bind_run this_thresholds) by reflexivity. rewrite Hth.
  erewrite bind_run by reflexivity. exact E.
Qed.

(** With none cached, it loads them once, and runs the checks if it got
    a row. *)
Lemma handleTelemetryInsert_loaded data env w row :
  wf w -> thresholds w = None -> select_result env (selects w) = SelectRow row ->
  exists w',
    handleTelemetryInsert data env w = (Ret tt, w')
    /\ checked data (after_load env w) w'.
Proof.
  intros Hwf Hth Hrow.
  assert (Hth' : thresholds (after_load env w) = Some row)
    by (by rewrite after_load_thresholds, Hrow).
  destruct (checks_run data env (after_load env w) row (after_load_wf env w Hwf) Hth')
    as (w' & E & H).
  exists w'. split; [|exact H].
  unfold handleTelemetryInsert.
  erewrite (bind_run this_thresholds) by reflexivity. rewrite Hth.
  rewrite <- bind_assoc. erewrite (bind_run loadThresholds) by apply loadThresholds_run.
  rewrite <- bind_assoc. erewrite (bind_run this_thresholds) by reflexivity.
  rewrite Hth'. erewrite bind_run by reflexivity. exact E.
Qed.

(** With none cached and none to load, it warns and returns. *)
Lemma handleTelemetryInsert_unavailable data env w :
  thresholds w = None ->
  (forall row, select_result env (selects w) <> SelectRow row) ->
  handleTelemetryInsert data env w
  = (Ret tt,
     with_effect (Logger LWarn [Str "Cannot process alerts: thresholds not available"])
       (after_load env w)).
Proof.
  intros Hth Hnone.
  assert (Hth' : thresholds (after_load env w) = None).
  { rewrite after_load_thresholds.
    destruct (select_result env (selects w)) as [row| |]; try done.
    by destruct (Hnone row). }
  unfold handleTelemetryInsert.
  erewrite (bind_run this_thresholds) by reflexivity. rewrite Hth.
  rewrite <- bind_assoc. erewrite (bind_run loadThresholds) by apply loadThresholds_run.
  rewrite <- bind_assoc. erewrite (bind_run this_thresholds) by reflexivity.
  rewrite Hth'.
  rewrite <- bind_assoc. erewrite (bind_run (logger _ _)) by reflexivity.
  erewrite bind_run by reflexivity. reflexivity.
Qed.

Lemma handleTelemetryInsert_unavailable_quiet K data env w :
  thresholds w = None ->
  (forall row, select_result env (selects w) <> SelectRow row) ->
  quiet K w (snd (handleTelemetryInsert data env w)).
Proof.
  intros Hth Hnone. rewrite handleTelemetryInsert_unavailable by done. cbn [snd].
  eapply quiet_trans; [apply after_load_quiet|].
  split; [done|]. cbv [with_effect trace]. fold (trace (after_load env w)).
  by rewrite transitions_app, app_nil_r.
Qed.

(** Whatever the outside does, the handler returns, keeps the engine well
    formed, makes every kind an alternating step, and publishes the events
    of the transitions it wrote. *)
Lemma handleTelemetryInsert_steps data env w :
  wf w ->
  exists w',
    handleTelemetryInsert data env w = (Ret tt, w')
    /\ wf w'
    /\ (forall K, kind_step K w w')
    /\ exists delta, trace w' = trace w ++ delta /\ echoes delta.
Proof.
  intros Hwf.
  destruct (thresholds w) as [th|] eqn:Hth.
  - destruct (handleTelemetryInsert_cached data env w th Hwf Hth) as (w' & E & H).
    exists w'. split; [exact E|]. destruct (ck_advance _ _ _ H). auto.
  - destruct (select_result env (selects w)) as [row| |] eqn:Hsel.
    + destruct (handleTelemetryInsert_loaded data env w row Hwf Hth Hsel) as (w' & E & H).
      exists w'. split; [exact E|]. destruct (ck_advance _ _ _ H). split; [done|]. split.
      * intros K. eapply kind_step_trans; [|apply adv_steps0].
        apply quiet_kind_step; [apply Hwf|apply after_load_quiet].
      * eapply extends_trans; [apply after_load_extends|apply adv_trace0].
    + eexists. split; [apply handleTelemetryInsert_unavailable; [done|congruence]|].
      pose proof (fun K => handleTelemetryInsert_unavailable_quiet K data env w Hth
                             ltac:(congruence)) as Hq.
      rewrite handleTelemetryInsert_unavailable in Hq by (done || congruence).
      cbn [snd] in Hq. split; [|split].
      * intros K. destruct (Hq K) as [E _]. rewrite E. apply Hwf.
      * intros K. apply quiet_kind_step; [apply Hwf|apply Hq].
      * eapply extends_trans; [apply after_load_extends|apply logger_extends].
    + eexists. split; [apply handleTelemetryInsert_unavailable; [done|congruence]|].
      pose proof (fun K => handleTelemetryInsert_unavailable_quiet K data env w Hth
                             ltac:(congruence)) as Hq.
      rewrite handleTelemetryInsert_unavailable in Hq by (done || congruence).
      cbn [snd] in Hq. split; [|split].
      * intros K. destruct (Hq K) as [E _]. rewrite E. apply Hwf.
      * intros K. apply quiet_kind_step; [apply Hwf|apply Hq].
      * eapply extends_trans; [apply after_load_extends|apply logger_extends].
Qed.

Lemma constructor_wf : wf constructor.
Proof. intros []; vm_compute; eauto. Qed.

(** A run of readings keeps the engine well formed, makes every kind an
    alternating step, and publishes the events of the transitions it
    wrote. *)
Lemma run_steps readings env w :
  wf w ->
  wf (run readings env w)
  /\ (forall K, kind_step K w (run readings env w))
  /\ exists delta, trace (run readings env w) = trace w ++ delta /\ echoes delta.
Proof.
  revert w. induction readings as [|r rest IH]; intros w Hwf; cbn [run].
  - split; [done|]. split; [|apply extends_refl].
    intros K. apply quiet_kind_step, quiet_refl. apply Hwf.
  - destruct (handleTelemetryInsert_steps r env w Hwf) as (w' & E & Hwf' & Hsteps & Hext).
    rewrite E. cbn [snd].
    destruct (IH w' Hwf') as (Hwf'' & Hsteps' & Hext'). split; [done|]. split.
    + intros K. eapply kind_step_trans; [apply Hsteps|apply Hsteps'].
    + eapply extends_trans; [apply Hext|apply Hext'].
Qed.

(** ** Accepted and suppressed transitions *)

Lemma after_trigger_accepted type message value env w s :
  debounced (lastTriggeredAt s) (clock env (clock_reads w)) = false ->
  after_trigger type message value env w s
  = trigger_accepted type message value env w s (stamp_read (lastTriggeredAt s) w).
Proof.
  unfold after_trigger, debounced, stamp_read.
  destruct (lastTriggeredAt s); [|done]. cbv zeta. by intros ->.
Qed.

Lemma after_trigger_suppressed type message value env w s t :
  lastTriggeredAt s = Some t ->
  (clock env (clock_reads w) - t < DEBOUNCE_MS)%Z ->
  after_trigger type message value env w s
  = trigger_suppressed type w (clock env (clock_reads w) - t).
Proof.
  intros Hlast Hlt%Z.ltb_lt. unfold after_trigger. rewrite Hlast. cbv zeta.
  by rewrite Hlt.
Qed.

Lemma after_clear_accepted type message value env w s :
  isActive s = true ->
  debounced (lastClearedAt s) (clock env (clock_reads w)) = false ->
  after_clear type message value env w s
  = clear_accepted type message value env w s (stamp_read (lastClearedAt s) w).
Proof.
  unfold after_clear, debounced, stamp_read. intros ->.
  destruct (lastClearedAt s); [|done]. cbv zeta. by intros ->.
Qed.

Lemma after_clear_suppressed type message value env w s t :
  isActive s = true ->
  lastClearedAt s = Some t ->
  (clock env (clock_reads w) - t < DEBOUNCE_MS)%Z ->
  after_clear type message value env w s
  = clear_suppressed type w (clock env (clock_reads w) - t).
Proof.
  intros Hact Hlast Hlt%Z.ltb_lt. unfold after_clear. rewrite Hact, Hlast. cbv zeta.
  by rewrite Hlt.
Qed.

Lemma published_app l1 l2 : published (l1 ++ l2) = published l1 ++ published l2.
Proof. apply omap_app. Qed.

Lemma event_logs_app l1 l2 : event_logs (l1 ++ l2) = event_logs l1 ++ event_logs l2.
Proof. apply omap_app. Qed.

Lemma logged_app level l1 l2 :
  logged level (l1 ++ l2) = logged level l1 ++ logged level l2.
Proof. apply omap_app. Qed.

Lemma published_trigger_accepted type message value env w s n :
  published (trace (trigger_accepted type message value env w s n))
  = published (trace w)
    ++ (if insert_rejects env (inserts w) then []
        else [("alert.triggered", alert_event type message value (clock env (S n)))]).
Proof.
  unfold trigger_accepted; cbv [trace]; fold (trace w).
  rewrite !published_app. f_equal.
  destruct (debounceTimer s), (insert_rejects env (inserts w)); reflexivity.
Qed.

Lemma published_clear_accepted type message value env w s n :
  published (trace (clear_accepted type message value env w s n))
  = published (trace w)
    ++ (if insert_rejects env (inserts w) then []
        else [("alert.cleared", alert_event type message value (clock env (S n)))]).
Proof.
  unfold clear_accepted; cbv [trace]; fold (trace w).
  rewrite !published_app. f_equal.
  destruct (insert_rejects env (inserts w)); reflexivity.
Qed.

Lemma event_logs_trigger_accepted type message value env w s n :
  event_logs (trace (trigger_accepted type message value env w s n))
  = event_logs (trace w)
    ++ (if insert_rejects env (inserts w) then [] else [trigger_row type message]).
Proof.
  unfold trigger_accepted; cbv [trace]; fold (trace w).
  rewrite !event_logs_app. f_equal.
  destruct (debounceTimer s), (insert_rejects env (inserts w)); reflexivity.
Qed.

Lemma event_logs_clear_accepted type message value env w s n :
  event_logs (trace (clear_accepted type message value env w s n))
  = event_logs (trace w)
    ++ (if insert_rejects env (inserts w) then [] else [clear_row type message]).
Proof.
  unfold clear_accepted; cbv [trace]; fold (trace w).
  rewrite !event_logs_app. f_equal.
  destruct (insert_rejects env (inserts w)); reflexivity.
Qed.

Lemma logged_error_trigger_accepted type message value env w s n :
  logged LError (trace (trigger_accepted type message value env w s n))
  = logged LError (trace w)
    ++ (if insert_rejects env (inserts w)
        then [[Str "Failed to log alert "; Ty type; Thrown Js.DbError]]
        else []).
Proof.
  unfold trigger_accepted; cbv [trace]; fold (trace w).
  rewrite !logged_app. f_equal.
  destruct (debounceTimer s), (insert_rejects env (inserts w)); reflexivity.
Qed.

Lemma logged_error_clear_accepted type message value env w s n :
  logged LError (trace (clear_accepted type message value env w s n))
  = logged LError (trace w)
    ++ (if insert_rejects env (inserts w)
        then [[Str "Failed to log alert clear "; Ty type; Thrown Js.DbError]]
        else []).
Proof.
  unfold clear_accepted; cbv [trace]; fold (trace w).
  rewrite !logged_app. f_equal.
  destruct (insert_rejects env (inserts w)); reflexivity.
Qed.

Lemma ready_wf : wf ready.
Proof. intros []; vm_compute; eauto. Qed.

(* ------------------------------------------------------------------ *)
(** * The debounce window *)

Example debounce_window_is_five_minutes : ALERT_DEBOUNCE_MS = 300000%Z.
Proof. reflexivity. Qed.

(** C5.  When [triggerAlert] is called for a type whose [lastTriggeredAt]
    is set and less than five minutes before the clock's reading, the call
    returns having changed no alert state (so [isActive], [lastTriggeredAt],
    [lastClearedAt] and [lastValue] of the type are as they were), having
    attempted no audit-log write and having published no event: all it
    adds to the trace is one debug line of the logger. *)
Theorem C5_debounced_trigger_has_no_effect env w type message value s t :
  alertStates w !! type = Some s ->
  lastTriggeredAt s = Some t ->
  (clock env (clock_reads w) - t < ALERT_DEBOUNCE_MS)%Z ->
  let r := triggerAlert type message value env w in
  fst r = Ret tt
  /\ alertStates (snd r) = alertStates w
  /\ inserts (snd r) = inserts w
  /\ event_logs (trace (snd r)) = event_logs (trace w)
  /\ published (trace (snd r)) = published (trace w)
  /\ (forall K, transitions K (trace (snd r)) = transitions K (trace w))
  /\ exists line, trace (snd r) = trace w ++ [Logger LDebug line].
Proof.
  intros Hs Hlast Hrecent. cbv zeta.
  rewrite (triggerAlert_run env w type message value s Hs).
  rewrite (after_trigger_suppressed type message value env w s t Hlast Hrecent).
  cbn [fst snd]. unfold trigger_suppressed.
  repeat split.
  - cbv [with_effect with_clock_read trace]. fold (trace w).
    by rewrite event_logs_app, app_nil_r.
  - cbv [with_effect with_clock_read trace]. fold (trace w).
    by rewrite published_app, app_nil_r.
  - intros K. apply transitions_suppressed.
  - eexists. reflexivity.
Qed.

Lemma C5_witness :
  let s := {| isActive := false; lastTriggeredAt := Some 0%Z; lastClearedAt := None;
              debounceTimer := None; lastValue := Some 40%float |} in
  let w := ready_with TEMP_HIGH s in
  alertStates w !! TEMP_HIGH = Some s
  /\ (clock sample_env (clock_reads w) - 0 < ALERT_DEBOUNCE_MS)%Z
  /\ alertStates (snd (triggerAlert TEMP_HIGH [] 41 sample_env w)) = alertStates w
  /\ published (trace (snd (triggerAlert TEMP_HIGH [] 41 sample_env w))) = [].
Proof.
  cbv zeta.
  assert (Hs : alertStates
                 (ready_with TEMP_HIGH
                    {| isActive := false; lastTriggeredAt := Some 0%Z;
                       lastClearedAt := None; debounceTimer := None;
                       lastValue := Some 40%float |}) !! TEMP_HIGH
               = Some {| isActive := false; lastTriggeredAt := Some 0%Z;
                         lastClearedAt := None; debounceTimer := None;
                         lastValue := Some 40%float |})
    by apply lookup_insert_eq.
  assert (Hrecent : (clock sample_env
                       (clock_reads
                          (ready_with TEMP_HIGH
                             {| isActive := false; lastTriggeredAt := Some 0%Z;
                                lastClearedAt := None; debounceTimer := None;
                                lastValue := Some 40%float |})) - 0
                     < ALERT_DEBOUNCE_MS)%Z)
    by reflexivity.
  destruct (C5_debounced_trigger_has_no_effect sample_env _ TEMP_HIGH [] 41%float _ 0%Z
              Hs eq_refl Hrecent) as (_ & Hstates & _ & _ & Hpublished & _).
  exact (conj Hs (conj Hrecent (conj Hstates Hpublished))).
Defined.

Lemma debounced_false last now :
  debounced last now = false
  <-> forall t, last = Some t -> (ALERT_DEBOUNCE_MS <= now - t)%Z.
Proof.
  unfold debounced, DEBOUNCE_MS. destruct last as [t|].
  - rewrite Z.ltb_ge. split; [by intros H ? [= <-]|auto].
  - split; [by intros|done].
Qed.

(** The transitions of [type] after [triggerAlert], and after [clearAlert]
    on an active alert. *)
Lemma transitions_after_trigger type message value env w s :
  transitions type (trace (after_trigger type message value env w s))
  = transitions type (trace w)
    ++ (if debounced (lastTriggeredAt s) (clock env (clock_reads w))
        then [] else [TRIGGERED]).
Proof.
  unfold after_trigger, debounced, trigger_suppressed.
  destruct (lastTriggeredAt s) as [t|]; cbv zeta; [destruct (_ <? _)%Z|];
    rewrite ?transitions_suppressed, ?transitions_trigger_accepted, ?decide_True by done;
    by rewrite ?app_nil_r.
Qed.

Lemma transitions_after_clear type message value env w s :
  isActive s = true ->
  transitions type (trace (after_clear type message value env w s))
  = transitions type (trace w)
    ++ (if debounced (lastClearedAt s) (clock env (clock_reads w))
        then [] else [CLEARED]).
Proof.
  intros Hact. unfold after_clear, debounced, clear_suppressed. rewrite Hact.
  destruct (lastClearedAt s) as [t|]; cbv zeta; [destruct (_ <? _)%Z|];
    rewrite ?transitions_suppressed, ?transitions_clear_accepted, ?decide_True by done;
    by rewrite ?app_nil_r.
Qed.

Lemma app_singleton_iff {A} (l : list A) (x : A) (b : bool) :
  l ++ (if b then [] else [x]) = l ++ [x] <-> b = false.
Proof.
  destruct b; split; try done.
  intros H. apply app_inv_head in H. discriminate.
Qed.

(** C2, as the code has it.  A new transition of a kind is accepted only
    if at least the debounce window (300,000 ms) has elapsed since the
    previous transition of that kind in the same direction: [triggerAlert]
    adds a TRIGGERED transition exactly when [lastTriggeredAt] is unset or
    at least the window before the clock's reading, and then stamps
    [lastTriggeredAt] and leaves [lastClearedAt]; [clearAlert], on an active
    alert, adds a CLEARED transition exactly when [lastClearedAt] is unset
    or at least the window before the clock's reading, and then stamps
    [lastClearedAt] and leaves [lastTriggeredAt].  The time of the last
    transition in the other direction plays no part. *)
Theorem C2_debounce_gates_same_direction env w type message value s :
  alertStates w !! type = Some s ->
  let now := clock env (clock_reads w) in
  let r := triggerAlert type message value env w in
  let r' := clearAlert type message value env w in
  (transitions type (trace (snd r)) = transitions type (trace w) ++ [TRIGGERED]
   <-> forall t, lastTriggeredAt s = Some t -> (ALERT_DEBOUNCE_MS <= now - t)%Z)
  /\ ((exists t, lastTriggeredAt s = Some t /\ (now - t < ALERT_DEBOUNCE_MS)%Z)
      -> transitions type (trace (snd r)) = transitions type (trace w))
  /\ ((forall t, lastTriggeredAt s = Some t -> (ALERT_DEBOUNCE_MS <= now - t)%Z)
      -> exists s',
           alertStates (snd r) !! type = Some s'
           /\ lastTriggeredAt s' = Some (clock env (stamp_read (lastTriggeredAt s) w))
           /\ lastClearedAt s' = lastClearedAt s)
  /\ (isActive s = true ->
      (transitions type (trace (snd r')) = transitions type (trace w) ++ [CLEARED]
       <-> forall t, lastClearedAt s = Some t -> (ALERT_DEBOUNCE_MS <= now - t)%Z)
      /\ ((exists t, lastClearedAt s = Some t /\ (now - t < ALERT_DEBOUNCE_MS)%Z)
          -> transitions type (trace (snd r')) = transitions type (trace w))
      /\ ((forall t, lastClearedAt s = Some t -> (ALERT_DEBOUNCE_MS <= now - t)%Z)
          -> exists s',
               alertStates (snd r') !! type = Some s'
               /\ lastClearedAt s' = Some (clock env (stamp_read (lastClearedAt s) w))
               /\ lastTriggeredAt s' = lastTriggeredAt s)).
Proof.
  intros Hs. cbv zeta.
  rewrite (triggerAlert_run env w type message value s Hs).
  rewrite (clearAlert_run env w type message value s Hs). cbn [snd].
  split; [|split; [|split]].
  - rewrite transitions_after_trigger, app_singleton_iff. apply debounced_false.
  - intros (t & Hlast & Hlt). rewrite transitions_after_trigger.
    unfold debounced. rewrite Hlast. apply Z.ltb_lt in Hlt. unfold DEBOUNCE_MS.
    by rewrite Hlt, app_nil_r.
  - intros Hok%debounced_false.
    rewrite (after_trigger_accepted _ _ _ _ _ _ Hok).
    eexists. split; [apply lookup_insert_eq|]. by split.
  - intros Hact. split; [|split].
    + rewrite (transitions_after_clear _ _ _ _ _ _ Hact), app_singleton_iff.
      apply debounced_false.
    + intros (t & Hlast & Hlt). rewrite (transitions_after_clear _ _ _ _ _ _ Hact).
      unfold debounced. rewrite Hlast. apply Z.ltb_lt in Hlt. unfold DEBOUNCE_MS.
      by rewrite Hlt, app_nil_r.
    + intros Hok%debounced_false.
      rewrite (after_clear_accepted _ _ _ _ _ _ Hact Hok).
      eexists. split; [apply lookup_insert_eq|]. by split.
Qed.

(** An alert triggered at time 0 and never cleared: a clear one second
    later is accepted, whatever the time of the trigger. *)
Lemma C2_witness :
  let s := {| isActive := true; lastTriggeredAt := Some 0%Z; lastClearedAt := None;
              debounceTimer := None; lastValue := Some 40%float |} in
  let w := ready_with TEMP_HIGH s in
  alertStates w !! TEMP_HIGH = Some s
  /\ transitions TEMP_HIGH (trace (snd (clearAlert TEMP_HIGH [] 33 sample_env w)))
     = transitions TEMP_HIGH (trace w) ++ [CLEARED]
  /\ transitions TEMP_HIGH (trace (snd (triggerAlert TEMP_HIGH [] 41 sample_env w)))
     = transitions TEMP_HIGH (trace w).
Proof.
  cbv zeta.
  assert (Hs : alertStates
                 (ready_with TEMP_HIGH
                    {| isActive := true; lastTriggeredAt := Some 0%Z;
                       lastClearedAt := None; debounceTimer := None;
                       lastValue := Some 40%float |}) !! TEMP_HIGH
               = Some {| isActive := true; lastTriggeredAt := Some 0%Z;
                         lastClearedAt := None; debounceTimer := None;
                         lastValue := Some 40%float |})
    by apply lookup_insert_eq.
  destruct (C2_debounce_gates_same_direction sample_env _ TEMP_HIGH [] 33%float _ Hs)
    as (_ & _ & _ & Hclear).
  destruct (Hclear eq_refl) as ((_ & Haccepted) & _ & _).
  destruct (C2_debounce_gates_same_direction sample_env _ TEMP_HIGH [] 41%float _ Hs)
    as (_ & Hsuppressed & _ & _).
  split; [exact Hs|]. split.
  - apply Haccepted. intros t Ht. discriminate Ht.
  - apply Hsuppressed. exists 0%Z. split; reflexivity.
Defined.

(** C2, as stated, fails.  From a cold start, a reading of 40 degrees and,
    two seconds of the clock later, one of 33 degrees: the TRIGGERED and the
    CLEARED transitions of [TEMP_HIGH] are both accepted, 2,000 ms apart. *)
Lemma C2_counterexample :
  let w := run [sample_reading 0 40 50; sample_reading 1000 33 50] sample_env constructor in
  transitions TEMP_HIGH (trace w) = [TRIGGERED; CLEARED]
  /\ lastTriggeredAt <$> alertStates w !! TEMP_HIGH = Some (Some 0%Z)
  /\ lastClearedAt <$> alertStates w !! TEMP_HIGH = Some (Some 2000%Z)
  /\ (2000 - 0 < ALERT_DEBOUNCE_MS)%Z.
Proof. cbv zeta. repeat split; vm_compute; reflexivity. Qed.

(* ------------------------------------------------------------------ *)
(** * The audit write and the publish *)

(** C1, as the code has it.  For every transition (trigger or clear) that
    is not suppressed, the call returns; when the audit-log write fails the
    failure is caught and logged and the publish is skipped, so that no
    event is emitted for that transition; the ['alert.triggered'] or
    ['alert.cleared'] event is emitted when, and only when, the write has
    succeeded. *)
Theorem C1_publish_follows_successful_write env w type message value s :
  alertStates w !! type = Some s ->
  let now := clock env (clock_reads w) in
  let failed := insert_rejects env (inserts w) in
  let r := triggerAlert type message value env w in
  let r' := clearAlert type message value env w in
  (debounced (lastTriggeredAt s) now = false ->
   fst r = Ret tt
   /\ published (trace (snd r))
      = published (trace w)
        ++ (if failed then []
            else [("alert.triggered",
                   alert_event type message value
                     (clock env (S (stamp_read (lastTriggeredAt s) w))))])
   /\ logged LError (trace (snd r))
      = logged LError (trace w)
        ++ (if failed then [[Str "Failed to log alert "; Ty type; Thrown Js.DbError]]
            else []))
  /\ (isActive s = true -> debounced (lastClearedAt s) now = false ->
      fst r' = Ret tt
      /\ published (trace (snd r'))
         = published (trace w)
           ++ (if failed then []
               else [("alert.cleared",
                      alert_event type message value
                        (clock env (S (stamp_read (lastClearedAt s) w))))])
      /\ logged LError (trace (snd r'))
         = logged LError (trace w)
           ++ (if failed
               then [[Str "Failed to log alert clear "; Ty type; Thrown Js.DbError]]
               else [])).
Proof.
  intros Hs. cbv zeta.
  rewrite (triggerAlert_run env w type message value s Hs).
  rewrite (clearAlert_run env w type message value s Hs). cbn [fst snd].
  split.
  - intros Hok. rewrite (after_trigger_accepted _ _ _ _ _ _ Hok).
    by rewrite published_trigger_accepted, logged_error_trigger_accepted.
  - intros Hact Hok. rewrite (after_clear_accepted _ _ _ _ _ _ Hact Hok).
    by rewrite published_clear_accepted, logged_error_clear_accepted.
Qed.

(** A first trigger whose write is rejected publishes nothing, and a
    first clear whose write resolves publishes its event. *)
Lemma C1_witness :
  alertStates ready !! TEMP_HIGH = Some initial_AlertState
  /\ published (trace (snd (triggerAlert TEMP_HIGH [] 40 rejecting_env ready))) = []
  /\ alertStates
       (ready_with TEMP_HIGH (set_isActive true initial_AlertState)) !! TEMP_HIGH
     = Some (set_isActive true initial_AlertState)
  /\ published
       (trace (snd (clearAlert TEMP_HIGH [] 33 sample_env
                      (ready_with TEMP_HIGH (set_isActive true initial_AlertState)))))
     = [("alert.cleared", alert_event TEMP_HIGH [] 33 1000)].
Proof.
  assert (Hs : alertStates ready !! TEMP_HIGH = Some initial_AlertState)
    by (vm_compute; reflexivity).
  assert (Hs' : alertStates
                  (ready_with TEMP_HIGH (set_isActive true initial_AlertState)) !! TEMP_HIGH
                = Some (set_isActive true initial_AlertState))
    by apply lookup_insert_eq.
  destruct (C1_publish_follows_successful_write rejecting_env ready TEMP_HIGH []
              40%float _ Hs) as (Htrigger & _).
  destruct (Htrigger eq_refl) as (_ & Hnone & _).
  destruct (C1_publish_follows_successful_write sample_env _ TEMP_HIGH []
              33%float _ Hs') as (_ & Hclear).
  destruct (Hclear eq_refl eq_refl) as (_ & Hsome & _).
  exact (conj Hs (conj Hnone (conj Hs' Hsome))).
Defined.

(** C1, as stated, fails.  From a cold start, with an audit log that
    rejects every insert, a reading of 40 degrees makes the TRIGGERED
    transition of [TEMP_HIGH]: the state is flipped, the write is attempted
    and fails, the failure is logged, and no event is emitted. *)
Lemma C1_counterexample :
  let w := run [sample_reading 0 40 50] rejecting_env constructor in
  transitions TEMP_HIGH (trace w) = [TRIGGERED]
  /\ isActive <$> alertStates w !! TEMP_HIGH = Some true
  /\ event_logs (trace w) = []
  /\ logged LError (trace w)
     = [[Str "Failed to log alert "; Ty TEMP_HIGH; Thrown Js.DbError]]
  /\ published (trace w) = [].
Proof. cbv zeta. repeat split; vm_compute; reflexivity. Qed.

Lemma handleTelemetryInsert_returns data env w :
  wf w -> fst (handleTelemetryInsert data env w) = Ret tt.
Proof.
  intros Hwf.
  destruct (handleTelemetryInsert_steps data env w Hwf) as (w' & E & _).
  by rewrite E.
Qed.

(** C9.  When the audit-log write of a transition fails, the state flip
    already applied stands: after a trigger the type is active, stamped
    with the clock's reading in [lastTriggeredAt] and holding the value in
    [lastValue]; after a clear it is inactive, stamped in [lastClearedAt] and
    holding the value.  The call returns: the error is caught and logged,
    nothing is written to the audit log, and the handler of a reading
    returns too, whatever the database does. *)
Theorem C9_failed_write_keeps_the_state_flip env w type message value s :
  alertStates w !! type = Some s ->
  insert_rejects env (inserts w) = true ->
  let now := clock env (clock_reads w) in
  let r := triggerAlert type message value env w in
  let r' := clearAlert type message value env w in
  (debounced (lastTriggeredAt s) now = false ->
   fst r = Ret tt
   /\ alertStates (snd r) !! type
      = Some {| isActive := true;
                lastTriggeredAt := Some (clock env (stamp_read (lastTriggeredAt s) w));
                lastClearedAt := lastClearedAt s;
                debounceTimer := None;
                lastValue := Some value |}
   /\ event_logs (trace (snd r)) = event_logs (trace w)
   /\ logged LError (trace (snd r))
      = logged LError (trace w)
        ++ [[Str "Failed to log alert "; Ty type; Thrown Js.DbError]])
  /\ (isActive s = true -> debounced (lastClearedAt s) now = false ->
      fst r' = Ret tt
      /\ alertStates (snd r') !! type
         = Some {| isActive := false;
                   lastTriggeredAt := lastTriggeredAt s;
                   lastClearedAt := Some (clock env (stamp_read (lastClearedAt s) w));
                   debounceTimer := debounceTimer s;
                   lastValue := Some value |}
      /\ event_logs (trace (snd r')) = event_logs (trace w)
      /\ logged LError (trace (snd r'))
         = logged LError (trace w)
           ++ [[Str "Failed to log alert clear "; Ty type; Thrown Js.DbError]])
  /\ (wf w -> forall data, fst (handleTelemetryInsert data env w) = Ret tt).
Proof.
  intros Hs Hrej. cbv zeta.
  rewrite (triggerAlert_run env w type message value s Hs).
  rewrite (clearAlert_run env w type message value s Hs). cbn [fst snd].
  split; [|split].
  - intros Hok. rewrite (after_trigger_accepted _ _ _ _ _ _ Hok).
    rewrite event_logs_trigger_accepted, logged_error_trigger_accepted, Hrej, app_nil_r.
    repeat split. apply lookup_insert_eq.
  - intros Hact Hok. rewrite (after_clear_accepted _ _ _ _ _ _ Hact Hok).
    rewrite event_logs_clear_accepted, logged_error_clear_accepted, Hrej, app_nil_r.
    repeat split. apply lookup_insert_eq.
  - intros Hwf data. by apply handleTelemetryInsert_returns.
Qed.

Lemma C9_witness :
  alertStates ready !! TEMP_HIGH = Some initial_AlertState
  /\ insert_rejects rejecting_env (inserts ready) = true
  /\ alertStates (snd (triggerAlert TEMP_HIGH [] 40 rejecting_env ready)) !! TEMP_HIGH
     = Some {| isActive := true; lastTriggeredAt := Some 0%Z; lastClearedAt := None;
               debounceTimer := None; lastValue := Some 40%float |}
  /\ alertStates
       (snd (clearAlert TEMP_HIGH [] 33 rejecting_env
               (ready_with TEMP_HIGH (set_isActive true initial_AlertState)))) !! TEMP_HIGH
     = Some {| isActive := false; lastTriggeredAt := None; lastClearedAt := Some 0%Z;
               debounceTimer := None; lastValue := Some 33%float |}
  /\ fst (handleTelemetryInsert (sample_reading 0 40 50) rejecting_env ready) = Ret tt.
Proof.
  assert (Hs : alertStates ready !! TEMP_HIGH = Some initial_AlertState)
    by (vm_compute; reflexivity).
  assert (Hs' : alertStates
                  (ready_with TEMP_HIGH (set_isActive true initial_AlertState)) !! TEMP_HIGH
                = Some (set_isActive true initial_AlertState))
    by apply lookup_insert_eq.
  destruct (C9_failed_write_keeps_the_state_flip rejecting_env ready TEMP_HIGH []
              40%float _ Hs eq_refl) as (Htrigger & _ & Hreturns).
  destruct (Htrigger eq_refl) as (_ & Hflip & _).
  destruct (C9_failed_write_keeps_the_state_flip rejecting_env _ TEMP_HIGH []
              33%float _ Hs' eq_refl) as (_ & Hclear & _).
  destruct (Hclear eq_refl eq_refl) as (_ & Hflip' & _).
  exact (conj Hs (conj eq_refl (conj Hflip (conj Hflip' (Hreturns ready_wf _))))).
Defined.

(* ------------------------------------------------------------------ *)
(** * The handler of a reading *)

Lemma after_load_selects env w : selects (after_load env w) = S (selects w).
Proof. unfold after_load. by destruct (select_result env (selects w)). Qed.

(** With no thresholds cached the handler asks the database once. *)
Lemma handleTelemetryInsert_selects data env w :
  wf w -> thresholds w = None ->
  selects (snd (handleTelemetryInsert data env w)) = S (selects w).
Proof.
  intros Hwf Hth.
  destruct (select_result env (selects w)) as [row| |] eqn:Hsel.
  - destruct (handleTelemetryInsert_loaded data env w row Hwf Hth Hsel) as (w' & E & H).
    rewrite E. cbn [snd].
    by rewrite (adv_selects _ _ (ck_advance _ _ _ H)), after_load_selects.
  - rewrite handleTelemetryInsert_unavailable by (done || congruence).
    apply after_load_selects.
  - rewrite handleTelemetryInsert_unavailable by (done || congruence).
    apply after_load_selects.
Qed.

(** C7.  When no thresholds are cached and the one reload the handler
    attempts yields none (no row, or a rejected query), the handler returns
    normally having done nothing but that one query and two lines of log:
    no check ran (the clock was not read, no insert was attempted), no
    alert state and no tracker slot changed, no transition was made and no
    event published; the thresholds are still absent, and the handler of
    the next reading queries the database again. *)
Theorem C7_missing_thresholds_make_a_no_op data env w :
  wf w ->
  thresholds w = None ->
  (select_result env (selects w) = SelectEmpty
   \/ select_result env (selects w) = SelectRejected) ->
  let r := handleTelemetryInsert data env w in
  fst r = Ret tt
  /\ selects (snd r) = S (selects w)
  /\ (exists level line,
        trace (snd r)
        = trace w
          ++ [DbSelectThresholds (select_result env (selects w));
              Logger level line;
              Logger LWarn [Str "Cannot process alerts: thresholds not available"]])
  /\ alertStates (snd r) = alertStates w
  /\ lastWeight (snd r) = lastWeight w
  /\ lastWeightTime (snd r) = lastWeightTime w
  /\ clock_reads (snd r) = clock_reads w
  /\ inserts (snd r) = inserts w
  /\ (forall K, transitions K (trace (snd r)) = transitions K (trace w))
  /\ published (trace (snd r)) = published (trace w)
  /\ thresholds (snd r) = None
  /\ forall data',
       selects (snd (handleTelemetryInsert data' env (snd r))) = S (selects (snd r)).
Proof.
  intros Hwf Hth Hnone. cbv zeta.
  assert (Hrun : handleTelemetryInsert data env w
                 = (Ret tt,
                    with_effect
                      (Logger LWarn [Str "Cannot process alerts: thresholds not available"])
                      (after_load env w)))
    by (apply handleTelemetryInsert_unavailable; [done|destruct Hnone; congruence]).
  rewrite Hrun. cbn [fst snd].
  assert (Hstates : alertStates
                      (with_effect
                         (Logger LWarn
                            [Str "Cannot process alerts: thresholds not available"])
                         (after_load env w)) = alertStates w)
    by (unfold after_load; destruct Hnone as [-> | ->]; reflexivity).
  assert (Hth' : thresholds
                   (with_effect
                      (Logger LWarn
                         [Str "Cannot process alerts: thresholds not available"])
                      (after_load env w)) = None)
    by (unfold after_load; destruct Hnone as [-> | ->]; exact Hth).
  repeat split; try (unfold after_load; destruct Hnone as [-> | ->]; reflexivity);
    try done.
  - unfold after_load.
    destruct Hnone as [-> | ->]; do 2 eexists;
      cbv [with_effect with_select trace]; fold (trace w);
      by rewrite <- !app_assoc.
  - intros K. unfold after_load.
    destruct Hnone as [-> | ->];
      cbv [with_effect with_select trace]; fold (trace w);
      by rewrite !transitions_app, !app_nil_r.
  - unfold after_load.
    destruct Hnone as [-> | ->];
      cbv [with_effect with_select trace]; fold (trace w);
      by rewrite !published_app, !app_nil_r.
  - intros data'. apply handleTelemetryInsert_selects; [|done].
    intros K. rewrite Hstates. apply Hwf.
Qed.

Lemma C7_witness :
  wf constructor
  /\ thresholds constructor = None
  /\ select_result empty_env (selects constructor) = SelectEmpty
  /\ fst (handleTelemetryInsert (sample_reading 0 40 50) empty_env constructor) = Ret tt
  /\ alertStates (snd (handleTelemetryInsert (sample_reading 0 40 50) empty_env constructor))
     = alertStates constructor
  /\ selects
       (snd (handleTelemetryInsert (sample_reading 1000 40 50) empty_env
               (snd (handleTelemetryInsert (sample_reading 0 40 50) empty_env constructor))))
     = 2.
Proof.
  destruct (C7_missing_thresholds_make_a_no_op (sample_reading 0 40 50) empty_env
              constructor constructor_wf eq_refl (or_introl eq_refl))
    as (Hret & Hsel & _ & Hstates & _ & _ & _ & _ & _ & _ & _ & Hnext).
  pose proof (Hnext (sample_reading 1000 40 50)) as Hnext'.
  rewrite Hsel in Hnext'.
  exact (conj constructor_wf (conj eq_refl (conj eq_refl (conj Hret (conj Hstates Hnext'))))).
Defined.

(** C6.  Every reading that the handler processes, that is, for which
    thresholds are cached or are loaded by the one reload, leaves the
    weight tracker holding that reading's weight and time, whatever the
    tracker held before, whether or not the weight-drop test was evaluated,
    and whether or not it made a transition; so does every call of
    [checkWeightAlerts] with thresholds cached. *)
Theorem C6_weight_tracker_is_overwritten data env w th :
  wf w ->
  (thresholds w = Some th
   \/ (thresholds w = None /\ select_result env (selects w) = SelectRow th)) ->
  let r := handleTelemetryInsert data env w in
  fst r = Ret tt
  /\ lastWeight (snd r) = Some (weightKg data)
  /\ lastWeightTime (snd r) = Some (recordedAt data)
  /\ (thresholds w = Some th ->
      fst (checkWeightAlerts data env w) = Ret tt
      /\ lastWeight (snd (checkWeightAlerts data env w)) = Some (weightKg data)
      /\ lastWeightTime (snd (checkWeightAlerts data env w)) = Some (recordedAt data)).
Proof.
  intros Hwf Hav. cbv zeta.
  assert (Hcheck : thresholds w = Some th ->
      fst (checkWeightAlerts data env w) = Ret tt
      /\ lastWeight (snd (checkWeightAlerts data env w)) = Some (weightKg data)
      /\ lastWeightTime (snd (checkWeightAlerts data env w)) = Some (recordedAt data)).
  { intros Hth.
    destruct (checkWeightAlerts_run data env w th Hwf Hth) as (? & ? & E).
    by rewrite E. }
  destruct Hav as [Hth|[Hth Hrow]].
  - destruct (handleTelemetryInsert_cached data env w th Hwf Hth) as (w' & E & H).
    rewrite E. cbn [fst snd]. destruct H. auto.
  - destruct (handleTelemetryInsert_loaded data env w th Hwf Hth Hrow) as (w' & E & H).
    rewrite E. cbn [fst snd]. destruct H. auto.
Qed.

Lemma C6_witness :
  wf ready
  /\ thresholds ready = Some sample_thresholds
  /\ lastWeight (snd (handleTelemetryInsert (sample_reading 7 40 50) sample_env ready))
     = Some 50%float
  /\ lastWeightTime (snd (handleTelemetryInsert (sample_reading 7 40 50) sample_env ready))
     = Some 7%Z
  /\ lastWeight (snd (handleTelemetryInsert (sample_reading 7 40 50) sample_env constructor))
     = Some 50%float.
Proof.
  destruct (C6_weight_tracker_is_overwritten (sample_reading 7 40 50) sample_env ready
              sample_thresholds ready_wf (or_introl eq_refl)) as (_ & Hw & Ht & _).
  destruct (C6_weight_tracker_is_overwritten (sample_reading 7 40 50) sample_env constructor
              sample_thresholds constructor_wf (or_intror (conj eq_refl eq_refl)))
    as (_ & Hw' & _ & _).
  exact (conj ready_wf (conj eq_refl (conj Hw (conj Ht Hw')))).
Defined.

(** C8.  For a reading whose daily honey gain is [null] or [undefined],
    [checkHoneyGainAlerts] returns at once and changes nothing, and the
    whole handler makes no transition of [HONEY_GAIN_LOW] and leaves its
    state as it was, whatever the threshold and whether or not the alert is
    active. *)
Theorem C8_absent_honey_gain_is_skipped data env w :
  wf w ->
  (dailyHoneyGainG data = Js.Null \/ dailyHoneyGainG data = Js.Undefined) ->
  checkHoneyGainAlerts data env w = (Ret tt, w)
  /\ let r := handleTelemetryInsert data env w in
     fst r = Ret tt
     /\ alertStates (snd r) !! HONEY_GAIN_LOW = alertStates w !! HONEY_GAIN_LOW
     /\ transitions HONEY_GAIN_LOW (trace (snd r)) = transitions HONEY_GAIN_LOW (trace w).
Proof.
  intros Hwf Habsent. split.
  - unfold checkHoneyGainAlerts. by destruct Habsent as [-> | ->].
  - cbv zeta.
    assert (Hnone : forall x, dailyHoneyGainG data <> Js.Val x)
      by (destruct Habsent; congruence).
    split; [by apply handleTelemetryInsert_returns|].
    assert (Hq : quiet HONEY_GAIN_LOW w (snd (handleTelemetryInsert data env w))).
    { destruct (thresholds w) as [th|] eqn:Hth.
      - destruct (handleTelemetryInsert_cached data env w th Hwf Hth) as (w' & E & H).
        rewrite E. apply (ck_honey _ _ _ H Hnone).
      - destruct (select_result env (selects w)) as [row| |] eqn:Hsel.
        + destruct (handleTelemetryInsert_loaded data env w row Hwf Hth Hsel)
            as (w' & E & H).
          rewrite E. eapply quiet_trans; [apply after_load_quiet|].
          apply (ck_honey _ _ _ H Hnone).
        + apply handleTelemetryInsert_unavailable_quiet; [done|congruence].
        + apply handleTelemetryInsert_unavailable_quiet; [done|congruence]. }
    exact Hq.
Qed.

Lemma C8_witness :
  wf ready
  /\ dailyHoneyGainG (sample_reading 0 40 50) = Js.Null
  /\ checkHoneyGainAlerts (sample_reading 0 40 50) sample_env ready = (Ret tt, ready)
  /\ alertStates (snd (handleTelemetryInsert (sample_reading 0 40 50) sample_env ready))
       !! HONEY_GAIN_LOW
     = Some initial_AlertState.
Proof.
  destruct (C8_absent_honey_gain_is_skipped (sample_reading 0 40 50) sample_env ready
              ready_wf (or_introl eq_refl)) as (Hcheck & _ & Hstate & _).
  exact (conj ready_wf (conj eq_refl (conj Hcheck Hstate))).
Defined.

(* ------------------------------------------------------------------ *)
(** * Transitions alternate *)

Lemma alternating_head a d l b :
  alternating a (d :: l) b -> d = if a then CLEARED else TRIGGERED.
Proof. by inversion 1. Qed.

Lemma alternating_neighbours_differ a l b :
  alternating a l b -> neighbours_differ l.
Proof.
  induction 1 as [a|l b H IH|l b H IH]; intros i d1 d2 H1 H2.
  - discriminate H1.
  - destruct i as [|i]; [|by apply (IH i)].
    injection H1 as <-. destruct l as [|d l]; [discriminate H2|].
    injection H2 as <-. by rewrite (alternating_head _ _ _ _ H).
  - destruct i as [|i]; [|by apply (IH i)].
    injection H1 as <-. destruct l as [|d l]; [discriminate H2|].
    injection H2 as <-. by rewrite (alternating_head _ _ _ _ H).
Qed.

Lemma written_when_no_write_failed K l :
  (forall row, ~ In (DbInsertEventLog row false) l) ->
  written K l = transitions K l.
Proof.
  induction l as [|e l IH]; intros Hok; [done|].
  assert (IH' : written K l = transitions K l)
    by (apply IH; intros row Hin; apply (Hok row); by right).
  unfold written, transitions in *. cbn [omap list_omap]. rewrite IH'.
  destruct e as [| row [|] | | |]; try reflexivity.
  destruct (Hok row). by apply in_eq.
Qed.

(** C10.  In any run of the engine over a sequence of readings, whatever
    the clock and the database do, the transitions of each kind alternate:
    a TRIGGERED transition is made only from an inactive state and leaves
    the kind active, a CLEARED one only from an active state and leaves it
    inactive, so that two consecutive transitions of a kind have opposite
    directions.  The transitions of a kind are its accepted state flips,
    each handed once to the audit log; the events published for the kind
    are those of the transitions whose write succeeded, hence all of them,
    alternating too, when no write of the run failed. *)
Theorem C10_transitions_alternate readings env w K s :
  wf w ->
  alertStates w !! K = Some s ->
  exists s' delta,
    trace (run readings env w) = trace w ++ delta
    /\ alertStates (run readings env w) !! K = Some s'
    /\ alternating (isActive s) (transitions K delta) (isActive s')
    /\ neighbours_differ (transitions K delta)
    /\ published_directions K delta = written K delta
    /\ ((forall row, ~ In (DbInsertEventLog row false) delta) ->
        published_directions K delta = transitions K delta).
Proof.
  intros Hwf Hs.
  destruct (run_steps readings env w Hwf) as (_ & Hsteps & delta & Hdelta & Hecho).
  destruct (Hsteps K) as (s0 & s' & dirs & Hs0 & Hs' & Htr & Halt & _).
  rewrite Hs in Hs0. injection Hs0 as <-.
  rewrite Hdelta, transitions_app in Htr. apply app_inv_head in Htr. subst dirs.
  exists s', delta. repeat split; auto.
  - by apply alternating_neighbours_differ with (isActive s) (isActive s').
  - intros Hok. rewrite (Hecho K). by apply written_when_no_write_failed.
Qed.

Lemma C10_witness :
  wf constructor
  /\ alertStates constructor !! TEMP_HIGH = Some initial_AlertState
  /\ exists s' delta,
       trace (run [sample_reading 0 40 50; sample_reading 1000 33 50] sample_env constructor)
       = trace constructor ++ delta
       /\ alertStates
            (run [sample_reading 0 40 50; sample_reading 1000 33 50] sample_env constructor)
            !! TEMP_HIGH = Some s'
       /\ alternating (isActive initial_AlertState) (transitions TEMP_HIGH delta)
            (isActive s')
       /\ neighbours_differ (transitions TEMP_HIGH delta)
       /\ published_directions TEMP_HIGH delta = written TEMP_HIGH delta
       /\ ((forall row, ~ In (DbInsertEventLog row false) delta) ->
           published_directions TEMP_HIGH delta = transitions TEMP_HIGH delta).
Proof.
  assert (Hs : alertStates constructor !! TEMP_HIGH = Some initial_AlertState)
    by (vm_compute; reflexivity).
  exact (conj constructor_wf
           (conj Hs
              (C10_transitions_alternate
                 [sample_reading 0 40 50; sample_reading 1000 33 50] sample_env
                 constructor TEMP_HIGH initial_AlertState constructor_wf Hs))).
Defined.

(** The run of the witness makes, and publishes, a trigger and a clear. *)
Example transitions_of_a_sample_run :
  let w := run [sample_reading 0 40 50; sample_reading 1000 33 50] sample_env constructor in
  transitions TEMP_HIGH (trace w) = [TRIGGERED; CLEARED]
  /\ published_directions TEMP_HIGH (trace w) = [TRIGGERED; CLEARED].
Proof. cbv zeta. split; vm_compute; reflexivity. Qed.

(** When an audit write fails its event is not published: the transitions
    of the kind still alternate, but the published events alone can show
    the same direction twice in a row.  Here the clock advances 200 s per
    reading of it and the third insert into the audit log rejects. *)
Example published_events_can_skip_a_transition :
  let env := {| clock := fun n => (200000 * Z.of_nat n)%Z;
                insert_rejects := fun n => Nat.eqb n 2;
                select_result := fun _ => SelectRow sample_thresholds |} in
  let w := run [sample_reading 0 40 50; sample_reading 1000 33 50;
                sample_reading 2000 40 50; sample_reading 3000 33 50] env constructor in
  transitions TEMP_HIGH (trace w) = [TRIGGERED; CLEARED; TRIGGERED; CLEARED]
  /\ written TEMP_HIGH (trace w) = [TRIGGERED; CLEARED; CLEARED]
  /\ published_directions TEMP_HIGH (trace w) = [TRIGGERED; CLEARED; CLEARED].
Proof. cbv zeta. repeat split; vm_compute; reflexivity. Qed.

(* ------------------------------------------------------------------ *)
(** * Hysteresis *)

Lemma check_transition_active enter leave s now :
  isActive s = true ->
  check_transition enter leave s now
  = if leave && negb (debounced (lastClearedAt s) now) then Some CLEARED else None.
Proof.
  intros Hact. unfold check_transition. rewrite Hact, andb_false_r, andb_true_r.
  by destruct leave, (debounced (lastClearedAt s) now).
Qed.

Lemma check_transition_inactive enter leave s now :
  isActive s = false ->
  check_transition enter leave s now
  = if enter && negb (debounced (lastTriggeredAt s) now) then Some TRIGGERED else None.
Proof.
  intros Hact. unfold check_transition. rewrite Hact, andb_false_r, andb_true_r.
  by destruct enter, (debounced (lastTriggeredAt s) now).
Qed.

(** What the test of a check does to its own type. *)
Lemma after_check_effect type enter leave onEnter onLeave value env w s :
  alertStates w !! type = Some s ->
  let t := check_transition enter leave s (clock env (clock_reads w)) in
  let w' := after_check type enter leave onEnter onLeave value env w in
  transitions type (trace w') = transitions type (trace w) ++ option_list t
  /\ isActive <$> alertStates w' !! type = Some (active_after t s)
  /\ (t = None -> alertStates w' !! type = Some s).
Proof.
  intros Hs. cbv zeta.
  rewrite (after_check_transitions type type enter leave onEnter onLeave value env w s Hs).
  rewrite decide_True by done.
  destruct (after_check_state type enter leave onEnter onLeave value env w s Hs)
    as (s' & Hs' & Hact & Hcase).
  rewrite Hs'. cbn [fmap option_fmap option_map]. rewrite Hact.
  repeat split. intros Hnone. rewrite Hnone in Hcase. by rewrite Hcase.
Qed.

(** ** Comparisons of numbers *)

(** A number at or above a positive finite number is not below a smaller
    one of the same exponent. *)
Lemma SF_not_below (mA mB : positive) (e : Z) (x : spec_float) :
  (mB < mA)%positive ->
  SFleb (S754_finite false mA e) x = true ->
  SFltb x (S754_finite false mB e) = false.
Proof.
  intros Hm. unfold SFleb, SFltb.
  destruct x as [sg|sg| |sg m e']; cbn [SFcompare]; try reflexivity;
    try (destruct sg; (discriminate || reflexivity)).
  destruct sg; [discriminate|].
  change (PosDef.Pos.compare_cont Eq) with Pos.compare.
  destruct (Z.compare_spec e e') as [<-|Hlt|Hgt].
  - rewrite Z.compare_refl.
    destruct (Pos.compare_spec mA m) as [<-|H1|H1]; try discriminate; intros _.
    + destruct (Pos.compare_spec mA mB); try reflexivity; lia.
    + destruct (Pos.compare_spec m mB); try reflexivity; lia.
  - intros _. destruct (Z.compare_spec e' e); try reflexivity; lia.
  - discriminate.
Qed.

(** The clear threshold of a high-temperature threshold of 36 degrees, as
    the check computes it: the number next below 34.2. *)
Example clear_threshold_of_36 :
  (36 * (1 - ALERT_HYSTERESIS_PERCENT))%float = 34.199999999999996%float
  /\ Js.lt 34.199999999999996 34.2 = true.
Proof. split; vm_compute; reflexivity. Qed.

Lemma dead_band_not_below (v : float) :
  Js.le 34.2 v = true -> Js.lt v (36 * (1 - HYSTERESIS_PERCENT)) = false.
Proof.
  unfold Js.le, Js.lt. rewrite leb_spec, ltb_spec.
  replace (Prim2SF 34.2) with (S754_finite false 4813222101752218 (-47))
    by (vm_compute; reflexivity).
  replace (Prim2SF (36 * (1 - HYSTERESIS_PERCENT)))
    with (S754_finite false 4813222101752217 (-47))
    by (vm_compute; reflexivity).
  apply SF_not_below. reflexivity.
Qed.

(** C4, as the code has it.  With a high-temperature threshold of 36.0:
    from an inactive state not triggered in the last five minutes a reading
    of 36.1 makes a TRIGGERED transition; once active, every reading from
    34.2 to 36.1 makes no transition of [TEMP_HIGH] and leaves its state as
    it was; and, active, a CLEARED transition is made exactly when the
    reading is strictly below the clear threshold that the check computes,
    36.0 * (1 - 0.05), and the clear is not debounced, that is, no clear of
    the kind was made in the last 300,000 ms. *)
Theorem C4_high_temperature_dead_band data env w th s :
  wf w ->
  thresholds w = Some th ->
  tempMax th = 36%float ->
  alertStates w !! TEMP_HIGH = Some s ->
  let now := clock env (clock_reads w) in
  let v := temperature data in
  let r := checkTemperatureAlerts data env w in
  fst r = Ret tt
  /\ (isActive s = false -> debounced (lastTriggeredAt s) now = false ->
      v = 36.1%float ->
      transitions TEMP_HIGH (trace (snd r)) = transitions TEMP_HIGH (trace w) ++ [TRIGGERED]
      /\ isActive <$> alertStates (snd r) !! TEMP_HIGH = Some true)
  /\ (isActive s = true -> Js.le 34.2 v = true -> Js.le v 36.1 = true ->
      transitions TEMP_HIGH (trace (snd r)) = transitions TEMP_HIGH (trace w)
      /\ alertStates (snd r) !! TEMP_HIGH = Some s)
  /\ (isActive s = true ->
      let cleared :=
        Js.lt v (36 * (1 - ALERT_HYSTERESIS_PERCENT))
        && negb (debounced (lastClearedAt s) now) in
      transitions TEMP_HIGH (trace (snd r))
      = transitions TEMP_HIGH (trace w) ++ (if cleared then [CLEARED] else [])
      /\ isActive <$> alertStates (snd r) !! TEMP_HIGH = Some (negb cleared)).
Proof.
  intros Hwf Hth Hmax Hs. cbv zeta.
  destruct (checkTemperatureAlerts_run data env w th Hwf Hth) as (? & ? & ? & ? & E).
  rewrite E. cbn [fst snd]. rewrite Hmax.
  match goal with
  | |- context [after_check TEMP_LOW ?a ?b ?c ?d ?e ?f ?u] =>
      destruct (after_check_quiet TEMP_HIGH TEMP_LOW a b c d e f u) as [-> ->]; [done|]
  end.
  match goal with
  | |- context [after_check TEMP_HIGH ?a ?b ?c ?d ?e ?f ?u] =>
      destruct (after_check_effect TEMP_HIGH a b c d e f u s Hs) as (-> & -> & Hsame)
  end.
  split; [done|]. split; [|split].
  - intros Hact Hok ->.
    rewrite (check_transition_inactive _ _ _ _ Hact), Hok.
    replace (Js.gt 36.1 36) with true by (vm_compute; reflexivity). by split.
  - intros Hact Hlow _.
    assert (Hnone : check_transition (Js.gt (temperature data) 36)
                      (Js.lt (temperature data) (36 * (1 - HYSTERESIS_PERCENT))) s
                      (clock env (clock_reads w)) = None)
      by (by rewrite (check_transition_active _ _ _ _ Hact),
                     (dead_band_not_below _ Hlow)).
    rewrite Hnone, app_nil_r. split; [done|by apply Hsame].
  - intros Hact. rewrite (check_transition_active _ _ _ _ Hact).
    change ALERT_HYSTERESIS_PERCENT with HYSTERESIS_PERCENT.
    destruct (Js.lt (temperature data) (36 * (1 - HYSTERESIS_PERCENT))
              && negb (debounced (lastClearedAt s) (clock env (clock_reads w))));
      split; cbn [option_list active_after negb]; rewrite ?Hact; reflexivity.
Qed.

Lemma ready_with_wf type s : wf (ready_with type s).
Proof.
  intros K. unfold ready_with. cbv [with_alertStates alertStates].
  fold (alertStates ready).
  destruct (decide (K = type)) as [->|HK].
  - rewrite lookup_insert_eq. eauto.
  - rewrite lookup_insert_ne by done. apply ready_wf.
Qed.

Lemma C4_witness :
  let active := {| isActive := true; lastTriggeredAt := Some 0%Z; lastClearedAt := None;
                   debounceTimer := None; lastValue := Some 36.1%float |} in
  tempMax sample_thresholds = 36%float
  /\ transitions TEMP_HIGH
       (trace (snd (checkTemperatureAlerts (sample_reading 0 36.1 50) sample_env ready)))
     = [TRIGGERED]
  /\ Js.le 34.2 35 = true
  /\ alertStates
       (snd (checkTemperatureAlerts (sample_reading 1000 35 50) sample_env
               (ready_with TEMP_HIGH active))) !! TEMP_HIGH
     = Some active
  /\ transitions TEMP_HIGH
       (trace (snd (checkTemperatureAlerts (sample_reading 1000 30 50) sample_env
                      (ready_with TEMP_HIGH active))))
     = [CLEARED].
Proof.
  cbv zeta.
  assert (Hs : alertStates ready !! TEMP_HIGH = Some initial_AlertState)
    by (vm_compute; reflexivity).
  destruct (C4_high_temperature_dead_band (sample_reading 0 36.1 50) sample_env ready
              sample_thresholds initial_AlertState ready_wf eq_refl eq_refl Hs)
    as (_ & Htrigger & _ & _).
  destruct (Htrigger eq_refl eq_refl eq_refl) as [Htriggered _].
  destruct (C4_high_temperature_dead_band (sample_reading 1000 35 50) sample_env
              (ready_with TEMP_HIGH _) sample_thresholds _ (ready_with_wf _ _)
              eq_refl eq_refl (lookup_insert_eq _ TEMP_HIGH
                 {| isActive := true; lastTriggeredAt := Some 0%Z; lastClearedAt := None;
                    debounceTimer := None; lastValue := Some 36.1%float |}))
    as (_ & _ & Hband & _).
  destruct (Hband eq_refl eq_refl eq_refl) as [_ Hkept].
  destruct (C4_high_temperature_dead_band (sample_reading 1000 30 50) sample_env
              (ready_with TEMP_HIGH _) sample_thresholds _ (ready_with_wf _ _)
              eq_refl eq_refl (lookup_insert_eq _ TEMP_HIGH
                 {| isActive := true; lastTriggeredAt := Some 0%Z; lastClearedAt := None;
                    debounceTimer := None; lastValue := Some 36.1%float |}))
    as (_ & _ & _ & Hclear).
  destruct (Hclear eq_refl) as [Hcleared _].
  exact (conj eq_refl (conj Htriggered (conj eq_refl (conj Hkept Hcleared)))).
Defined.

(** C4, as stated, fails.  With the threshold at 36: the alert is
    triggered at time 0 and cleared at 299 s; at 300 s it is inactive and
    its last trigger is five minutes old, so that a reading of 36.1 makes a
    TRIGGERED transition; the next reading, 30, is strictly below 34.2 and
    makes no CLEARED transition, the last clear being one second old: the
    alert stays active.  Besides, a reading of 34.199999999999996, the number
    next below 34.2, makes no CLEARED transition of an active alert that was
    never cleared, the clear threshold being that very number. *)
Lemma C4_counterexample :
  let before :=
    run [sample_reading 0 40 50; sample_reading 1000 33 50] bouncing_env constructor in
  let triggered := run [sample_reading 2000 36.1 50] bouncing_env before in
  let after := run [sample_reading 3000 30 50] bouncing_env triggered in
  let active := {| isActive := true; lastTriggeredAt := Some 0%Z; lastClearedAt := None;
                   debounceTimer := None; lastValue := Some 36.1%float |} in
  let edge :=
    snd (checkTemperatureAlerts (sample_reading 1000 34.199999999999996 50) sample_env
           (ready_with TEMP_HIGH active)) in
  (tempMax <$> thresholds before = Some 36%float
   /\ alertStates before !! TEMP_HIGH
      = Some {| isActive := false; lastTriggeredAt := Some 0%Z;
                lastClearedAt := Some 299000%Z; debounceTimer := None;
                lastValue := Some 33%float |}
   /\ (ALERT_DEBOUNCE_MS <=? clock bouncing_env (clock_reads before) - 0)%Z = true
   /\ transitions TEMP_HIGH (trace triggered)
      = transitions TEMP_HIGH (trace before) ++ [TRIGGERED]
   /\ isActive <$> alertStates triggered !! TEMP_HIGH = Some true
   /\ Js.lt 30 34.2 = true
   /\ transitions TEMP_HIGH (trace after) = transitions TEMP_HIGH (trace triggered)
   /\ isActive <$> alertStates after !! TEMP_HIGH = Some true)
  /\ (Js.lt 34.199999999999996 34.2 = true
      /\ transitions TEMP_HIGH (trace edge) = []
      /\ alertStates edge !! TEMP_HIGH = Some active).
Proof. cbv zeta. repeat split; vm_compute; reflexivity. Qed.

(** C3, as the code has it.  When the [WEIGHT_DROP] alert is active and
    the drop rate between the tracked previous reading and this one is
    computed, a CLEARED transition is made exactly when the rate is less
    than or equal to [maxWeightDropPerHourKg * (1 - 0.05)] and the clear is
    not debounced; so a rate equal to that clear threshold clears the
    alert.  Otherwise no transition is made and the state is as it was. *)
Theorem C3_weight_drop_clears_at_threshold data env w th previousWeight previousTime s :
  wf w ->
  thresholds w = Some th ->
  lastWeight w = Some previousWeight ->
  lastWeightTime w = Some previousTime ->
  drop_evaluated previousWeight previousTime data = true ->
  alertStates w !! WEIGHT_DROP = Some s ->
  isActive s = true ->
  let rate := dropPerHour previousWeight previousTime data in
  let clearThreshold :=
    (maxWeightDropPerHourKg th * (1 - ALERT_HYSTERESIS_PERCENT))%float in
  let cleared :=
    Js.le rate clearThreshold
    && negb (debounced (lastClearedAt s) (clock env (clock_reads w))) in
  let r := checkWeightAlerts data env w in
  fst r = Ret tt
  /\ transitions WEIGHT_DROP (trace (snd r))
     = transitions WEIGHT_DROP (trace w) ++ (if cleared then [CLEARED] else [])
  /\ isActive <$> alertStates (snd r) !! WEIGHT_DROP = Some (negb cleared)
  /\ (cleared = false -> alertStates (snd r) !! WEIGHT_DROP = Some s).
Proof.
  intros Hwf Hth Hpw Hpt Hev Hs Hact. cbv zeta.
  destruct (checkWeightAlerts_run data env w th Hwf Hth) as (onEnter & onLeave & E).
  rewrite E. cbn [fst snd].
  cbv [with_lastWeightTime with_lastWeight trace alertStates].
  match goal with
  | |- context [after_weight_test ?a ?b ?c ?d ?e ?u] =>
      fold (trace (after_weight_test a b c d e u));
      fold (alertStates (after_weight_test a b c d e u))
  end.
  fold (trace w).
  unfold after_weight_test. rewrite Hpw, Hpt, Hev.
  match goal with
  | |- context [after_check WEIGHT_DROP ?a ?b ?c ?d ?e ?f ?u] =>
      destruct (after_check_effect WEIGHT_DROP a b c d e f u s Hs) as (-> & -> & Hsame)
  end.
  rewrite (check_transition_active _ _ _ _ Hact) in *.
  change ALERT_HYSTERESIS_PERCENT with HYSTERESIS_PERCENT.
  destruct (Js.le (dropPerHour previousWeight previousTime data)
              (maxWeightDropPerHourKg th * (1 - HYSTERESIS_PERCENT))
            && negb (debounced (lastClearedAt s) (clock env (clock_reads w))));
    cbn [active_after negb]; rewrite ?Hact; repeat split; try done; auto.
Qed.

(** A previous weight of 50 kg one hour before a reading of 31 kg. *)
Lemma C3_witness :
  let active := {| isActive := true; lastTriggeredAt := Some 0%Z; lastClearedAt := None;
                   debounceTimer := None; lastValue := Some 50%float |} in
  let w := with_lastWeightTime (Some 0%Z)
             (with_lastWeight (Some 50%float) (ready_with WEIGHT_DROP active)) in
  drop_evaluated 50 0 (sample_reading 3600000 30 31) = true
  /\ alertStates w !! WEIGHT_DROP = Some active
  /\ transitions WEIGHT_DROP
       (trace (snd (checkWeightAlerts (sample_reading 3600000 30 31) sample_env w)))
     = [CLEARED]
  /\ alertStates
       (snd (checkWeightAlerts (sample_reading 3600000 30 30) sample_env w)) !! WEIGHT_DROP
     = Some active.
Proof.
  cbv zeta.
  destruct (C3_weight_drop_clears_at_threshold (sample_reading 3600000 30 31) sample_env
              (with_lastWeightTime (Some 0%Z)
                 (with_lastWeight (Some 50%float) (ready_with WEIGHT_DROP _)))
              sample_thresholds 50%float 0%Z _ (ready_with_wf _ _)
              eq_refl eq_refl eq_refl eq_refl
              (lookup_insert_eq _ WEIGHT_DROP
                 {| isActive := true; lastTriggeredAt := Some 0%Z; lastClearedAt := None;
                    debounceTimer := None; lastValue := Some 50%float |})
              eq_refl)
    as (_ & Hcleared & _ & _).
  destruct (C3_weight_drop_clears_at_threshold (sample_reading 3600000 30 30) sample_env
              (with_lastWeightTime (Some 0%Z)
                 (with_lastWeight (Some 50%float) (ready_with WEIGHT_DROP _)))
              sample_thresholds 50%float 0%Z _ (ready_with_wf _ _)
              eq_refl eq_refl eq_refl eq_refl
              (lookup_insert_eq _ WEIGHT_DROP
                 {| isActive := true; lastTriggeredAt := Some 0%Z; lastClearedAt := None;
                    debounceTimer := None; lastValue := Some 50%float |})
              eq_refl)
    as (_ & _ & _ & Hkept).
  exact (conj eq_refl
           (conj (lookup_insert_eq _ WEIGHT_DROP _) (conj Hcleared (Hkept eq_refl)))).
Defined.

(** C3, as stated, fails.  With [maxWeightDropPerHourKg] at 20: the hive
    weighs 100 kg, an hour later 50 kg, which triggers [WEIGHT_DROP], and an
    hour later 31 kg; this last drop rate is 19 kg/hour, exactly the clear
    threshold 20 * (1 - 0.05), and the alert is cleared. *)
Lemma C3_counterexample :
  let before :=
    run [sample_reading 0 30 100; sample_reading 3600000 30 50] sample_env constructor in
  let last := sample_reading 7200000 30 31 in
  let after := run [last] sample_env before in
  isActive <$> alertStates before !! WEIGHT_DROP = Some true
  /\ lastWeight before = Some 50%float
  /\ lastWeightTime before = Some 3600000%Z
  /\ drop_evaluated 50 3600000 last = true
  /\ dropPerHour 50 3600000 last = 19%float
  /\ (maxWeightDropPerHourKg sample_thresholds * (1 - ALERT_HYSTERESIS_PERCENT))%float
     = 19%float
  /\ transitions WEIGHT_DROP (trace after)
     = transitions WEIGHT_DROP (trace before) ++ [CLEARED]
  /\ isActive <$> alertStates after !! WEIGHT_DROP = Some false.
Proof. cbv zeta. repeat split; vm_compute; reflexivity. Qed.

(* ------------------------------------------------------------------ *)
(** * The handler, kind by kind *)

(** ** The handler as a sequence of tests *)

Lemma after_check_idle type onEnter onLeave value env w :
  after_check type false false onEnter onLeave value env w = w.
Proof. unfold after_check. by destruct (alertStates w !! type). Qed.

(** What a test can have done: nothing, a suppressed attempt, an accepted
    trigger or an accepted clear. *)
Lemma after_check_cases type enter leave onEnter onLeave value env w s :
  alertStates w !! type = Some s ->
  let now := clock env (clock_reads w) in
  let w' := after_check type enter leave onEnter onLeave value env w in
  (check_transition enter leave s now = None /\ w' = w)
  \/ (check_transition enter leave s now = None
      /\ exists line, w' = with_effect (Logger LDebug line) (with_clock_read w))
  \/ (check_transition enter leave s now = Some TRIGGERED
      /\ isActive s = false
      /\ debounced (lastTriggeredAt s) now = false
      /\ w' = trigger_accepted type onEnter value env w s (stamp_read (lastTriggeredAt s) w))
  \/ (check_transition enter leave s now = Some CLEARED
      /\ isActive s = true
      /\ debounced (lastClearedAt s) now = false
      /\ w' = clear_accepted type onLeave value env w s (stamp_read (lastClearedAt s) w)).
Proof.
  intros Hs. cbv zeta. unfold after_check, check_transition. rewrite Hs.
  destruct (enter && negb (isActive s)) eqn:Henter.
  - apply andb_prop in Henter as [_ Hact%negb_true_iff].
    destruct (debounced (lastTriggeredAt s) (clock env (clock_reads w))) eqn:Hdeb.
    + right; left. split; [done|].
      unfold after_trigger, debounced in *.
      destruct (lastTriggeredAt s) as [t|]; [|done]. cbv zeta. rewrite Hdeb.
      unfold trigger_suppressed. eauto.
    + do 2 right; left. repeat split; auto. by apply after_trigger_accepted.
  - destruct (leave && isActive s) eqn:Hleave; [|by left].
    apply andb_prop in Hleave as [_ Hact].
    destruct (debounced (lastClearedAt s) (clock env (clock_reads w))) eqn:Hdeb.
    + right; left. split; [done|].
      unfold after_clear, debounced in *. rewrite Hact.
      destruct (lastClearedAt s) as [t|]; [|done]. cbv zeta. rewrite Hdeb.
      unfold clear_suppressed. eauto.
    + do 3 right. repeat split; auto. by apply after_clear_accepted.
Qed.

Lemma after_weight_test_as_check data th onEnter onLeave env w :
  exists onEnter' onLeave' value,
    after_weight_test data th onEnter onLeave env w
    = after_check WEIGHT_DROP
        (enters WEIGHT_DROP th (lastWeight w) (lastWeightTime w) data)
        (leaves WEIGHT_DROP th (lastWeight w) (lastWeightTime w) data)
        onEnter' onLeave' value env w.
Proof.
  unfold after_weight_test, enters, leaves.
  destruct (lastWeight w) as [previousWeight|];
    [|exists [], [], 0%float; by rewrite after_check_idle].
  destruct (lastWeightTime w) as [previousTime|];
    [|exists [], [], 0%float; by rewrite after_check_idle].
  destruct (drop_evaluated previousWeight previousTime data); cbn [andb].
  - by do 3 eexists.
  - exists [], [], 0%float. by rewrite after_check_idle.
Qed.

Lemma after_honey_as_check data th onEnter onLeave env w pw pt :
  exists value,
    after_honey data th onEnter onLeave env w
    = after_check HONEY_GAIN_LOW
        (enters HONEY_GAIN_LOW th pw pt data) (leaves HONEY_GAIN_LOW th pw pt data)
        onEnter onLeave value env w.
Proof.
  unfold after_honey, enters, leaves.
  destruct (dailyHoneyGainG data) as [| |honeyGain].
  - exists 0%float. by rewrite after_check_idle.
  - exists 0%float. by rewrite after_check_idle.
  - by eexists.
Qed.

(** The eight checks make the ten tests of the decision table, in the
    order of the alert types, and overwrite the tracker after the fifth. *)
Lemma checks_pipeline data env w th :
  wf w -> thresholds w = Some th ->
  exists w',
    promise_all
      [checkTemperatureAlerts data; checkHumidityAlerts data; checkWeightAlerts data;
       checkSoundAlerts data; checkCo2Alerts data; checkSwarmRiskAlerts data;
       checkBatteryAlerts data; checkHoneyGainAlerts data] env w
    = (Ret tt, w')
    /\ pipeline env (decisions th (lastWeight w) (lastWeightTime w) data) w w'.
Proof.
  intros Hwf Hth.
  set (pw := lastWeight w). set (pt := lastWeightTime w).
  destruct (checkTemperatureAlerts_run data env w th Hwf Hth) as (? & ? & ? & ? & E1).
  match type of E1 with _ = (_, after_check _ _ _ _ _ _ _ ?u) => set (w1 := u) in * end.
  match type of E1 with _ = (_, ?u) => set (w2 := u) in * end.
  assert (Hwf1 : wf w1) by (by apply after_check_wf).
  assert (Hwf2 : wf w2) by (by apply after_check_wf).
  assert (Hth2 : thresholds w2 = Some th)
    by (subst w2 w1; by rewrite !after_check_thresholds).
  destruct (checkHumidityAlerts_run data env w2 th Hwf2 Hth2) as (? & ? & ? & ? & E2).
  match type of E2 with _ = (_, after_check _ _ _ _ _ _ _ ?u) => set (w3 := u) in * end.
  match type of E2 with _ = (_, ?u) => set (w4 := u) in * end.
  assert (Hwf3 : wf w3) by (by apply after_check_wf).
  assert (Hwf4 : wf w4) by (by apply after_check_wf).
  assert (Hth4 : thresholds w4 = Some th)
    by (subst w4 w3; by rewrite !after_check_thresholds).
  assert (Hpw4 : lastWeight w4 = pw)
    by (subst w4 w3 w2 w1; by rewrite !after_check_lastWeight).
  assert (Hpt4 : lastWeightTime w4 = pt)
    by (subst w4 w3 w2 w1; by rewrite !after_check_lastWeightTime).
  destruct (checkWeightAlerts_run data env w4 th Hwf4 Hth4) as (f & g & E3).
  destruct (after_weight_test_as_check data th f g env w4) as (m1 & m2 & v & E3').
  rewrite E3', Hpw4, Hpt4 in E3.
  match type of E3 with
    _ = (_, with_lastWeightTime _ (with_lastWeight _ ?u)) => set (w5 := u) in *
  end.
  match type of E3 with _ = (_, ?u) => set (w6 := u) in * end.
  assert (Hwf5 : wf w5) by (by apply after_check_wf).
  assert (Hwf6 : wf w6) by exact Hwf5.
  assert (Hth6 : thresholds w6 = Some th)
    by (subst w6 w5; cbv [with_lastWeightTime with_lastWeight thresholds];
        fold (thresholds (after_check WEIGHT_DROP
               (enters WEIGHT_DROP th pw pt data) (leaves WEIGHT_DROP th pw pt data)
               m1 m2 v env w4)); by rewrite after_check_thresholds).
  destruct (checkSoundAlerts_run data env w6 th Hwf6 Hth6) as (? & ? & E4).
  match type of E4 with _ = (_, ?u) => set (w7 := u) in * end.
  assert (Hwf7 : wf w7) by (by apply after_check_wf).
  assert (Hth7 : thresholds w7 = Some th) by (subst w7; by rewrite after_check_thresholds).
  destruct (checkCo2Alerts_run data env w7 th Hwf7 Hth7) as (? & ? & E5).
  match type of E5 with _ = (_, ?u) => set (w8 := u) in * end.
  assert (Hwf8 : wf w8) by (by apply after_check_wf).
  assert (Hth8 : thresholds w8 = Some th) by (subst w8; by rewrite after_check_thresholds).
  destruct (checkSwarmRiskAlerts_run data env w8 th Hwf8 Hth8) as (? & ? & E6).
  match type of E6 with _ = (_, ?u) => set (w9 := u) in * end.
  assert (Hwf9 : wf w9) by (by apply after_check_wf).
  assert (Hth9 : thresholds w9 = Some th) by (subst w9; by rewrite after_check_thresholds).
  destruct (checkBatteryAlerts_run data env w9 th Hwf9 Hth9) as (? & ? & E7).
  match type of E7 with _ = (_, ?u) => set (w10 := u) in * end.
  assert (Hwf10 : wf w10) by (by apply after_check_wf).
  assert (Hth10 : thresholds w10 = Some th)
    by (subst w10; by rewrite after_check_thresholds).
  destruct (checkHoneyGainAlerts_run data env w10 th Hwf10 Hth10) as (h1 & h2 & E8).
  destruct (after_honey_as_check data th h1 h2 env w10 pw pt) as (hv & E8').
  rewrite E8' in E8.
  match type of E8 with _ = (_, ?u) => set (w11 := u) in * end.
  exists w11. split.
  - rewrite (promise_all_cons _ _ _ _ _ E1), (promise_all_cons _ _ _ _ _ E2),
      (promise_all_cons _ _ _ _ _ E3), (promise_all_cons _ _ _ _ _ E4),
      (promise_all_cons _ _ _ _ _ E5), (promise_all_cons _ _ _ _ _ E6),
      (promise_all_cons _ _ _ _ _ E7), (promise_all_cons _ _ _ _ _ E8).
    reflexivity.
  - unfold decisions. cbn [map AlertType_values].
    do 5 eapply pipeline_test.
    eapply pipeline_track.
    do 5 eapply pipeline_test.
    apply pipeline_done.
Qed.

Lemma after_load_tracker env w :
  lastWeight (after_load env w) = lastWeight w
  /\ lastWeightTime (after_load env w) = lastWeightTime w
  /\ alertStates (after_load env w) = alertStates w
  /\ clock_reads (after_load env w) = clock_reads w
  /\ inserts (after_load env w) = inserts w.
Proof. unfold after_load. by destruct (select_result env (selects w)). Qed.

(** With thresholds at hand, the handler makes the tests of the decision
    table, after the reload if there was one. *)
Lemma handleTelemetryInsert_tests data env w th :
  wf w -> available env w th ->
  exists w0 w',
    handleTelemetryInsert data env w = (Ret tt, w')
    /\ (w0 = w \/ thresholds w = None /\ w0 = after_load env w)
    /\ wf w0
    /\ pipeline env (decisions th (lastWeight w) (lastWeightTime w) data) w0 w'.
Proof.
  intros Hwf [Hth|[Hth Hrow]].
  - destruct (checks_pipeline data env w th Hwf Hth) as (w' & E & H).
    exists w, w'. repeat split; auto.
    unfold handleTelemetryInsert.
    erewrite (bind_run this_thresholds) by reflexivity. rewrite Hth.
    erewrite bind_run by reflexivity. exact E.
  - assert (Hth' : thresholds (after_load env w) = Some th)
      by (by rewrite after_load_thresholds, Hrow).
    destruct (checks_pipeline data env (after_load env w) th (after_load_wf env w Hwf) Hth')
      as (w' & E & H).
    destruct (after_load_tracker env w) as (Hpw & Hpt & _).
    rewrite Hpw, Hpt in H.
    exists (after_load env w), w'. repeat split; auto using after_load_wf.
    unfold handleTelemetryInsert.
    erewrite (bind_run this_thresholds) by reflexivity. rewrite Hth.
    rewrite <- bind_assoc. erewrite (bind_run loadThresholds) by apply loadThresholds_run.
    rewrite <- bind_assoc. erewrite (bind_run this_thresholds) by reflexivity.
    rewrite Hth'. erewrite bind_run by reflexivity. exact E.
Qed.

Lemma pipeline_wf env steps w w' : pipeline env steps w w' -> wf w -> wf w'.
Proof.
  induction 1 as [w|type enter leave onEnter onLeave value rest w w' _ IH
                 |x t rest w w' _ IH]; intros Hwf.
  - exact Hwf.
  - by apply IH, after_check_wf.
  - apply IH. exact Hwf.
Qed.

(** A kind that no test of the sequence is about is left alone. *)
Lemma pipeline_quiet env steps w w' K :
  pipeline env steps w w' -> ~ In K (map fst steps) -> quiet K w w'.
Proof.
  induction 1 as [w|type enter leave onEnter onLeave value rest w w' _ IH
                 |x t rest w w' _ IH]; intros Hnot.
  - apply quiet_refl.
  - cbn [map fst In] in Hnot.
    eapply quiet_trans.
    + apply after_check_quiet. intros HK. apply Hnot. by left.
    + apply IH. intros Hin. apply Hnot. by right.
  - eapply quiet_trans; [|apply IH, Hnot]. by split.
Qed.

Lemma after_check_clock_reads type enter leave onEnter onLeave value env w :
  clock_reads w <= clock_reads (after_check type enter leave onEnter onLeave value env w)
  <= clock_reads w + 3.
Proof.
  destruct (alertStates w !! type) as [s|] eqn:Hs;
    [|unfold after_check; rewrite Hs; lia].
  destruct (after_check_cases type enter leave onEnter onLeave value env w s Hs)
    as [[_ ->]|[[_ [line ->]]|[(_ & _ & _ & ->)|(_ & _ & _ & ->)]]];
    cbv [trigger_accepted clear_accepted with_effect with_clock_read clock_reads stamp_read];
    fold (clock_reads w);
    repeat match goal with |- context [match ?x with _ => _ end] => destruct x end; lia.
Qed.

Lemma pipeline_clock_reads env steps w w' :
  pipeline env steps w w' ->
  clock_reads w <= clock_reads w' <= clock_reads w + 3 * length steps.
Proof.
  induction 1 as [w|type enter leave onEnter onLeave value rest w w' _ IH
                 |x t rest w w' _ IH].
  - cbn [length]. lia.
  - pose proof (after_check_clock_reads type enter leave onEnter onLeave value env w).
    cbn [length]. lia.
  - exact IH.
Qed.

(** In a sequence of tests on distinct types, the test on a type decides
    what happens to it: the transition that the hysteresis rule makes of
    the test's two conditions, of the state the type was in, and of the
    clock's reading when the test is made. *)
Lemma pipeline_decides env steps w w' K enter leave s :
  pipeline env steps w w' ->
  wf w ->
  List.NoDup (map fst steps) ->
  In (K, (enter, leave)) steps ->
  alertStates w !! K = Some s ->
  exists n,
    clock_reads w <= n <= clock_reads w'
    /\ let t := check_transition enter leave s (clock env n) in
       transitions K (trace w') = transitions K (trace w) ++ option_list t
       /\ isActive <$> alertStates w' !! K = Some (active_after t s)
       /\ (t = None -> alertStates w' !! K = Some s).
Proof.
  induction 1 as [w|type e l onEnter onLeave value rest w w' Hrest IH
                 |x t rest w w' Hrest IH]; intros Hwf Hnodup Hin Hs.
  - destruct Hin.
  - cbn [map fst] in Hnodup. apply List.NoDup_cons_iff in Hnodup as [Hfresh Hnodup].
    pose proof (after_check_clock_reads type e l onEnter onLeave value env w) as Hclock.
    pose proof (pipeline_clock_reads _ _ _ _ Hrest) as Hclock'.
    destruct Hin as [Heq|Hin].
    + injection Heq as -> -> ->.
      exists (clock_reads w). split; [lia|].
      destruct (pipeline_quiet _ _ _ _ K Hrest Hfresh) as [-> ->].
      by apply after_check_effect.
    + assert (HK : K <> type).
      { intros ->. apply Hfresh. change type with (fst (type, (enter, leave))).
        by apply in_map. }
      destruct (after_check_quiet K type e l onEnter onLeave value env w HK) as [Hst Htr].
      destruct (IH (after_check_wf _ _ _ _ _ _ _ _ Hwf) Hnodup Hin) as (n & Hn & H).
      { by rewrite Hst. }
      exists n. split; [lia|]. by rewrite <- Htr.
  - destruct (IH Hwf Hnodup Hin Hs) as (n & Hn & H). by exists n.
Qed.

Lemma decisions_types th pw pt data : map fst (decisions th pw pt data) = AlertType_values.
Proof. reflexivity. Qed.

Lemma AlertType_values_NoDup : List.NoDup AlertType_values.
Proof. repeat constructor; cbn [In]; intuition discriminate. Qed.

Lemma decisions_complete K th pw pt data :
  In (K, (enters K th pw pt data, leaves K th pw pt data)) (decisions th pw pt data).
Proof.
  unfold decisions.
  apply (in_map (fun K => (K, (enters K th pw pt data, leaves K th pw pt data)))).
  destruct K; cbn [AlertType_values In]; auto 12.
Qed.

(** What the handler of a reading does to a kind, thresholds being at
    hand. *)
Lemma handleTelemetryInsert_decides data env w th K s :
  wf w -> available env w th -> alertStates w !! K = Some s ->
  exists w' n,
    handleTelemetryInsert data env w = (Ret tt, w')
    /\ clock_reads w <= n <= clock_reads w'
    /\ let t := check_transition
                  (enters K th (lastWeight w) (lastWeightTime w) data)
                  (leaves K th (lastWeight w) (lastWeightTime w) data)
                  s (clock env n) in
       transitions K (trace w') = transitions K (trace w) ++ option_list t
       /\ isActive <$> alertStates w' !! K = Some (active_after t s)
       /\ (t = None -> alertStates w' !! K = Some s).
Proof.
  intros Hwf Hav Hs.
  destruct (handleTelemetryInsert_tests data env w th Hwf Hav)
    as (w0 & w' & E & Hw0 & Hwf0 & Hpipe).
  assert (Hq : quiet K w w0 /\ clock_reads w0 = clock_reads w).
  { destruct Hw0 as [->|[_ ->]]; [split; [apply quiet_refl|done]|].
    split; [apply after_load_quiet|apply after_load_tracker]. }
  destruct Hq as [[Hst Htr] Hclock].
  destruct (pipeline_decides env _ w0 w' K
              (enters K th (lastWeight w) (lastWeightTime w) data)
              (leaves K th (lastWeight w) (lastWeightTime w) data) s Hpipe Hwf0)
    as (n & Hn & H).
  - rewrite decisions_types. apply AlertType_values_NoDup.
  - apply decisions_complete.
  - by rewrite Hst.
  - exists w', n. split; [exact E|]. split; [lia|]. by rewrite <- Htr.
Qed.

(** ** Relations that every step of the engine keeps *)

Section StepRelation.
Context (env : Env) (R : World -> World -> Prop).
Hypothesis R_refl : forall w, R w w.
Hypothesis R_trans : forall w1 w2 w3, R w1 w2 -> R w2 w3 -> R w1 w3.
Hypothesis R_test :
  forall type enter leave onEnter onLeave value w,
    wf w -> R w (after_check type enter leave onEnter onLeave value env w).
Hypothesis R_track :
  forall x t w, wf w -> R w (with_lastWeightTime t (with_lastWeight x w)).
Hypothesis R_load : forall w, wf w -> R w (after_load env w).
Hypothesis R_log : forall level line w, wf w -> R w (with_effect (Logger level line) w).

Lemma pipeline_related steps w w' : pipeline env steps w w' -> wf w -> R w w'.
Proof.
  induction 1 as [w|type enter leave onEnter onLeave value rest w w' _ IH
                 |x t rest w w' _ IH]; intros Hwf.
  - apply R_refl.
  - eapply R_trans; [by apply R_test|]. by apply IH, after_check_wf.
  - eapply R_trans; [by apply R_track|]. by apply IH.
Qed.

Lemma handleTelemetryInsert_related data w :
  wf w -> R w (snd (handleTelemetryInsert data env w)).
Proof.
  intros Hwf.
  assert (Hav : (exists th, available env w th)
                \/ (thresholds w = None
                    /\ forall row, select_result env (selects w) <> SelectRow row)).
  { unfold available. destruct (thresholds w) as [th|]; [by left; exists th; left|].
    destruct (select_result env (selects w)) as [row| |] eqn:Hsel.
    - left. exists row. by right.
    - by right.
    - by right. }
  destruct Hav as [[th Hav]|[Hth Hnone]].
  - destruct (handleTelemetryInsert_tests data env w th Hwf Hav)
      as (w0 & w' & E & Hw0 & Hwf0 & Hpipe).
    rewrite E. cbn [snd].
    apply R_trans with w0; [|by apply (pipeline_related _ _ _ Hpipe)].
    destruct Hw0 as [->|[_ ->]]; [apply R_refl|by apply R_load].
  - rewrite handleTelemetryInsert_unavailable by done. cbn [snd].
    eapply R_trans; [by apply R_load|]. by apply R_log, after_load_wf.
Qed.

Lemma run_related readings w : wf w -> R w (run readings env w).
Proof.
  revert w. induction readings as [|r rest IH]; intros w Hwf; cbn [run].
  - apply R_refl.
  - eapply R_trans; [by apply handleTelemetryInsert_related|].
    apply IH.
    destruct (handleTelemetryInsert_steps r env w Hwf) as (w' & E & Hwf' & _).
    by rewrite E.
Qed.
End StepRelation.

(** ** Invariants *)







(** ** Pacing *)










(** ** The handler, kind by kind *)

Lemma thresholds_at_hand_or_not env w :
  (exists th, available env w th)
  \/ (thresholds w = None /\ forall row, select_result env (selects w) <> SelectRow row).
Proof.
  unfold available. destruct (thresholds w) as [th|]; [by left; exists th; left|].
  destruct (select_result env (selects w)) as [row| |] eqn:Hsel.
  - left. exists row. by right.
  - by right.
  - by right.
Qed.



(** ** One transition per kind and reading *)

Lemma audit_attempts_app l1 l2 :
  audit_attempts (l1 ++ l2) = audit_attempts l1 ++ audit_attempts l2.
Proof. apply omap_app. Qed.

Lemma after_check_attempts type enter leave onEnter onLeave value env w :
  wf w ->
  exists rows,
    audit_attempts (trace (after_check type enter leave onEnter onLeave value env w))
    = audit_attempts (trace w) ++ rows
    /\ length rows <= 1.
Proof.
  intros Hwf. destruct (Hwf type) as [s Hs].
  destruct (after_check_cases type enter leave onEnter onLeave value env w s Hs)
    as [[_ ->]|[[_ [line ->]]|[(_ & _ & _ & ->)|(_ & _ & _ & ->)]]].
  - exists []. split; [by rewrite app_nil_r|cbn; lia].
  - exists []. split; [|cbn; lia]. cbv [with_effect with_clock_read trace]. fold (trace w).
    by rewrite audit_attempts_app.
  - exists [trigger_row type onEnter]. split; [|cbn; lia].
    cbv [trigger_accepted trace]. fold (trace w).
    rewrite !audit_attempts_app. f_equal.
    by destruct (debounceTimer s), (insert_rejects env (inserts w)).
  - exists [clear_row type onLeave]. split; [|cbn; lia].
    cbv [clear_accepted trace]. fold (trace w).
    rewrite !audit_attempts_app. f_equal.
    by destruct (insert_rejects env (inserts w)).
Qed.

Lemma pipeline_attempts env steps w w' :
  pipeline env steps w w' -> wf w ->
  exists rows,
    audit_attempts (trace w') = audit_attempts (trace w) ++ rows
    /\ length rows <= length steps.
Proof.
  induction 1 as [w|type enter leave onEnter onLeave value rest w w' _ IH
                 |x t rest w w' _ IH]; intros Hwf.
  - exists []. split; [by rewrite app_nil_r|cbn; lia].
  - destruct (after_check_attempts type enter leave onEnter onLeave value env w Hwf)
      as (rows1 & E1 & H1).
    destruct (IH (after_check_wf _ _ _ _ _ _ _ _ Hwf)) as (rows2 & E2 & H2).
    exists (rows1 ++ rows2). rewrite E2, E1, app_assoc, length_app. cbn [length].
    split; [done|lia].
  - by apply IH.
Qed.

(** X2.  Whatever the outside does, the handler of one reading makes at
    most one transition of each kind, and hands at most ten rows to the
    audit log. *)
Theorem X2_one_transition_per_kind_and_reading data env w :
  wf w ->
  let w' := snd (handleTelemetryInsert data env w) in
  (forall K, exists dirs,
      transitions K (trace w') = transitions K (trace w) ++ dirs /\ length dirs <= 1)
  /\ exists rows,
       audit_attempts (trace w') = audit_attempts (trace w) ++ rows
       /\ length rows <= 10.
Proof.
  intros Hwf. cbv zeta.
  destruct (thresholds_at_hand_or_not env w) as [[th Hav]|[Hth Hnone]].
  - split.
    + intros K. destruct (Hwf K) as [s Hs].
      destruct (handleTelemetryInsert_decides data env w th K s Hwf Hav Hs)
        as (w' & n & E & _ & Htr & _).
      rewrite E. cbn [snd]. eexists. split; [exact Htr|].
      destruct (check_transition _ _ _ _); cbn; lia.
    + destruct (handleTelemetryInsert_tests data env w th Hwf Hav)
        as (w0 & w' & E & Hw0 & Hwf0 & Hpipe).
      rewrite E. cbn [snd].
      destruct (pipeline_attempts _ _ _ _ Hpipe Hwf0) as (rows & Hrows & Hlen).
      exists rows. split; [|exact Hlen].
      rewrite Hrows. f_equal.
      destruct Hw0 as [->|[_ ->]]; [done|]. unfold after_load.
      destruct (select_result env (selects w));
        cbv [with_effect with_thresholds with_select trace]; fold (trace w);
        by rewrite !audit_attempts_app, !app_nil_r.
  - rewrite handleTelemetryInsert_unavailable by done. cbn [snd]. split.
    + intros K. exists []. split; [|cbn; lia]. rewrite app_nil_r.
      pose proof (handleTelemetryInsert_unavailable_quiet K data env w Hth Hnone) as Hq.
      rewrite handleTelemetryInsert_unavailable in Hq by done. apply Hq.
    + exists []. split; [|cbn; lia]. rewrite app_nil_r. unfold after_load.
      destruct (select_result env (selects w));
        cbv [with_effect with_thresholds with_select trace]; fold (trace w);
        by rewrite !audit_attempts_app, !app_nil_r.
Qed.

Lemma X2_witness :
  wf constructor
  /\ let w' := snd (handleTelemetryInsert (sample_reading 0 40 50) sample_env constructor) in
     (forall K, exists dirs,
         transitions K (trace w') = transitions K (trace constructor) ++ dirs
         /\ length dirs <= 1)
     /\ exists rows,
          audit_attempts (trace w') = audit_attempts (trace constructor) ++ rows
          /\ length rows <= 10.
Proof.
  exact (conj constructor_wf
           (X2_one_transition_per_kind_and_reading (sample_reading 0 40 50) sample_env
              constructor constructor_wf)).
Defined.

(** ** Readings that are not numbers *)

Lemma SFcompare_refl (x : spec_float) :
  x <> S754_nan -> SFcompare x x = Some Eq.
Proof.
  destruct x as [sg|sg| |sg m e]; intros Hx; try done; cbn [SFcompare].
  - by destruct sg.
  - change (PosDef.Pos.compare_cont Eq) with Pos.compare.
    rewrite Z.compare_refl, Pos.compare_refl. by destruct sg.
Qed.

Lemma is_nan_Prim2SF (v : float) :
  PrimFloat.is_nan v = true -> Prim2SF v = S754_nan.
Proof.
  unfold PrimFloat.is_nan. rewrite FloatAxioms.eqb_spec. unfold SFeqb. intros H.
  destruct (Prim2SF v) as [sg|sg| |sg m e] eqn:Hv; try reflexivity;
    rewrite SFcompare_refl in H by done; discriminate.
Qed.

Lemma SFcompare_nan_r (x : spec_float) : SFcompare x S754_nan = None.
Proof. by destruct x. Qed.

(** Every comparison with NaN is false. *)
Lemma nan_comparisons (v x : float) :
  PrimFloat.is_nan v = true ->
  Js.lt v x = false /\ Js.gt v x = false /\ Js.le v x = false /\ Js.ge v x = false.
Proof.
  intros Hv%is_nan_Prim2SF. unfold Js.lt, Js.gt, Js.le, Js.ge.
  rewrite !ltb_spec, !leb_spec, Hv. unfold SFltb, SFleb.
  by rewrite SFcompare_nan_r.
Qed.

Lemma nan_weightDiff previousWeight data :
  PrimFloat.is_nan (weightKg data) = true ->
  Js.gt (weightDiff previousWeight data) 0 = false.
Proof.
  intros Hv%is_nan_Prim2SF. unfold Js.gt, weightDiff.
  rewrite ltb_spec, sub_spec, Hv. unfold SF64sub, SFsub.
  by destruct (Prim2SF previousWeight).
Qed.

Lemma nan_asks_for_nothing K th pw pt data v :
  sensor K data = Some v -> PrimFloat.is_nan v = true ->
  enters K th pw pt data = false /\ leaves K th pw pt data = false.
Proof.
  intros Hv Hnan.
  destruct K; cbn [sensor enters leaves] in *;
    try (injection Hv as <-;
         repeat match goal with
                | |- context [Js.lt ?a ?b] =>
                    rewrite (proj1 (nan_comparisons _ b Hnan))
                | |- context [Js.gt ?a ?b] =>
                    rewrite (proj1 (proj2 (nan_comparisons _ b Hnan)))
                | |- context [Js.le ?a ?b] =>
                    rewrite (proj1 (proj2 (proj2 (nan_comparisons _ b Hnan))))
                | |- context [Js.ge ?a ?b] =>
                    rewrite (proj2 (proj2 (proj2 (nan_comparisons _ b Hnan))))
                end; by split).
  - injection Hv as <-.
    destruct pw as [previousWeight|], pt as [previousTime|]; try by split.
    unfold drop_evaluated. rewrite (nan_weightDiff _ _ Hnan), !andb_false_r. by split.
  - destruct (dailyHoneyGainG data) as [| |honeyGain]; try discriminate.
    injection Hv as <-.
    rewrite (proj1 (nan_comparisons _ _ Hnan)), (proj1 (proj2 (nan_comparisons _ _ Hnan))).
    by split.
Qed.

(** X3.  A reading whose sensor value for a kind is NaN makes no
    transition of that kind and leaves its state as it was, whatever the
    thresholds and whether the alert is active or not: the trigger
    condition and the clear condition are comparisons, and both are false
    on NaN.  An active alert is thus never cleared by a NaN reading, nor an
    inactive one triggered. *)
Theorem X3_nan_reading_makes_no_transition data env w K v :
  wf w ->
  sensor K data = Some v ->
  PrimFloat.is_nan v = true ->
  let r := handleTelemetryInsert data env w in
  fst r = Ret tt
  /\ alertStates (snd r) !! K = alertStates w !! K
  /\ transitions K (trace (snd r)) = transitions K (trace w).
Proof.
  intros Hwf Hv Hnan. cbv zeta.
  destruct (thresholds_at_hand_or_not env w) as [[th Hav]|[Hth Hnone]].
  - destruct (Hwf K) as [s Hs].
    destruct (handleTelemetryInsert_decides data env w th K s Hwf Hav Hs)
      as (w' & n & E & _ & Htr & _ & Hsame).
    destruct (nan_asks_for_nothing K th (lastWeight w) (lastWeightTime w) data v Hv Hnan)
      as [Henter Hleave].
    rewrite E. cbn [fst snd]. rewrite Henter, Hleave in *.
    unfold check_transition in *. cbn [andb] in *.
    rewrite Htr, app_nil_r, Hs. repeat split. by apply Hsame.
  - split; [by rewrite handleTelemetryInsert_unavailable|].
    apply (handleTelemetryInsert_unavailable_quiet K data env w Hth Hnone).
Qed.

Lemma X3_witness :
  wf ready
  /\ sensor TEMP_HIGH (sample_reading 0 nan 50) = Some nan
  /\ PrimFloat.is_nan nan = true
  /\ let r := handleTelemetryInsert (sample_reading 0 nan 50) sample_env ready in
     fst r = Ret tt
     /\ alertStates (snd r) !! TEMP_HIGH = alertStates ready !! TEMP_HIGH
     /\ transitions TEMP_HIGH (trace (snd r)) = transitions TEMP_HIGH (trace ready).
Proof.
  exact (conj ready_wf
           (conj eq_refl
              (conj eq_refl
                 (X3_nan_reading_makes_no_transition (sample_reading 0 nan 50) sample_env
                    ready TEMP_HIGH nan ready_wf eq_refl eq_refl)))).
Defined.

(** ** The first reading after a start *)

Lemma check_transition_initial enter leave now :
  check_transition enter leave initial_AlertState now
  = if enter then Some TRIGGERED else None.
Proof. unfold check_transition. by destruct enter, leave. Qed.

(** X4.  On a freshly constructed engine whose first query for thresholds
    delivers a row, the first reading triggers exactly the kinds whose
    trigger condition it meets: nothing is debounced, whatever the clock
    reads, and each such kind ends up active with one TRIGGERED transition,
    every other kind inactive with none.  The weight drop is never among
    them, there being no previous weight to compare with. *)
Theorem X4_first_reading_after_a_start data env th K :
  select_result env 0 = SelectRow th ->
  let r := handleTelemetryInsert data env constructor in
  fst r = Ret tt
  /\ transitions K (trace (snd r))
     = (if enters K th None None data then [TRIGGERED] else [])
  /\ isActive <$> alertStates (snd r) !! K = Some (enters K th None None data)
  /\ transitions WEIGHT_DROP (trace (snd r)) = [].
Proof.
  intros Hrow. cbv zeta.
  assert (Hav : available env constructor th) by (by right).
  assert (Hs : forall K', alertStates constructor !! K' = Some initial_AlertState)
    by (intros []; vm_compute; reflexivity).
  destruct (handleTelemetryInsert_decides data env constructor th K initial_AlertState
              constructor_wf Hav (Hs K)) as (w' & n & E & _ & Htr & Hact & _).
  destruct (handleTelemetryInsert_decides data env constructor th WEIGHT_DROP
              initial_AlertState constructor_wf Hav (Hs WEIGHT_DROP))
    as (w'' & n' & E' & _ & Htr' & _).
  rewrite E in E'. injection E' as <-.
  rewrite E. cbn [fst snd].
  rewrite check_transition_initial in Htr, Hact, Htr'.
  change (lastWeight constructor) with (@None float) in *.
  change (lastWeightTime constructor) with (@None Z) in *.
  change (trace constructor) with (@nil Effect) in *.
  rewrite Htr, Hact, Htr'. repeat split.
  - by destruct (enters K th None None data).
  - by destruct (enters K th None None data).
Qed.

Lemma X4_witness :
  select_result sample_env 0 = SelectRow sample_thresholds
  /\ let r := handleTelemetryInsert (sample_reading 0 40 50) sample_env constructor in
     fst r = Ret tt
     /\ transitions TEMP_HIGH (trace (snd r))
        = (if enters TEMP_HIGH sample_thresholds None None (sample_reading 0 40 50)
           then [TRIGGERED] else [])
     /\ isActive <$> alertStates (snd r) !! TEMP_HIGH
        = Some (enters TEMP_HIGH sample_thresholds None None (sample_reading 0 40 50))
     /\ transitions WEIGHT_DROP (trace (snd r)) = [].
Proof.
  exact (conj eq_refl
           (X4_first_reading_after_a_start (sample_reading 0 40 50) sample_env
              sample_thresholds TEMP_HIGH eq_refl)).
Defined.

(** ** What holds of every state the engine reaches *)

Lemma onModuleInit_run env w :
  onModuleInit env w
  = (Ret tt, with_effect (Logger LLog [Str "🚨 Alert engine initialized"]) (after_load env w)).
Proof.
  unfold onModuleInit. erewrite bind_run by apply loadThresholds_run. reflexivity.
Qed.







(** ** The cache of thresholds *)

(** X7.  Once thresholds are cached, no run of the engine ever changes
    them or queries the database again, whatever rows the database would
    deliver: thresholds edited after the first load do not reach a running
    engine. *)
Theorem X7_cached_thresholds_are_never_reloaded readings env w th :
  wf w ->
  thresholds w = Some th ->
  thresholds (run readings env w) = Some th
  /\ selects (run readings env w) = selects w.
Proof.
  revert w. induction readings as [|r rest IH]; intros w Hwf Hth; cbn [run]; [done|].
  destruct (handleTelemetryInsert_cached r env w th Hwf Hth) as (w' & E & H).
  rewrite E. cbn [snd].
  destruct (ck_advance _ _ _ H) as [Hwf' Hth' Hsel' _ _].
  destruct (IH w' Hwf') as [-> ->]; [by rewrite Hth'|]. by rewrite Hsel'.
Qed.

Lemma X7_witness :
  wf ready
  /\ thresholds ready = Some sample_thresholds
  /\ thresholds (run [sample_reading 0 40 50; sample_reading 1000 33 50] empty_env ready)
     = Some sample_thresholds
  /\ selects (run [sample_reading 0 40 50; sample_reading 1000 33 50] empty_env ready)
     = selects ready.
Proof.
  exact (conj ready_wf
           (conj eq_refl
              (X7_cached_thresholds_are_never_reloaded
                 [sample_reading 0 40 50; sample_reading 1000 33 50] empty_env ready
                 sample_thresholds ready_wf eq_refl))).
Defined.

(** X8.  Loading the thresholds never throws, whatever the database does:
    it makes one query; a row is cached, replacing what was cached before,
    while on no row or on a rejected query what was cached is kept, and a
    line is logged; the alert states and the weight tracker are not
    touched, no transition is made and nothing is published.  The module
    initialisation, which only loads and logs, returns normally too, with
    the same thresholds. *)
Theorem X8_loading_thresholds_never_throws env w :
  let r := loadThresholds env w in
  fst r = Ret tt
  /\ selects (snd r) = S (selects w)
  /\ thresholds (snd r)
     = match select_result env (selects w) with
       | SelectRow row => Some row
       | SelectEmpty | SelectRejected => thresholds w
       end
  /\ alertStates (snd r) = alertStates w
  /\ lastWeight (snd r) = lastWeight w
  /\ lastWeightTime (snd r) = lastWeightTime w
  /\ (forall K, transitions K (trace (snd r)) = transitions K (trace w))
  /\ published (trace (snd r)) = published (trace w)
  /\ (exists level line,
        trace (snd r)
        = trace w ++ [DbSelectThresholds (select_result env (selects w)); Logger level line])
  /\ fst (onModuleInit env w) = Ret tt
  /\ thresholds (snd (onModuleInit env w)) = thresholds (snd r)
  /\ alertStates (snd (onModuleInit env w)) = alertStates w.
Proof.
  cbv zeta. rewrite onModuleInit_run, loadThresholds_run. cbn [fst snd].
  destruct (after_load_tracker env w) as (Hpw & Hpt & Hstates & _).
  split; [done|]. split; [apply after_load_selects|].
  split; [by rewrite after_load_thresholds; destruct (select_result env (selects w))|].
  repeat split; auto.
  - intros K. apply after_load_quiet.
  - unfold after_load. destruct (select_result env (selects w));
      cbv [with_effect with_thresholds with_select trace]; fold (trace w);
      by rewrite !published_app, !app_nil_r.
  - unfold after_load. destruct (select_result env (selects w)); do 2 eexists;
      cbv [with_effect with_thresholds with_select trace]; fold (trace w);
      by rewrite <- !app_assoc.
Qed.

(** ** A threshold below zero *)

(** X9.  The honey-gain check clears above [threshold * (1 + 0.05)], which
    for a threshold below zero lies below the threshold itself: the band
    between the two is then not a dead band but one where both conditions
    hold.  A gain in that band flips the alert at every reading that the
    debounce lets through: it triggers the alert when inactive and clears
    it when active.  The default threshold, -200 g, is such a threshold,
    with the band from -210 to -200. *)
Theorem X9_honey_gain_band_is_inverted_below_zero data env w th s x :
  wf w ->
  thresholds w = Some th ->
  alertStates w !! HONEY_GAIN_LOW = Some s ->
  dailyHoneyGainG data = Js.Val x ->
  Js.lt x (minDailyHoneyGainG th) = true ->
  Js.gt x (minDailyHoneyGainG th * (1 + ALERT_HYSTERESIS_PERCENT)) = true ->
  let now := clock env (clock_reads w) in
  let r := checkHoneyGainAlerts data env w in
  let flip :=
    if isActive s
    then (if debounced (lastClearedAt s) now then None else Some CLEARED)
    else (if debounced (lastTriggeredAt s) now then None else Some TRIGGERED) in
  fst r = Ret tt
  /\ transitions HONEY_GAIN_LOW (trace (snd r))
     = transitions HONEY_GAIN_LOW (trace w) ++ option_list flip
  /\ isActive <$> alertStates (snd r) !! HONEY_GAIN_LOW = Some (active_after flip s).
Proof.
  intros Hwf Hth Hs Hx Hlow Hhigh. cbv zeta.
  destruct (checkHoneyGainAlerts_run data env w th Hwf Hth) as (onEnter & onLeave & E).
  rewrite E. cbn [fst snd]. unfold after_honey. rewrite Hx.
  change ALERT_HYSTERESIS_PERCENT with HYSTERESIS_PERCENT in Hhigh.
  rewrite Hlow, Hhigh.
  destruct (after_check_effect HONEY_GAIN_LOW true true onEnter onLeave x env w s Hs)
    as (-> & -> & _).
  unfold check_transition. cbn [andb]. by destruct (isActive s).
Qed.

Lemma X9_witness :
  let w := with_thresholds (Some DEFAULT_THRESHOLDS) constructor in
  wf w
  /\ thresholds w = Some DEFAULT_THRESHOLDS
  /\ alertStates w !! HONEY_GAIN_LOW = Some initial_AlertState
  /\ dailyHoneyGainG (honey_reading 0 (-205)) = Js.Val (-205)%float
  /\ Js.lt (-205) (minDailyHoneyGainG DEFAULT_THRESHOLDS) = true
  /\ Js.gt (-205) (minDailyHoneyGainG DEFAULT_THRESHOLDS * (1 + ALERT_HYSTERESIS_PERCENT))
     = true
  /\ transitions HONEY_GAIN_LOW
       (trace (snd (checkHoneyGainAlerts (honey_reading 0 (-205)) seeded_env w)))
     = [TRIGGERED].
Proof.
  cbv zeta.
  assert (Hs : alertStates (with_thresholds (Some DEFAULT_THRESHOLDS) constructor)
                 !! HONEY_GAIN_LOW = Some initial_AlertState)
    by (vm_compute; reflexivity).
  destruct (X9_honey_gain_band_is_inverted_below_zero (honey_reading 0 (-205)) seeded_env
              (with_thresholds (Some DEFAULT_THRESHOLDS) constructor) DEFAULT_THRESHOLDS
              initial_AlertState (-205)%float constructor_wf eq_refl Hs eq_refl
              eq_refl eq_refl) as (_ & Htr & _).
  exact (conj constructor_wf
           (conj eq_refl (conj Hs (conj eq_refl (conj eq_refl (conj eq_refl Htr)))))).
Defined.

(** With the default thresholds, the same honey gain of -205 g read twice
    triggers the alert and then clears it. *)
Example honey_gain_flaps_at_minus_205 :
  transitions HONEY_GAIN_LOW
    (trace (run [honey_reading 0 (-205); honey_reading 180000 (-205)]
              seeded_env constructor))
  = [TRIGGERED; CLEARED].
Proof. vm_compute. reflexivity. Qed.

(** ** A weight drop that does not end *)

Lemma drop_not_evaluated_asks_for_nothing w data th :
  drop_not_evaluated w data ->
  enters WEIGHT_DROP th (lastWeight w) (lastWeightTime w) data = false
  /\ leaves WEIGHT_DROP th (lastWeight w) (lastWeightTime w) data = false.
Proof.
  unfold enters, leaves, drop_evaluated.
  intros [-> |[Hpt|(pw & pt & -> & -> & Hnot)]]; [done| |].
  - rewrite Hpt. by destruct (lastWeight w).
  - destruct Hnot as [-> |[-> | ->]]; by rewrite ?andb_false_r.
Qed.

(** X16.  The weight check clears its alert inside the test that it makes
    only for a reading that shows a weight loss within an hour of the
    previous one.  A reading for which that test is not made, because the
    weight is the same or higher, or the reading is more than an hour
    after the previous one, or not after it, or the tracker is empty,
    makes no transition of [WEIGHT_DROP] and leaves its state as it was:
    an active weight-drop alert stays active over any such reading. *)
Theorem X16_weight_drop_clears_only_on_a_loss data env w :
  wf w ->
  drop_not_evaluated w data ->
  let r := handleTelemetryInsert data env w in
  fst r = Ret tt
  /\ alertStates (snd r) !! WEIGHT_DROP = alertStates w !! WEIGHT_DROP
  /\ transitions WEIGHT_DROP (trace (snd r)) = transitions WEIGHT_DROP (trace w).
Proof.
  intros Hwf Hnot. cbv zeta.
  destruct (thresholds_at_hand_or_not env w) as [[th Hav]|[Hth Hnone]].
  - destruct (Hwf WEIGHT_DROP) as [s Hs].
    destruct (handleTelemetryInsert_decides data env w th WEIGHT_DROP s Hwf Hav Hs)
      as (w' & n & E & _ & Htr & _ & Hsame).
    destruct (drop_not_evaluated_asks_for_nothing w data th Hnot) as [Henter Hleave].
    rewrite E. cbn [fst snd]. rewrite Henter, Hleave in *.
    unfold check_transition in *. cbn [andb] in *.
    rewrite Htr, app_nil_r, Hs. repeat split. by apply Hsame.
  - split; [by rewrite handleTelemetryInsert_unavailable|].
    apply (handleTelemetryInsert_unavailable_quiet WEIGHT_DROP data env w Hth Hnone).
Qed.

Lemma X16_witness :
  wf dropping
  /\ drop_not_evaluated dropping (sample_reading 1000 33 60)
  /\ let r := handleTelemetryInsert (sample_reading 1000 33 60) sample_env dropping in
     fst r = Ret tt
     /\ alertStates (snd r) !! WEIGHT_DROP = alertStates dropping !! WEIGHT_DROP
     /\ transitions WEIGHT_DROP (trace (snd r)) = transitions WEIGHT_DROP (trace dropping).
Proof.
  assert (Hnot : drop_not_evaluated dropping (sample_reading 1000 33 60)).
  { right; right. exists 50%float, 0%Z. repeat split. right; right. reflexivity. }
  exact (conj (ready_with_wf _ _)
           (conj Hnot
              (X16_weight_drop_clears_only_on_a_loss (sample_reading 1000 33 60) sample_env
                 dropping (ready_with_wf _ _) Hnot))).
Defined.

(** The alert of the witness stays active over a reading ten kilograms
    heavier, and over one an hour and a second later that shows a loss of
    one gram. *)
Example weight_drop_outlives_a_recovery :
  isActive <$> alertStates
                 (run [sample_reading 1000 33 60; sample_reading 3602000 33 59.999]
                    sample_env dropping) !! WEIGHT_DROP
  = Some true.
Proof. vm_compute. reflexivity. Qed.

(* ------------------------------------------------------------------ *)
(** * The gateway *)

Lemma published_directions_published K tr :
  published_directions K tr
  = omap (fun event : string * AlertEvent => event_direction K event.1 event.2)
      (published tr).
Proof.
  induction tr as [|e tr IH]; [done|].
  unfold published_directions, published in *. cbn [omap list_omap].
  destruct e as [| | name payload | |]; cbn [omap list_omap]; by rewrite IH.
Qed.

Lemma alerts_app o1 o2 : Gateway.alerts (o1 ++ o2) = Gateway.alerts o1 ++ Gateway.alerts o2.
Proof. apply omap_app. Qed.

Lemma broadcasts_app o1 o2 :
  Gateway.broadcasts (o1 ++ o2) = Gateway.broadcasts o1 ++ Gateway.broadcasts o2.
Proof. apply omap_app. Qed.

Lemma broadcast_directions_app K o1 o2 :
  Gateway.broadcast_directions K (o1 ++ o2)
  = Gateway.broadcast_directions K o1 ++ Gateway.broadcast_directions K o2.
Proof. unfold Gateway.broadcast_directions. by rewrite alerts_app, omap_app. Qed.

(** What the gateway tells of one event of the engine. *)
Lemma on_alert_event_directions K event g :
  Gateway.broadcast_directions K (Gateway.out (Gateway.on_alert_event event g))
  = Gateway.broadcast_directions K (Gateway.out g)
    ++ option_list (event_direction K event.1 event.2).
Proof.
  destruct event as [name payload]. unfold Gateway.on_alert_event, event_direction.
  cbn [fst snd].
  destruct (decide (name = "alert.triggered")) as [->|Hname].
  - cbn [Gateway.handleAlertTriggered Gateway.send Gateway.out].
    rewrite <- app_assoc, broadcast_directions_app. by f_equal.
  - destruct (decide (name = "alert.cleared")) as [->|Hname'].
    + cbn [Gateway.handleAlertCleared Gateway.send Gateway.out].
      rewrite <- app_assoc, broadcast_directions_app. by f_equal.
    + destruct (decide (ev_type payload = K)); by rewrite app_nil_r.
Qed.

Lemma deliver_directions K events g :
  Gateway.broadcast_directions K (Gateway.out (Gateway.deliver events g))
  = Gateway.broadcast_directions K (Gateway.out g)
    ++ omap (fun event : string * AlertEvent => event_direction K event.1 event.2) events.
Proof.
  revert g. induction events as [|event events IH]; intros g.
  - by rewrite app_nil_r.
  - unfold Gateway.deliver in *. cbn [foldl]. rewrite IH, on_alert_event_directions.
    rewrite <- app_assoc. f_equal. cbn [omap list_omap].
    by destruct (event_direction K event.1 event.2).
Qed.

Lemma on_alert_event_relays event g :
  event.1 = "alert.triggered" \/ event.1 = "alert.cleared" ->
  exists p,
    Gateway.alerts (Gateway.out (Gateway.on_alert_event event g))
    = Gateway.alerts (Gateway.out g) ++ [p]
    /\ Gateway.relays event p.
Proof.
  destruct event as [name payload]. cbn [fst snd]. unfold Gateway.on_alert_event.
  cbn [fst snd]. intros [-> | ->].
  - rewrite decide_True by done. eexists. split.
    + cbn [Gateway.handleAlertTriggered Gateway.send Gateway.out].
      rewrite <- app_assoc, alerts_app. reflexivity.
    + by repeat split.
  - rewrite decide_False by done. rewrite decide_True by done. eexists. split.
    + cbn [Gateway.handleAlertCleared Gateway.send Gateway.out].
      rewrite <- app_assoc, alerts_app. reflexivity.
    + by repeat split.
Qed.

Lemma deliver_relays events g :
  Forall (fun event : string * AlertEvent =>
            event.1 = "alert.triggered" \/ event.1 = "alert.cleared") events ->
  exists ps,
    Gateway.alerts (Gateway.out (Gateway.deliver events g)) = Gateway.alerts (Gateway.out g) ++ ps
    /\ Forall2 Gateway.relays events ps.
Proof.
  intros Hnames. revert g. induction Hnames as [|event events Hname _ IH]; intros g.
  - exists []. split; [by rewrite app_nil_r|constructor].
  - destruct (on_alert_event_relays event g Hname) as (p & Hp & Hrel).
    destruct (IH (Gateway.on_alert_event event g)) as (ps & Hps & Hrels).
    exists (p :: ps). split; [|by constructor].
    unfold Gateway.deliver in *. cbn [foldl]. rewrite Hps, Hp, <- app_assoc. reflexivity.
Qed.

(** ** The engine's events reach the dashboards *)

(** The names under which the engine publishes. *)
Lemma after_check_event_names type enter leave onEnter onLeave value env w :
  wf w ->
  exists delta,
    trace (after_check type enter leave onEnter onLeave value env w) = trace w ++ delta
    /\ Forall (fun event : string * AlertEvent =>
                 event.1 = "alert.triggered" \/ event.1 = "alert.cleared")
         (published delta).
Proof.
  intros Hwf. destruct (Hwf type) as [s Hs].
  destruct (after_check_cases type enter leave onEnter onLeave value env w s Hs)
    as [[_ ->]|[[_ [line ->]]|[(_ & _ & _ & ->)|(_ & _ & _ & ->)]]].
  - exists []. split; [by rewrite app_nil_r|constructor].
  - eexists. split; [reflexivity|constructor].
  - eexists. split; [reflexivity|].
    rewrite published_app.
    destruct (debounceTimer s), (insert_rejects env (inserts w)); cbn;
      repeat first [apply Forall_nil_2 | apply Forall_cons_2; [cbn; auto|]].
  - eexists. split; [reflexivity|].
    destruct (insert_rejects env (inserts w)); cbn;
      repeat first [apply Forall_nil_2 | apply Forall_cons_2; [cbn; auto|]].
Qed.

Lemma run_event_names readings env w :
  wf w ->
  exists delta,
    trace (run readings env w) = trace w ++ delta
    /\ Forall (fun event : string * AlertEvent =>
                 event.1 = "alert.triggered" \/ event.1 = "alert.cleared")
         (published delta).
Proof.
  apply (run_related env
           (fun w w' =>
              exists delta,
                trace w' = trace w ++ delta
                /\ Forall (fun event : string * AlertEvent =>
                             event.1 = "alert.triggered" \/ event.1 = "alert.cleared")
                     (published delta))).
  - intros w0. exists []. split; [by rewrite app_nil_r|constructor].
  - intros w1 w2 w3 (d1 & E1 & H1) (d2 & E2 & H2). exists (d1 ++ d2). split.
    + by rewrite E2, E1, app_assoc.
    + rewrite published_app. by apply Forall_app.
  - intros. by apply after_check_event_names.
  - intros x t w0 _. exists []. split; [by rewrite app_nil_r|constructor].
  - intros w0 _. unfold after_load.
    destruct (select_result env (selects w0));
      cbv [with_effect with_thresholds with_select trace]; fold (trace w0);
      rewrite <- app_assoc; eexists; (split; [reflexivity|constructor]).
  - intros level line w0 _. eexists. split; [reflexivity|constructor].
Qed.

(** X10.  Over any run of the engine, a gateway that is handed the events
    the engine publishes broadcasts one alert payload per event, in order,
    each with the event's fields and with the action that the event's name
    gives; so the dashboards are told, for every kind, exactly the
    transitions of the kind whose audit row was written, in the order they
    were made, and nothing of a transition whose write failed. *)
Theorem X10_dashboards_are_told_the_written_transitions readings env w g K :
  wf w ->
  exists delta,
    trace (run readings env w) = trace w ++ delta
    /\ let g' := Gateway.deliver (published delta) g in
       Gateway.broadcast_directions K (Gateway.out g')
       = Gateway.broadcast_directions K (Gateway.out g) ++ written K delta
       /\ exists ps,
            Gateway.alerts (Gateway.out g') = Gateway.alerts (Gateway.out g) ++ ps
            /\ Forall2 Gateway.relays (published delta) ps.
Proof.
  intros Hwf.
  destruct (run_steps readings env w Hwf) as (_ & _ & delta & Hdelta & Hecho).
  destruct (run_event_names readings env w Hwf) as (delta' & Hdelta' & Hnames).
  assert (delta' = delta) as -> by (rewrite Hdelta in Hdelta'; by apply app_inv_head in Hdelta').
  exists delta. split; [exact Hdelta|]. cbv zeta. split.
  - rewrite deliver_directions, <- published_directions_published. f_equal. apply Hecho.
  - by apply deliver_relays.
Qed.

Lemma X10_witness :
  wf constructor
  /\ exists delta,
       trace (run [sample_reading 0 40 50; sample_reading 1000 33 50] sample_env constructor)
       = trace constructor ++ delta
       /\ let g' := Gateway.deliver (published delta) Gateway.initial in
          Gateway.broadcast_directions TEMP_HIGH (Gateway.out g')
          = Gateway.broadcast_directions TEMP_HIGH (Gateway.out Gateway.initial)
            ++ written TEMP_HIGH delta
          /\ exists ps,
               Gateway.alerts (Gateway.out g')
               = Gateway.alerts (Gateway.out Gateway.initial) ++ ps
               /\ Forall2 Gateway.relays (published delta) ps.
Proof.
  exact (conj constructor_wf
           (X10_dashboards_are_told_the_written_transitions
              [sample_reading 0 40 50; sample_reading 1000 33 50] sample_env constructor
              Gateway.initial TEMP_HIGH constructor_wf)).
Defined.

(** The run of the witness is broadcast as a trigger and a clear. *)
Example broadcasts_of_a_sample_run :
  Gateway.broadcast_directions TEMP_HIGH
    (Gateway.out
       (Gateway.deliver
          (published
             (trace (run [sample_reading 0 40 50; sample_reading 1000 33 50]
                       sample_env constructor)))
          Gateway.initial))
  = [TRIGGERED; CLEARED].
Proof. vm_compute. reflexivity. Qed.

(** ** Telemetry deltas *)

Lemma compare_fields_from fullTelemetry last (l : list Gateway.Key) delta hasChanges :
  foldl (fun '(delta, hasChanges) field =>
           let currentValue := Gateway.get fullTelemetry field in
           let lastValue := Gateway.get last field in
           if Gateway.strict_ne currentValue lastValue
           then (delta ++ [(field, currentValue)], true)
           else (delta, hasChanges))
        (delta, hasChanges) l
  = (delta
     ++ map (fun key => (key, Gateway.get fullTelemetry key))
          (List.filter (fun key => Gateway.strict_ne (Gateway.get fullTelemetry key)
                                     (Gateway.get last key)) l),
     hasChanges
     || existsb (fun key => Gateway.strict_ne (Gateway.get fullTelemetry key)
                              (Gateway.get last key)) l).
Proof.
  revert delta hasChanges. induction l as [|key l IH]; intros delta hasChanges.
  - cbn. by rewrite app_nil_r, orb_false_r.
  - cbn [foldl List.filter existsb]. cbv zeta.
    destruct (Gateway.strict_ne (Gateway.get fullTelemetry key) (Gateway.get last key)).
    + rewrite IH. cbn [map orb]. by rewrite <- app_assoc, orb_true_r.
    + rewrite IH. by cbn [orb].
Qed.

Lemma compare_fields_changed fullTelemetry last :
  Gateway.compare_fields fullTelemetry last
  = (map (fun key => (key, Gateway.get fullTelemetry key))
       (Gateway.changed fullTelemetry last),
     match Gateway.changed fullTelemetry last with [] => false | _ :: _ => true end).
Proof.
  unfold Gateway.compare_fields, Gateway.changed.
  rewrite compare_fields_from. cbn [app orb]. f_equal.
  induction Gateway.fields as [|key l IH]; [done|].
  cbn [existsb List.filter].
  by destruct (Gateway.strict_ne (Gateway.get fullTelemetry key) (Gateway.get last key)).
Qed.

Lemma fullTelemetry_of_state telemetryData g :
  Gateway.lastTelemetry (Gateway.fullTelemetry_of telemetryData g).2 = Gateway.lastTelemetry g
  /\ Gateway.connectedClients (Gateway.fullTelemetry_of telemetryData g).2
     = Gateway.connectedClients g
  /\ Gateway.out (Gateway.fullTelemetry_of telemetryData g).2 = Gateway.out g.
Proof.
  unfold Gateway.fullTelemetry_of. by destruct (Gateway.recordedAt telemetryData).
Qed.

(** The handler of a record, by what is cached and what changed. *)
Lemma handleTelemetryCreated_run telemetryData g :
  let fullTelemetry := (Gateway.fullTelemetry_of telemetryData g).1 in
  let g1 := (Gateway.fullTelemetry_of telemetryData g).2 in
  let broadcast delta full :=
    Gateway.with_lastTelemetry fullTelemetry
      (Gateway.send (Gateway.Log LDebug [Str "Broadcasted telemetry delta: ";
                                         Str (Gateway.keys_joined delta)])
         (Gateway.send (Gateway.ServerEmitTelemetry
                          {| Gateway.data := delta; Gateway.full := full |}) g1)) in
  Gateway.handleTelemetryCreated (Js.Val telemetryData) g
  = match Gateway.lastTelemetry g with
    | None => broadcast (Gateway.entries fullTelemetry) (Some fullTelemetry)
    | Some last =>
        match Gateway.changed fullTelemetry last with
        | [] => g1
        | _ :: _ =>
            broadcast (map (fun key => (key, Gateway.get fullTelemetry key))
                         (Gateway.changed fullTelemetry last)) None
        end
    end.
Proof.
  cbv zeta. unfold Gateway.handleTelemetryCreated.
  destruct (fullTelemetry_of_state telemetryData g) as (Hlast & _).
  destruct (Gateway.fullTelemetry_of telemetryData g) as [fullTelemetry g1].
  cbn [fst snd] in *. rewrite Hlast.
  destruct (Gateway.lastTelemetry g) as [last|]; [|reflexivity].
  rewrite compare_fields_changed.
  by destruct (Gateway.changed fullTelemetry last).
Qed.

Lemma changed_is_compared fullTelemetry last key :
  In key (Gateway.changed fullTelemetry last) ->
  In key Gateway.fields
  /\ Gateway.strict_ne (Gateway.get fullTelemetry key) (Gateway.get last key) = true.
Proof. unfold Gateway.changed. by intros H%List.filter_In. Qed.

(** X11.  When a telemetry is cached, the handler of a record broadcasts
    the compared fields whose value is not strictly equal to the cached
    one, each with its new value, in the order of the comparison, and
    caches the new telemetry; the payload has no [full], and its delta
    never holds [id] nor [hiveId], whatever they are.  When no compared
    field differs, nothing is sent or logged and the cache is kept, the
    new [id] with it. *)
Theorem X11_delta_holds_exactly_the_changed_fields telemetryData g last :
  Gateway.lastTelemetry g = Some last ->
  let fullTelemetry := (Gateway.fullTelemetry_of telemetryData g).1 in
  let g' := Gateway.handleTelemetryCreated (Js.Val telemetryData) g in
  let delta :=
    map (fun key => (key, Gateway.get fullTelemetry key))
      (Gateway.changed fullTelemetry last) in
  match Gateway.changed fullTelemetry last with
  | [] =>
      Gateway.out g' = Gateway.out g /\ Gateway.lastTelemetry g' = Some last
  | _ :: _ =>
      Gateway.out g'
      = Gateway.out g
        ++ [Gateway.ServerEmitTelemetry {| Gateway.data := delta; Gateway.full := None |};
            Gateway.Log LDebug [Str "Broadcasted telemetry delta: ";
                                Str (Gateway.keys_joined delta)]]
      /\ Gateway.lastTelemetry g' = Some fullTelemetry
  end
  /\ Gateway.connectedClients g' = Gateway.connectedClients g
  /\ (forall key,
        In key (Gateway.changed fullTelemetry last) <->
        In key Gateway.fields
        /\ Gateway.strict_ne (Gateway.get fullTelemetry key) (Gateway.get last key) = true)
  /\ ~ In Gateway.key_id (Gateway.changed fullTelemetry last)
  /\ ~ In Gateway.key_hiveId (Gateway.changed fullTelemetry last).
Proof.
  intros Hlast. cbv zeta.
  rewrite handleTelemetryCreated_run. cbv zeta. rewrite Hlast.
  destruct (fullTelemetry_of_state telemetryData g) as (Hlast' & Hclients & Hout).
  split; [|split; [|split; [|split]]].
  - destruct (Gateway.changed _ last); [by rewrite Hout, Hlast', Hlast|].
    cbn [Gateway.with_lastTelemetry Gateway.send Gateway.out Gateway.lastTelemetry].
    by rewrite Hout, <- app_assoc.
  - by destruct (Gateway.changed _ last).
  - intros key. unfold Gateway.changed. apply List.filter_In.
  - intros [Hin _]%changed_is_compared. cbn in Hin. intuition discriminate.
  - intros [Hin _]%changed_is_compared. cbn in Hin. intuition discriminate.
Qed.

Lemma X11_witness :
  let g := Gateway.handleTelemetryCreated (Js.Val (Gateway.sample_record 0 0 33))
             Gateway.initial in
  let last := (Gateway.fullTelemetry_of (Gateway.sample_record 0 0 33) Gateway.initial).1 in
  let telemetryData := Gateway.sample_record 1 0 34 in
  Gateway.lastTelemetry g = Some last
  /\ Gateway.changed (Gateway.fullTelemetry_of telemetryData g).1 last
     = [Gateway.key_temperature; Gateway.key_recordedAt]
  /\ Gateway.broadcasts (Gateway.out (Gateway.handleTelemetryCreated (Js.Val telemetryData) g))
     = Gateway.broadcasts (Gateway.out g)
       ++ [{| Gateway.data :=
                [(Gateway.key_temperature, Gateway.VNumber 34);
                 (Gateway.key_recordedAt, Gateway.VDate (Gateway.Given 1 0))];
              Gateway.full := None |}].
Proof.
  cbv zeta.
  destruct (X11_delta_holds_exactly_the_changed_fields (Gateway.sample_record 1 0 34)
              (Gateway.handleTelemetryCreated (Js.Val (Gateway.sample_record 0 0 33))
                 Gateway.initial)
              (Gateway.fullTelemetry_of (Gateway.sample_record 0 0 33) Gateway.initial).1
              eq_refl) as ((Hout & _) & _).
  refine (conj eq_refl (conj eq_refl _)).
  rewrite Hout. reflexivity.
Defined.

(** ** What the gateway keeps over its calls *)

Lemma welcomes_app o1 o2 :
  Gateway.welcomes (o1 ++ o2) = Gateway.welcomes o1 ++ Gateway.welcomes o2.
Proof. apply omap_app. Qed.


Lemma initial_invariant : Gateway.invariant Gateway.initial.
Proof. split; cbn; try done. Qed.

(** A call that broadcasts no telemetry and keeps the cache. *)
Lemma invariant_kept g g' extra :
  Gateway.invariant g ->
  Gateway.lastTelemetry g' = Gateway.lastTelemetry g ->
  Gateway.dates_made g <= Gateway.dates_made g' ->
  Gateway.out g' = Gateway.out g ++ extra ->
  Gateway.broadcasts extra = [] ->
  Forall (fun welcome : string * Gateway.TelemetryDeltaPayload =>
            Gateway.data welcome.2 = [] /\ is_Some (Gateway.full welcome.2))
    (Gateway.welcomes extra) ->
  Gateway.invariant g'.
Proof.
  intros [Hcache Hstream Hwelcomes Hdates] Hlast Hmade Hout Hnone Hextra. split.
  - by rewrite Hlast, Hout, broadcasts_app, Hnone, app_nil_r.
  - by rewrite Hout, broadcasts_app, Hnone, app_nil_r.
  - rewrite Hout, welcomes_app. by apply Forall_app.
  - intros last rank time Hl Hr. rewrite Hlast in Hl.
    pose proof (Hdates last rank time Hl Hr). lia.
Qed.

Lemma stream_update payloads q :
  payloads <> [] -> Gateway.stream payloads -> Gateway.update q ->
  Gateway.stream (payloads ++ [q]).
Proof.
  destruct payloads as [|p rest]; [done|]. intros _ [Hp Hrest] Hq.
  split; [done|]. apply Forall_app. split; [done|]. by constructor.
Qed.

Lemma fullTelemetry_of_date telemetryData g :
  Gateway.dates_made g <= Gateway.dates_made (Gateway.fullTelemetry_of telemetryData g).2
  /\ forall rank time,
       Gateway.recordedAt (Gateway.fullTelemetry_of telemetryData g).1
       = Gateway.Made rank time ->
       rank < Gateway.dates_made (Gateway.fullTelemetry_of telemetryData g).2.
Proof.
  unfold Gateway.fullTelemetry_of.
  destruct (Gateway.recordedAt telemetryData) as [ref time|time]; cbn.
  - split; [lia|]. discriminate.
  - split; [lia|]. intros rank time' [= <- _]. lia.
Qed.

Lemma handleTelemetryCreated_invariant telemetryData g :
  Gateway.invariant g ->
  Gateway.invariant (Gateway.handleTelemetryCreated telemetryData g).
Proof.
  intros Hinv. destruct telemetryData as [| |telemetryData].
  - by eapply invariant_kept.
  - by eapply invariant_kept.
  - rewrite handleTelemetryCreated_run. cbv zeta.
    destruct (fullTelemetry_of_state telemetryData g) as (Hlast & Hclients & Hout).
    destruct (fullTelemetry_of_date telemetryData g) as (Hmade & Hfresh).
    destruct Hinv as [Hcache Hstream Hwelcomes Hdates].
    destruct (Gateway.lastTelemetry g) as [last|] eqn:Hcached.
    + destruct (Gateway.changed _ last) as [|key changed] eqn:Hchanged.
      * split.
        -- by rewrite Hlast, Hout.
        -- by rewrite Hout.
        -- by rewrite Hout.
        -- intros last' rank time Hl Hr. rewrite Hlast in Hl.
           pose proof (Hdates last' rank time ltac:(by rewrite Hcached) Hr). lia.
      * split; cbn [Gateway.with_lastTelemetry Gateway.send Gateway.out
                      Gateway.lastTelemetry Gateway.dates_made].
        -- rewrite Hout, <- app_assoc, broadcasts_app. split; [done|].
           intros [_ H]%app_eq_nil. discriminate H.
        -- rewrite Hout, <- app_assoc, broadcasts_app.
           apply stream_update; [|done|].
           ++ intros Hnil. apply Hcache in Hnil. discriminate Hnil.
           ++ split; [done|]. split; [done|].
              intros key' Hin. unfold Gateway.keys in Hin. cbn [Gateway.data] in Hin.
              rewrite map_map in Hin. cbn [fst] in Hin. rewrite map_id in Hin.
              rewrite <- Hchanged in Hin.
              apply changed_is_compared in Hin as [Hin _]. exact Hin.
        -- by rewrite Hout, <- app_assoc, welcomes_app, app_nil_r.
        -- intros last' rank time [= <-]. apply Hfresh.
    + split; cbn [Gateway.with_lastTelemetry Gateway.send Gateway.out
                    Gateway.lastTelemetry Gateway.dates_made].
      * rewrite Hout, <- app_assoc, broadcasts_app. split; [done|].
        intros [_ H]%app_eq_nil. discriminate H.
      * rewrite Hout, <- app_assoc, broadcasts_app.
        rewrite (proj1 Hcache eq_refl). cbn. split; [|constructor].
        split; [eauto|reflexivity].
      * by rewrite Hout, <- app_assoc, welcomes_app, app_nil_r.
      * intros last' rank time [= <-]. apply Hfresh.
Qed.

Lemma handle_invariant c g :
  Gateway.invariant g -> Gateway.invariant (Gateway.handle c g).
Proof.
  intros Hinv. destruct c as [|client|client|telemetryData|alertData|alertData];
    cbn [Gateway.handle].
  - by eapply invariant_kept.
  - unfold Gateway.handleConnection. cbv zeta.
    cbn [Gateway.send Gateway.with_connectedClients Gateway.lastTelemetry].
    destruct (Gateway.lastTelemetry g) as [last|] eqn:Hlast.
    + eapply invariant_kept; [exact Hinv|done|done|..].
      * cbn [Gateway.send Gateway.out]. by rewrite <- !app_assoc.
      * done.
      * repeat constructor. cbn. eauto.
    + by eapply invariant_kept.
  - by eapply invariant_kept.
  - by apply handleTelemetryCreated_invariant.
  - destruct alertData as [| |alertData]; try (by eapply invariant_kept).
    eapply invariant_kept; [exact Hinv|done|done|..].
    + cbn [Gateway.handleAlertTriggered Gateway.send Gateway.out]. by rewrite <- app_assoc.
    + done.
    + constructor.
  - destruct alertData as [| |alertData]; try (by eapply invariant_kept).
    eapply invariant_kept; [exact Hinv|done|done|..].
    + cbn [Gateway.handleAlertCleared Gateway.send Gateway.out]. by rewrite <- app_assoc.
    + done.
    + constructor.
Qed.

Lemma serve_invariant calls g :
  Gateway.invariant g -> Gateway.invariant (Gateway.serve calls g).
Proof.
  revert g. induction calls as [|c calls IH]; intros g Hinv; [done|].
  unfold Gateway.serve in *. cbn [foldl]. by apply IH, handle_invariant.
Qed.

Lemma handleConnection_welcomes client g :
  Gateway.welcomes (Gateway.out (Gateway.handleConnection client g))
  = Gateway.welcomes (Gateway.out g)
    ++ match Gateway.lastTelemetry g with
       | Some last => [(client, {| Gateway.data := []; Gateway.full := Some last |})]
       | None => []
       end.
Proof.
  unfold Gateway.handleConnection. cbv zeta.
  cbn [Gateway.send Gateway.with_connectedClients Gateway.lastTelemetry].
  destruct (Gateway.lastTelemetry g) as [last|];
    cbn [Gateway.send Gateway.out]; rewrite !welcomes_app; cbn; by rewrite ?app_nil_r.
Qed.

(** X12.  The handler compares [recordedAt] as an object.  In every state
    that the gateway reaches, a record whose [recordedAt] is not the very
    [Date] object that is cached, be it a date of the same time or a value
    that the gateway makes a date of, is broadcast, with [recordedAt] in
    its delta, and cached, even when none of its values has changed; and a
    client that connects next is sent that record in full. *)
Theorem X12_a_new_date_object_is_always_broadcast calls telemetryData client :
  let g := Gateway.serve calls Gateway.initial in
  let g' := Gateway.handleTelemetryCreated (Js.Val telemetryData) g in
  let fullTelemetry := (Gateway.fullTelemetry_of telemetryData g).1 in
  (forall ref time last,
      Gateway.recordedAt telemetryData = Gateway.IsDate ref time ->
      Gateway.lastTelemetry g = Some last ->
      Gateway.same_object (Gateway.Given ref time) (Gateway.recordedAt last) = false) ->
  (exists p,
      Gateway.broadcasts (Gateway.out g') = Gateway.broadcasts (Gateway.out g) ++ [p]
      /\ In Gateway.key_recordedAt (Gateway.keys p))
  /\ Gateway.lastTelemetry g' = Some fullTelemetry
  /\ Gateway.welcomes (Gateway.out (Gateway.handleConnection client g'))
     = Gateway.welcomes (Gateway.out g)
       ++ [(client, {| Gateway.data := []; Gateway.full := Some fullTelemetry |})].
Proof.
  cbv zeta. set (g := Gateway.serve calls Gateway.initial). intros Hnew.
  assert (Hinv : Gateway.invariant g) by apply serve_invariant, initial_invariant.
  assert (Hrun :
    (exists p,
        Gateway.broadcasts
          (Gateway.out (Gateway.handleTelemetryCreated (Js.Val telemetryData) g))
        = Gateway.broadcasts (Gateway.out g) ++ [p]
        /\ In Gateway.key_recordedAt (Gateway.keys p))
    /\ Gateway.lastTelemetry (Gateway.handleTelemetryCreated (Js.Val telemetryData) g)
       = Some (Gateway.fullTelemetry_of telemetryData g).1
    /\ Gateway.welcomes (Gateway.out (Gateway.handleTelemetryCreated (Js.Val telemetryData) g))
       = Gateway.welcomes (Gateway.out g)).
  { rewrite handleTelemetryCreated_run. cbv zeta.
    destruct (fullTelemetry_of_state telemetryData g) as (_ & _ & Hout).
    destruct (Gateway.lastTelemetry g) as [last|] eqn:Hcached.
    - assert (Hin : In Gateway.key_recordedAt
                      (Gateway.changed (Gateway.fullTelemetry_of telemetryData g).1 last)).
      { unfold Gateway.changed. apply List.filter_In. split; [cbn; auto 12|].
        cbn [Gateway.get Gateway.strict_ne]. apply negb_true_iff.
        unfold Gateway.fullTelemetry_of.
        destruct (Gateway.recordedAt telemetryData) as [ref time|time] eqn:Hdate;
          cbn [fst Gateway.recordedAt].
        - by apply (Hnew ref time last).
        - destruct (Gateway.recordedAt last) as [ref' time'|rank time'] eqn:Hlast;
            [reflexivity|].
          cbn [Gateway.same_object]. apply Nat.eqb_neq.
          pose proof (Gateway.inv_dates _ Hinv last rank time' Hcached Hlast). lia. }
      destruct (Gateway.changed _ last) as [|key changed] eqn:Hchanged; [destruct Hin|].
      cbn [Gateway.with_lastTelemetry Gateway.send Gateway.out Gateway.lastTelemetry].
      rewrite Hout, <- app_assoc, broadcasts_app, welcomes_app, app_nil_r.
      split; [|done]. eexists. split; [reflexivity|].
      unfold Gateway.keys. cbn [Gateway.data]. rewrite map_map. cbn [fst].
      by rewrite map_id.
    - cbn [Gateway.with_lastTelemetry Gateway.send Gateway.out Gateway.lastTelemetry].
      rewrite Hout, <- app_assoc, broadcasts_app, welcomes_app, app_nil_r.
      split; [|done]. eexists. split; [reflexivity|]. cbn. auto. }
  destruct Hrun as (Hbroadcast & Hcache & Hwelcomes).
  split; [exact Hbroadcast|]. split; [exact Hcache|].
  by rewrite handleConnection_welcomes, Hcache, Hwelcomes.
Qed.

Lemma X12_witness :
  let g := Gateway.serve
             [Gateway.TelemetryCreated (Js.Val (Gateway.sample_record 0 0 33))]
             Gateway.initial in
  let telemetryData := Gateway.sample_record 1 0 33 in
  let g' := Gateway.handleTelemetryCreated (Js.Val telemetryData) g in
  (forall ref time last,
      Gateway.recordedAt telemetryData = Gateway.IsDate ref time ->
      Gateway.lastTelemetry g = Some last ->
      Gateway.same_object (Gateway.Given ref time) (Gateway.recordedAt last) = false)
  /\ (exists p,
         Gateway.broadcasts (Gateway.out g') = Gateway.broadcasts (Gateway.out g) ++ [p]
         /\ In Gateway.key_recordedAt (Gateway.keys p))
  /\ Gateway.lastTelemetry g' = Some (Gateway.fullTelemetry_of telemetryData g).1.
Proof.
  cbv zeta.
  assert (Hnew : forall ref time last,
      Gateway.recordedAt (Gateway.sample_record 1 0 33) = Gateway.IsDate ref time ->
      Gateway.lastTelemetry
        (Gateway.serve [Gateway.TelemetryCreated (Js.Val (Gateway.sample_record 0 0 33))]
           Gateway.initial) = Some last ->
      Gateway.same_object (Gateway.Given ref time) (Gateway.recordedAt last) = false).
  { intros ref time last [= <- <-] [= <-]. reflexivity. }
  destruct (X12_a_new_date_object_is_always_broadcast
              [Gateway.TelemetryCreated (Js.Val (Gateway.sample_record 0 0 33))]
              (Gateway.sample_record 1 0 33) "dashboard" Hnew) as (Hbroadcast & Hcache & _).
  exact (conj Hnew (conj Hbroadcast Hcache)).
Defined.

(** A record with the values and the time of the cached one, but another
    [Date] object, is broadcast with a delta of [recordedAt] alone. *)
Example same_values_are_broadcast_again :
  Gateway.broadcasts
    (Gateway.out
       (Gateway.serve
          [Gateway.TelemetryCreated (Js.Val (Gateway.sample_record 0 0 33));
           Gateway.TelemetryCreated (Js.Val (Gateway.sample_record 1 0 33))]
          Gateway.initial))
  = [{| Gateway.data :=
          Gateway.entries
            (Gateway.fullTelemetry_of (Gateway.sample_record 0 0 33) Gateway.initial).1;
        Gateway.full :=
          Some (Gateway.fullTelemetry_of (Gateway.sample_record 0 0 33) Gateway.initial).1 |};
     {| Gateway.data := [(Gateway.key_recordedAt, Gateway.VDate (Gateway.Given 1 0))];
        Gateway.full := None |}].
Proof. vm_compute. reflexivity. Qed.

(** X13.  Over any sequence of calls of its handlers, from its
    initialisation on: the gateway caches a telemetry exactly when it has
    broadcast one; its first broadcast carries the full telemetry and a
    delta of all eleven properties, and every later one carries no full
    telemetry and a delta that is not empty and holds compared fields only,
    never [id] nor [hiveId]; and every payload sent to a single client, on
    its connection, carries a full telemetry and an empty delta. *)
Theorem X13_full_telemetry_is_broadcast_once calls :
  let g := Gateway.serve calls Gateway.initial in
  (Gateway.lastTelemetry g = None <-> Gateway.broadcasts (Gateway.out g) = [])
  /\ match Gateway.broadcasts (Gateway.out g) with
     | [] => True
     | first :: later =>
         (is_Some (Gateway.full first)
          /\ Gateway.keys first
             = [Gateway.key_id; Gateway.key_hiveId; Gateway.key_recordedAt;
                Gateway.key_temperature; Gateway.key_humidity; Gateway.key_weightKg;
                Gateway.key_soundDb; Gateway.key_co2Ppm; Gateway.key_dailyHoneyGainG;
                Gateway.key_swarmRisk; Gateway.key_batteryPercent])
         /\ Forall (fun p =>
                     Gateway.full p = None
                     /\ Gateway.keys p <> []
                     /\ (forall key, In key (Gateway.keys p) -> In key Gateway.fields)
                     /\ ~ In Gateway.key_id (Gateway.keys p)
                     /\ ~ In Gateway.key_hiveId (Gateway.keys p)) later
     end
  /\ Forall (fun welcome : string * Gateway.TelemetryDeltaPayload =>
               Gateway.data welcome.2 = [] /\ is_Some (Gateway.full welcome.2))
       (Gateway.welcomes (Gateway.out g)).
Proof.
  cbv zeta.
  destruct (serve_invariant calls Gateway.initial initial_invariant)
    as [Hcache Hstream Hwelcomes _].
  split; [exact Hcache|]. split; [|exact Hwelcomes].
  destruct (Gateway.broadcasts _) as [|first later]; [done|].
  destruct Hstream as [Hfirst Hlater]. split; [exact Hfirst|].
  eapply Forall_impl; [exact Hlater|].
  intros p (Hfull & Hkeys & Hfields). repeat split; auto.
  - intros Hin%Hfields. cbn in Hin. intuition discriminate.
  - intros Hin%Hfields. cbn in Hin. intuition discriminate.
Qed.

(** ** The connected clients *)

Lemma serve_snoc calls c g :
  Gateway.serve (calls ++ [c]) g = Gateway.handle c (Gateway.serve calls g).
Proof. unfold Gateway.serve. by rewrite foldl_app. Qed.

Lemma handleTelemetryCreated_clients telemetryData g :
  Gateway.connectedClients (Gateway.handleTelemetryCreated telemetryData g)
  = Gateway.connectedClients g.
Proof.
  destruct telemetryData as [| |telemetryData]; [done|done|].
  rewrite handleTelemetryCreated_run. cbv zeta.
  destruct (fullTelemetry_of_state telemetryData g) as (_ & Hclients & _).
  destruct (Gateway.lastTelemetry g) as [last|]; [|exact Hclients].
  destruct (Gateway.changed _ last); exact Hclients.
Qed.

Lemma handle_clients c g :
  Gateway.connectedClients (Gateway.handle c g)
  = match c with
    | Gateway.Connection client => {[client]} ∪ Gateway.connectedClients g
    | Gateway.Disconnect client => Gateway.connectedClients g ∖ {[client]}
    | _ => Gateway.connectedClients g
    end.
Proof.
  destruct c as [|client|client|telemetryData|alertData|alertData]; cbn [Gateway.handle].
  - done.
  - unfold Gateway.handleConnection. cbv zeta.
    cbn [Gateway.send Gateway.with_connectedClients Gateway.lastTelemetry].
    by destruct (Gateway.lastTelemetry g).
  - done.
  - apply handleTelemetryCreated_clients.
  - by destruct alertData.
  - by destruct alertData.
Qed.

(** A list that ends in [x] and holds [y] somewhere: [y] is that last
    element, or lies before it. *)
Lemma snoc_split {A} (l before after : list A) (x y : A) :
  l ++ [x] = before ++ y :: after ->
  (after = [] /\ x = y /\ l = before)
  \/ exists after', after = after' ++ [x] /\ l = before ++ y :: after'.
Proof.
  destruct after as [|z after' _] using rev_ind.
  - intros H. left. change (before ++ [y]) with (before ++ [y]) in H.
    apply app_inj_tail in H as [-> ->]. done.
  - intros H. right. exists after'.
    rewrite app_comm_cons, app_assoc in H. apply app_inj_tail in H as [-> ->]. done.
Qed.

(** X17.  Over any sequence of calls of the gateway's handlers from its
    initial state, the set of connected clients holds exactly the clients
    that connected and did not disconnect afterwards: a client is in it if
    and only if one of the calls is its connection and none of the later
    calls is its disconnection.  Telemetry and alert events, and the
    connections and disconnections of other clients, do not change whether
    a client is in it; connecting twice counts once, and disconnecting a
    client that is not connected does nothing. *)
Theorem X17_connected_clients_are_those_not_disconnected calls client :
  client ∈ Gateway.connectedClients (Gateway.serve calls Gateway.initial)
  <-> exists before after,
        calls = before ++ Gateway.Connection client :: after
        /\ ~ In (Gateway.Disconnect client) after.
Proof.
  induction calls as [|c calls IH] using rev_ind.
  - split; [by intros ?%elem_of_empty|].
    intros (before & after & H & _). by destruct before.
  - rewrite serve_snoc, handle_clients. split.
    + intros Hin.
      assert (Hcases : c = Gateway.Connection client
                       \/ (client ∈ Gateway.connectedClients
                                      (Gateway.serve calls Gateway.initial)
                           /\ c <> Gateway.Disconnect client)).
      { destruct c as [|client'|client'|telemetryData|alertData|alertData];
          try (right; split; [exact Hin|discriminate]).
        - apply elem_of_union in Hin as [->%elem_of_singleton|Hin]; [by left|].
          right. split; [exact Hin|discriminate].
        - apply elem_of_difference in Hin as [Hin Hne]. right. split; [exact Hin|].
          intros [= ->]. apply Hne. by apply elem_of_singleton. }
      destruct Hcases as [->|[Hold Hne]].
      * exists calls, []. split; [done|]. intros [].
      * apply IH in Hold as (before & after & -> & Hnot).
        exists before, (after ++ [c]). split; [by rewrite <- app_assoc|].
        intros [Hin'|[Heq|[]]]%in_app_or; [by apply Hnot|by apply Hne].
    + intros (before & after & Hsplit & Hnot).
      apply snoc_split in Hsplit as [(-> & -> & ->)|(after' & -> & ->)].
      * apply elem_of_union. left. by apply elem_of_singleton.
      * assert (Hold : client ∈ Gateway.connectedClients
                                  (Gateway.serve (before ++ Gateway.Connection client :: after')
                                     Gateway.initial)).
        { apply IH. exists before, after'. split; [done|].
          intros Hin'. apply Hnot, in_or_app. by left. }
        assert (Hne : c <> Gateway.Disconnect client).
        { intros Heq. apply Hnot, in_or_app. right. left. exact Heq. }
        destruct c as [|client'|client'|telemetryData|alertData|alertData]; try exact Hold.
        -- apply elem_of_union. by right.
        -- apply elem_of_difference. split; [exact Hold|].
           intros ->%elem_of_singleton. by apply Hne.
Qed.

Lemma X17_witness :
  "dashboard" ∈ Gateway.connectedClients
                  (Gateway.serve
                     [Gateway.Connection "dashboard"; Gateway.Disconnect "other";
                      Gateway.TelemetryCreated Js.Null]
                     Gateway.initial)
  /\ "other" ∉ Gateway.connectedClients
                 (Gateway.serve
                    [Gateway.Connection "other"; Gateway.Disconnect "other"]
                    Gateway.initial).
Proof.
  split.
  - apply (proj2 (X17_connected_clients_are_those_not_disconnected
                    [Gateway.Connection "dashboard"; Gateway.Disconnect "other";
                     Gateway.TelemetryCreated Js.Null] "dashboard")).
    exists [], [Gateway.Disconnect "other"; Gateway.TelemetryCreated Js.Null].
    split; [reflexivity|]. intros [H|[H|[]]]; discriminate H.
  - intros Hin.
    apply (proj1 (X17_connected_clients_are_those_not_disconnected
                    [Gateway.Connection "other"; Gateway.Disconnect "other"] "other"))
      in Hin as (before & after & Hsplit & Hnot).
    destruct before as [|c before]; [injection Hsplit as <-; apply Hnot; by left|].
    injection Hsplit as _ Hsplit.
    destruct before as [|c' before]; [discriminate Hsplit|].
    injection Hsplit as _ Hsplit. by destruct before.
Defined.

(* ------------------------------------------------------------------ *)
(** * The serializer *)










(** A row of telemetry as the serializer returns it. *)
Example serialized_sample_row :
  Serializer.transformBigInt (Serializer.sample_row 7 1000)
  = Serializer.DObject
      [("id", Serializer.DString "7"); ("hiveId", Serializer.DString HIVE_ID);
       ("recordedAt", Serializer.DObject []); ("temperature", Serializer.DNumber 33)].
Proof. vm_compute. reflexivity. Qed.
